(** * Driver-model core of U-Boot: binding lists and root lifecycle

    A shallow embedding of [drivers/core/lists.c] and [drivers/core/root.c].

    The C code is stateful: it reads and writes the global data [gd], and
    it calls into the rest of the driver model (the binder, the probe
    engine, the remove and unbind paths), which live in other files.  The
    embedding threads one record, [global_data], through a small state
    monad.  The functions of other files are taken as parameters that act
    on an abstract world [W]; every call of one of them is appended to a
    trace kept next to the world, so that "was this function called, with
    which arguments, and what did it return" can be stated. *)

From Stdlib Require Import ZArith Lia Bool String Ascii.
From stdpp Require Import base list.

Set Warnings "-register-all".

Local Open Scope Z_scope.

(** ** Error numbers

    The error numbers that the two files name.  [errno.h] and [libfdt.h]
    are not among the sources at hand; the values are those of the Linux
    numbering that U-Boot uses, and of libfdt.  The C code returns them
    negated.  The proofs use only that they are positive and differ from
    one another. *)
Module Errno.
Definition EPERM : Z := 1.
Definition ENOENT : Z := 2.
Definition EAGAIN : Z := 11.
Definition ENOMEM : Z := 12.
Definition ENODEV : Z := 19.
Definition EINVAL : Z := 22.
Definition FDT_ERR_NOTFOUND : Z := 1.
End Errno.
Import Errno.

(** ** Data model *)

(** [struct udevice_id]: one row of a driver's match table.  The table of a
    driver ends with a row whose [compatible] is NULL; the list holds the
    rows before it. *)
Record udevice_id : Type := Udevice_id {
  compatible : string;
  data : Z
}.

(** [struct driver], with the fields the two files read.  [of_match] is a
    pointer and may be NULL. *)
Record driver : Type := Driver {
  drv_name : string;
  of_match : option (list udevice_id);
  drv_flags : Z
}.

(** [struct driver_info]; [parent_idx] is what [driver_info_parent_id]
    returns, [-1] when the record has no parent. *)
Record driver_info : Type := Driver_info {
  info_name : string;
  parent_idx : Z
}.

(** What [ofnode_get_property] gives for a property: the bytes and their
    number, or a NULL pointer and a negative libfdt error in the length. *)
Inductive property : Type :=
| Prop_data (bytes : string)
| Prop_err (len : Z).

(** A node of the device tree, as far as the node cursor shows it. *)
Inductive ofnode : Type :=
  Ofnode (node_name : string) (enabled : bool) (pre_reloc : bool)
         (compat : property) (subnodes : list ofnode).

Definition ofnode_get_name (n : ofnode) : string :=
  let 'Ofnode nm _ _ _ _ := n in nm.
Definition ofnode_is_enabled (n : ofnode) : bool :=
  let 'Ofnode _ en _ _ _ := n in en.
Definition ofnode_pre_reloc (n : ofnode) : bool :=
  let 'Ofnode _ _ pr _ _ := n in pr.
(** [ofnode_get_property(node, "compatible", &len)] *)
Definition ofnode_get_property (n : ofnode) : property :=
  let 'Ofnode _ _ _ c _ := n in c.
Definition ofnode_subnodes (n : ofnode) : list ofnode :=
  let 'Ofnode _ _ _ _ subs := n in subs.

(** [struct udevice]: its name, its flags, its driver, its node (the null
    node is [None]) and the list at [child_head].  A value is the struct
    as it was when it was read; the list of a device that is in use is
    read from the world, see [list_first_child] below. *)
Inductive udevice : Type :=
  Udevice (dev_name : string) (dev_flags : Z) (dev_driver : driver)
          (dev_node : option ofnode) (child_head : list udevice).

Definition dev_get_flags (d : udevice) : Z :=
  let 'Udevice _ f _ _ _ := d in f.
Definition dev_driver_of (d : udevice) : driver :=
  let 'Udevice _ _ drv _ _ := d in drv.
Definition dev_ofnode (d : udevice) : option ofnode :=
  let 'Udevice _ _ _ n _ := d in n.
Definition dev_children (d : udevice) : list udevice :=
  let 'Udevice _ _ _ _ cs := d in cs.
Definition dev_get_name (d : udevice) : string :=
  let 'Udevice nm _ _ _ _ := d in nm.

(** ** Trace of calls

    One event per call that leaves the two files, with its arguments and
    its return value, and one per entry into the two functions whose
    invocations are counted. *)
Inductive event : Type :=
| Call_device_bind_by_name
    (par : option udevice) (pre_reloc_only : bool) (idx : nat) (ret : Z)
| Call_device_bind_with_driver_data
    (parent : option udevice) (entry : nat) (name : string) (match_data : Z)
    (node : ofnode) (ret : Z)
| Call_device_probe (dev : udevice) (ret : Z)
| Call_device_remove (dev : option udevice) (flags : Z) (ret : Z)
| Call_device_unbind (dev : option udevice) (ret : Z)
| Enter_bind_drivers_pass
| Enter_dm_probe_devices (dev : udevice).

(** ** Configuration and collaborators *)

(** The [CONFIG_IS_ENABLED] switches and the flag constants of
    [dm/device.h], which is not among the sources: they are parameters. *)
Record dm_config : Type := Dm_config {
  OF_PLATDATA : bool;
  OF_PLATDATA_PARENT : bool;
  DM_FLAG_PRE_RELOC : Z;
  DM_FLAG_PROBE_AFTER_BIND : Z;
  DM_REMOVE_NORMAL : Z;
  DM_REMOVE_NON_VITAL : Z
}.

(** The functions of [device.c] and [device-remove.c] that the two files
    call.  Each takes the world and gives it back; a binder also gives the
    pointer it stored through its last argument.

    The devices live in the world, and a bind, a probe or a removal may
    change the list at [child_head] of any of them.  The last two fields
    read that list the way [list_for_each_entry] does:
    [list_first_child dev w] is the first entry of the list of [dev] in
    the world [w], and [list_next_child dev child w] the entry after
    [child]; both are [None] where the cursor is back at the head of the
    list. *)
Record dm_externals (W : Type) : Type := Dm_externals {
  device_bind_by_name :
    option udevice -> bool -> driver_info -> W -> Z * option udevice * W;
  device_bind_with_driver_data :
    option udevice -> driver -> string -> Z -> ofnode -> W ->
    Z * option udevice * W;
  device_probe : udevice -> W -> Z * W;
  device_remove : option udevice -> Z -> W -> Z * W;
  device_unbind : option udevice -> W -> Z * W;
  list_first_child : udevice -> W -> option udevice;
  list_next_child : udevice -> udevice -> W -> option udevice
}.
Arguments device_bind_by_name {W}.
Arguments device_bind_with_driver_data {W}.
Arguments device_probe {W}.
Arguments device_remove {W}.
Arguments device_unbind {W}.
Arguments list_first_child {W}.
Arguments list_next_child {W}.

(** The linker lists and the device tree blob. *)
Record dm_tables : Type := Dm_tables {
  ll_driver : list driver;
  ll_driver_info : list driver_info;
  ofnode_root : option ofnode;
  ofnode_path : string -> option ofnode
}.

(** ** Global data and the state monad *)

Record global_data (W : Type) : Type := Global_data {
  gd_dm_root : option udevice;
  gd_dm_driver_rt : list (option udevice);
  gd_world : W;
  gd_trace : list event
}.
Arguments Global_data {W}.
Arguments gd_dm_root {W}.
Arguments gd_dm_driver_rt {W}.
Arguments gd_world {W}.
Arguments gd_trace {W}.

Definition M (W A : Type) : Type := global_data W -> A * global_data W.

Definition mret {W A} (a : A) : M W A := fun s => (a, s).
Definition mbind {W A B} (c : M W A) (k : A -> M W B) : M W B :=
  fun s => let '(a, s1) := c s in k a s1.

Notation "'do' x <- c ;; k" := (mbind c (fun x => k))
  (at level 10, x name, c at level 99, k at level 200).
Notation "'do' ' pat <- c ;; k" :=
  (mbind c (fun x => match x with pat => k end))
  (at level 10, pat pattern, c at level 99, k at level 200).
Notation "'run' c ;; k" := (mbind c (fun _ => k))
  (at level 10, c at level 99, k at level 200).

Definition gets {W A} (f : global_data W -> A) : M W A := fun s => (f s, s).

Definition emit {W} (e : event) : M W unit :=
  fun s => (tt, Global_data (gd_dm_root s) (gd_dm_driver_rt s) (gd_world s)
                            (gd_trace s ++ [e])).

Definition set_dm_root {W} (r : option udevice) : M W unit :=
  fun s => (tt, Global_data r (gd_dm_driver_rt s) (gd_world s) (gd_trace s)).

(** [(gd_dm_driver_rt() + idx)->dev = dev].  The table has one slot per
    descriptor; a write outside it is undefined behaviour in C, and leaves
    the table as it is in the model. *)
Definition set_driver_rt {W} (idx : nat) (dev : option udevice) : M W unit :=
  fun s => (tt, Global_data (gd_dm_root s) (<[idx := dev]> (gd_dm_driver_rt s))
                            (gd_world s) (gd_trace s)).

(** Run a collaborator on the world. *)
Definition on_world {W A} (f : W -> A * W) : M W A :=
  fun s => let '(a, w) := f (gd_world s) in
           (a, Global_data (gd_dm_root s) (gd_dm_driver_rt s) w (gd_trace s)).

(** * [drivers/core/lists.c] *)

(** The strings of a [compatible] property.  The loop of [lists_bind_fdt]
    starts at offset 0 and steps by [strlen(compat) + 1] while the offset
    is below the length of the property: it visits the NUL-terminated
    strings one after another, an empty one included.  [acc] holds the
    bytes of the current string read so far.  When the last byte of the
    property is not NUL, [strlen] runs past the property; the model ends
    that last string where the property ends. *)
Fixpoint split_nul (acc : string) (bytes : string) : list string :=
  match bytes with
  | EmptyString =>
      match acc with EmptyString => [] | _ => [acc] end
  | String c rest =>
      if Ascii.eqb c zero then acc :: split_nul EmptyString rest
      else split_nul (String.append acc (String c EmptyString)) rest
  end.

Definition compat_strings (bytes : string) : list string :=
  split_nul EmptyString bytes.

(** The [while] loop of [driver_check_compatible] over the rows of a match
    table. *)
Fixpoint of_match_scan (tbl : list udevice_id) (compat : string)
  : option udevice_id :=
  match tbl with
  | [] => None
  | m :: tl =>
      if String.eqb (compatible m) compat then Some m
      else of_match_scan tl compat
  end.

(** [driver_check_compatible]: the return value, and the row stored through
    [of_idp] when there is a match. *)
Definition driver_check_compatible (of_match : option (list udevice_id))
    (compat : string) : Z * option udevice_id :=
  match of_match with
  | None => (- ENOENT, None)
  | Some tbl =>
      match of_match_scan tbl compat with
      | Some m => (0, Some m)
      | None => (- ENOENT, None)
      end
  end.

(** The inner [for] loop of [lists_bind_fdt] over the driver table, from
    the entry at index [pos] on.  [drv] is the restriction, a pointer into
    the table, given by its index.  [None] means the loop ran to
    [driver + n_ents]; otherwise the result is the entry the loop broke at,
    its index, and the value of [id] at that point. *)
Fixpoint scan_drivers (entries : list driver) (pos : nat) (drv : option nat)
    (compat : string) : option (nat * driver * option udevice_id) :=
  match entries with
  | [] => None
  | entry :: rest =>
      let check :=
        match driver_check_compatible (of_match entry) compat with
        | (ret, id) =>
            if ret =? 0 then Some (pos, entry, id)
            else scan_drivers rest (S pos) drv compat
        end in
      match drv with
      | Some d =>
          if negb (Nat.eqb d pos) then scan_drivers rest (S pos) drv compat
          else
            match of_match entry with
            | None => Some (pos, entry, None)
            | Some _ => check
            end
      | None => check
      end
  end.

Section Lists.
Context {W : Type}.
Variable cfg : dm_config.
Variable ext : dm_externals W.
Variable tbl : dm_tables.

Definition call_device_bind_by_name (par : option udevice)
    (pre_reloc_only : bool) (idx : nat) (entry : driver_info)
  : M W (Z * option udevice) :=
  do '(ret, dev) <- on_world (device_bind_by_name ext par pre_reloc_only entry) ;;
  run emit (Call_device_bind_by_name par pre_reloc_only idx ret) ;;
  mret (ret, dev).

Definition call_device_bind_with_driver_data (parent : option udevice)
    (pos : nat) (entry : driver) (name : string) (match_data : Z)
    (node : ofnode) : M W (Z * option udevice) :=
  do '(ret, dev) <- on_world
     (device_bind_with_driver_data ext parent entry name match_data node) ;;
  run emit (Call_device_bind_with_driver_data parent pos name match_data
                                              node ret) ;;
  mret (ret, dev).

(** [(gd_dm_driver_rt() + idx)->dev].  An index outside the table is
    undefined behaviour in C; the model reads NULL there. *)
Definition driver_rt_dev (rt : list (option udevice)) (idx : Z)
  : option udevice :=
  if idx <? 0 then None
  else match rt !! Z.to_nat idx with
       | Some d => d
       | None => None
       end.

(** The call of [device_bind_by_name] and what the loop body does with
    its result. *)
Definition bind_entry (par : option udevice) (pre_reloc_only : bool)
    (idx : nat) (entry : driver_info) (result : Z) (missing_parent : bool)
  : M W (Z * bool) :=
  do '(ret, dev) <- call_device_bind_by_name par pre_reloc_only idx entry ;;
  if ret =? 0 then
    run (if OF_PLATDATA cfg then set_driver_rt idx dev else mret tt) ;;
    mret (result, missing_parent)
  else if negb (ret =? - EPERM) then
    mret (if (result =? 0) || negb (ret =? - ENOENT) then ret else result,
          missing_parent)
  else mret (result, missing_parent).

(** One iteration of the loop of [bind_drivers_pass]. *)
Definition bind_drivers_body (parent : option udevice)
    (pre_reloc_only : bool) (idx : nat) (entry : driver_info)
    (result : Z) (missing_parent : bool) : M W (Z * bool) :=
  if OF_PLATDATA cfg then
    do drt <- gets (fun s => driver_rt_dev (gd_dm_driver_rt s) (Z.of_nat idx)) ;;
    match drt with
    | Some _ => mret (result, missing_parent)
    | None =>
        if OF_PLATDATA_PARENT cfg && negb (parent_idx entry =? -1) then
          do parent_drt <- gets (fun s =>
            driver_rt_dev (gd_dm_driver_rt s) (parent_idx entry)) ;;
          match parent_drt with
          | None => mret (result, true)
          | Some pdev =>
              bind_entry (Some pdev) pre_reloc_only idx entry
                         result missing_parent
          end
        else bind_entry parent pre_reloc_only idx entry result missing_parent
    end
  else bind_entry parent pre_reloc_only idx entry result missing_parent.

Fixpoint bind_drivers_loop (parent : option udevice) (pre_reloc_only : bool)
    (entries : list driver_info) (idx : nat) (result : Z)
    (missing_parent : bool) : M W (Z * bool) :=
  match entries with
  | [] => mret (result, missing_parent)
  | entry :: rest =>
      do '(result', missing') <-
        bind_drivers_body parent pre_reloc_only idx entry
                          result missing_parent ;;
      bind_drivers_loop parent pre_reloc_only rest (S idx) result' missing'
  end.

Definition bind_drivers_pass (parent : option udevice)
    (pre_reloc_only : bool) : M W Z :=
  run emit Enter_bind_drivers_pass ;;
  do '(result, missing_parent) <-
    bind_drivers_loop parent pre_reloc_only (ll_driver_info tbl) 0 0 false ;;
  mret (if negb (result =? 0) then result
        else if missing_parent then - EAGAIN else 0).

(** The loop of [lists_bind_drivers], with [n] passes left. *)
Fixpoint lists_bind_drivers_loop (n : nat) (parent : option udevice)
    (pre_reloc_only : bool) (result : Z) : M W Z :=
  match n with
  | O => mret result
  | S n' =>
      do ret <- bind_drivers_pass parent pre_reloc_only ;;
      let result' :=
        if (result =? 0) || (result =? - EAGAIN) then ret else result in
      if negb (ret =? - EAGAIN) then mret result'
      else lists_bind_drivers_loop n' parent pre_reloc_only result'
  end.

Definition lists_bind_drivers (parent : option udevice)
    (pre_reloc_only : bool) : M W Z :=
  lists_bind_drivers_loop 10 parent pre_reloc_only 0.

(** The outer loop of [lists_bind_fdt] over the compatible strings that
    are left.  The result is the return value and what [*devp] holds. *)
Fixpoint bind_fdt_loop (parent : option udevice) (node : ofnode)
    (drv : option nat) (pre_reloc_only : bool) (compats : list string)
  : M W (Z * option udevice) :=
  match compats with
  | [] => mret (0, None)
  | compat :: rest =>
      match scan_drivers (ll_driver tbl) 0 drv compat with
      | None => bind_fdt_loop parent node drv pre_reloc_only rest
      | Some (pos, entry, id) =>
          if pre_reloc_only && negb (ofnode_pre_reloc node)
             && (Z.land (drv_flags entry) (DM_FLAG_PRE_RELOC cfg) =? 0)
          then mret (0, None)
          else
            do '(ret, dev) <- call_device_bind_with_driver_data parent pos entry
               (ofnode_get_name node)
               (match id with Some m => data m | None => 0 end) node ;;
            if ret =? - ENODEV then
              bind_fdt_loop parent node drv pre_reloc_only rest
            else if negb (ret =? 0) then mret (ret, None)
            else mret (0, dev)
      end
  end.

Definition lists_bind_fdt (parent : option udevice) (node : ofnode)
    (drv : option nat) (pre_reloc_only : bool) : M W (Z * option udevice) :=
  match ofnode_get_property node with
  | Prop_err compat_length =>
      if compat_length =? - FDT_ERR_NOTFOUND then mret (0, None)
      else mret (compat_length, None)
  | Prop_data compat_list =>
      bind_fdt_loop parent node drv pre_reloc_only
                    (compat_strings compat_list)
  end.
End Lists.

(** * [drivers/core/root.c] *)

Section Root.
Context {W : Type}.
Variable cfg : dm_config.
Variable ext : dm_externals W.
Variable tbl : dm_tables.

(** [dm_root()]: the root device, NULL (after a warning) when there is
    none. *)
Definition dm_root : M W (option udevice) := gets gd_dm_root.

Definition call_device_remove (dev : option udevice) (flags : Z) : M W Z :=
  do ret <- on_world (device_remove ext dev flags) ;;
  run emit (Call_device_remove dev flags ret) ;;
  mret ret.

Definition call_device_unbind (dev : option udevice) : M W Z :=
  do ret <- on_world (device_unbind ext dev) ;;
  run emit (Call_device_unbind dev ret) ;;
  mret ret.

Definition call_device_probe (dev : udevice) : M W Z :=
  do ret <- on_world (device_probe ext dev) ;;
  run emit (Call_device_probe dev ret) ;;
  mret ret.

Definition dm_uninit : M W Z :=
  do r1 <- dm_root ;;
  run call_device_remove r1 (DM_REMOVE_NON_VITAL cfg) ;;
  do r2 <- dm_root ;;
  run call_device_remove r2 (DM_REMOVE_NORMAL cfg) ;;
  do r3 <- dm_root ;;
  run call_device_unbind r3 ;;
  run set_dm_root None ;;
  mret 0.

(** The loop of [dm_scan_fdt_node] over the subnodes that are left; [ret]
    is the error remembered so far. *)
Fixpoint scan_subnodes (parent : option udevice) (nodes : list ofnode)
    (pre_reloc_only : bool) (ret : Z) : M W Z :=
  match nodes with
  | [] => mret ret
  | node :: rest =>
      if negb (ofnode_is_enabled node) then
        scan_subnodes parent rest pre_reloc_only ret
      else
        do '(err, _) <- lists_bind_fdt cfg ext tbl parent node None
                                       pre_reloc_only ;;
        scan_subnodes parent rest pre_reloc_only
          (if negb (err =? 0) && (ret =? 0) then err else ret)
  end.

Definition dm_scan_fdt_node (parent : option udevice)
    (parent_node : option ofnode) (pre_reloc_only : bool) : M W Z :=
  match parent_node with
  | None => mret 0
  | Some pn => scan_subnodes parent (ofnode_subnodes pn) pre_reloc_only 0
  end.

Definition dm_scan_fdt (pre_reloc_only : bool) : M W Z :=
  do root <- gets gd_dm_root ;;
  dm_scan_fdt_node root (ofnode_root tbl) pre_reloc_only.

Definition dm_scan_fdt_ofnode_path (path : string) (pre_reloc_only : bool)
  : M W Z :=
  do root <- gets gd_dm_root ;;
  dm_scan_fdt_node root (ofnode_path tbl path) pre_reloc_only.

(** The array [nodes] of [dm_extended_scan]. *)
Definition extended_nodes : list string :=
  ["/chosen"; "/clocks"; "/firmware"]%string.

(** The loop of [dm_extended_scan] over the paths that are left; [ret] is
    the value of the variable [ret] on entry. *)
Fixpoint extended_scan_loop (nodes : list string) (pre_reloc_only : bool)
    (ret : Z) : M W Z :=
  match nodes with
  | [] => mret ret
  | path :: rest =>
      do r <- dm_scan_fdt_ofnode_path path pre_reloc_only ;;
      if negb (r =? 0) then mret r
      else extended_scan_loop rest pre_reloc_only r
  end.

Definition dm_extended_scan (pre_reloc_only : bool) : M W Z :=
  do ret <- dm_scan_fdt pre_reloc_only ;;
  if negb (ret =? 0) then mret ret
  else extended_scan_loop extended_nodes pre_reloc_only ret.

(** The test at the head of [dm_probe_devices] that jumps to
    [probe_children]. *)
Definition skip_pre_reloc (dev : udevice) (pre_reloc_only : bool) : bool :=
  pre_reloc_only
  && match dev_ofnode dev with
     | None => true
     | Some node => negb (ofnode_pre_reloc node)
     end
  && (Z.land (drv_flags (dev_driver_of dev)) (DM_FLAG_PRE_RELOC cfg) =? 0).

(** The [list_for_each_entry] loop of [dm_probe_devices] over the list at
    [child_head] of [dev], with the cursor at [child].  [walk] is the body,
    the recursive call; its return value is dropped.  The entry after
    [child] is read when the walk of [child] has returned, from the world
    as that walk left it.  [n] bounds the number of entries walked; the
    result is [false] when the loop has not come to the end of the list
    within it, or when a walk has not ended. *)
Fixpoint probe_children (walk : udevice -> M W (option Z)) (n : nat)
    (dev : udevice) (child : option udevice) : M W bool :=
  match child with
  | None => mret true
  | Some c =>
      match n with
      | O => mret false
      | S n' =>
          do r <- walk c ;;
          match r with
          | None => mret false
          | Some _ =>
              do next <- gets (fun s =>
                list_next_child ext dev c (gd_world s)) ;;
              probe_children walk n' dev next
          end
      end
  end.

(** [dm_probe_devices].  The loop at [probe_children] starts at the first
    entry of [dev->child_head] as the world has the list at that point,
    after [device_probe(dev)] has returned when the device is probed.

    The C recursion ends because the tree in memory is finite, and the
    probes may grow that tree.  [fuel] bounds the nesting of the calls and
    the number of entries walked in one list; the result is [None] when
    the walk does not end within it, and the value returned otherwise. *)
Fixpoint dm_probe_devices (fuel : nat) (dev : udevice) (pre_reloc_only : bool)
  : M W (option Z) :=
  match fuel with
  | O => mret None
  | S fuel' =>
      let walk_children : M W (option Z) :=
        do first <- gets (fun s => list_first_child ext dev (gd_world s)) ;;
        do ended <- probe_children
                      (fun c => dm_probe_devices fuel' c pre_reloc_only)
                      fuel' dev first ;;
        mret (if ended then Some 0 else None) in
      run emit (Enter_dm_probe_devices dev) ;;
      if skip_pre_reloc dev pre_reloc_only then walk_children
      else if negb (Z.land (dev_get_flags dev)
                           (DM_FLAG_PROBE_AFTER_BIND cfg) =? 0) then
        do ret <- call_device_probe dev ;;
        if negb (ret =? 0) then mret (Some ret) else walk_children
      else walk_children
  end.
End Root.

(** * The lookups of [drivers/core/lists.c] *)

(** The loop of [lists_driver_lookup_name] from the entry at index [pos]
    on: the entry whose name compares equal under [strcmp], with its
    index, or NULL. *)
Fixpoint lookup_name_from (entries : list driver) (pos : nat) (name : string)
  : option (nat * driver) :=
  match entries with
  | [] => None
  | entry :: rest =>
      if String.eqb name (drv_name entry) then Some (pos, entry)
      else lookup_name_from rest (S pos) name
  end.

Definition lists_driver_lookup_name (tbl : dm_tables) (name : string)
  : option (nat * driver) :=
  lookup_name_from (ll_driver tbl) 0 name.

(** [struct uclass_driver], with the fields [lists_uclass_lookup] reads;
    [uc_id] is the [enum uclass_id]. *)
Record uclass_driver : Type := Uclass_driver {
  uc_name : string;
  uc_id : Z
}.

(** [lists_uclass_lookup] over the linker list of uclass drivers. *)
Fixpoint lists_uclass_lookup (uclasses : list uclass_driver) (id : Z)
  : option uclass_driver :=
  match uclasses with
  | [] => None
  | entry :: rest =>
      if uc_id entry =? id then Some entry
      else lists_uclass_lookup rest id
  end.

Section BindByDriverName.
Context {W : Type}.
Variable ext : dm_externals W.
Variable tbl : dm_tables.

(** [device_bind_driver_to_node].  The second component is the pointer
    stored through [devp]; nothing is stored when no driver is found. *)
Definition device_bind_driver_to_node (parent : option udevice)
    (drv_name dev_name : string) (node : ofnode)
  : M W (Z * option udevice) :=
  match lists_driver_lookup_name tbl drv_name with
  | None => mret (- ENOENT, None)
  | Some (pos, drv) =>
      call_device_bind_with_driver_data ext parent pos drv dev_name 0 node
  end.
End BindByDriverName.

(** * The lifecycle functions of [drivers/core/root.c] *)

(** What the lifecycle functions need beyond [dm_config] and
    [dm_externals]: further [CONFIG_IS_ENABLED] switches, the relocation
    flag of [gd->flags], the statically declared root device, the sizes
    that the allocations use, and the collaborators: the allocator, the
    setters of the [gd] fields that the world holds, the event notifier
    and the weak function [dm_scan_other], which a board may replace. *)
Record dm_boot (W : Type) : Type := Dm_boot {
  OF_PLATDATA_INST : bool;
  OF_PLATDATA_RT : bool;
  OF_PLATDATA_DRIVER_RT : bool;
  OF_CONTROL : bool;
  OF_REAL : bool;
  DM_EVENT : bool;
  GD_FLG_RELOC : bool;
  DM_DEVICE_GET_root : udevice;
  udevice_count : Z;
  sizeof_udevice_rt : Z;
  sizeof_driver_rt : Z;
  priv_data_size : Z;
  EVT_DM_POST_INIT_R : Z;
  EVT_DM_POST_INIT_F : Z;
  calloc : Z -> Z -> W -> bool * W;
  gd_set_dm_udevice_rt : W -> W;
  copy_priv_data : W -> W;
  init_uclass_root : bool -> W -> W;
  init_dmtag_list : W -> W;
  event_notify_null : Z -> W -> Z * W;
  dm_scan_other : bool -> W -> Z * W;
  device_now : W -> udevice -> udevice
}.
Arguments OF_PLATDATA_INST {W}.
Arguments OF_PLATDATA_RT {W}.
Arguments OF_PLATDATA_DRIVER_RT {W}.
Arguments OF_CONTROL {W}.
Arguments OF_REAL {W}.
Arguments DM_EVENT {W}.
Arguments GD_FLG_RELOC {W}.
Arguments DM_DEVICE_GET_root {W}.
Arguments udevice_count {W}.
Arguments sizeof_udevice_rt {W}.
Arguments sizeof_driver_rt {W}.
Arguments priv_data_size {W}.
Arguments EVT_DM_POST_INIT_R {W}.
Arguments EVT_DM_POST_INIT_F {W}.
Arguments calloc {W}.
Arguments gd_set_dm_udevice_rt {W}.
Arguments copy_priv_data {W}.
Arguments init_uclass_root {W}.
Arguments init_dmtag_list {W}.
Arguments event_notify_null {W}.
Arguments dm_scan_other {W}.
Arguments device_now {W}.

(** The weak [dm_scan_other] of [root.c]. *)
Definition dm_scan_other_weak {W : Type} (pre_reloc_only : bool) (w : W)
  : Z * W := (0, w).

(** The static [root_info]; only its name is initialised. *)
Definition root_info : driver_info :=
  {| info_name := "root_driver"; parent_idx := 0 |}.

(** [dev_set_ofnode] *)
Definition dev_set_ofnode (dev : udevice) (node : option ofnode) : udevice :=
  let 'Udevice nm fl drv _ cs := dev in Udevice nm fl drv node cs.

Definition modify_world {W} (f : W -> W) : M W unit :=
  fun s => (tt, Global_data (gd_dm_root s) (gd_dm_driver_rt s)
                            (f (gd_world s)) (gd_trace s)).

(** [gd_set_dm_driver_rt] *)
Definition gd_set_dm_driver_rt {W} (rt : list (option udevice)) : M W unit :=
  fun s => (tt, Global_data (gd_dm_root s) rt (gd_world s) (gd_trace s)).

Section Lifecycle.
Context {W : Type}.
Variable cfg : dm_config.
Variable ext : dm_externals W.
Variable tbl : dm_tables.
Variable boot : dm_boot W.

Definition dm_setup_inst : M W Z :=
  run set_dm_root (Some (DM_DEVICE_GET_root boot)) ;;
  if OF_PLATDATA_RT boot then
    do urt <- on_world (calloc boot (udevice_count boot)
                                    (sizeof_udevice_rt boot)) ;;
    if negb urt then mret (- ENOMEM)
    else
      run modify_world (gd_set_dm_udevice_rt boot) ;;
      do base <- on_world (calloc boot 1 (priv_data_size boot)) ;;
      if negb base then mret (- ENOMEM)
      else
        run modify_world (copy_priv_data boot) ;;
        mret 0
  else mret 0.

(** [dm_init].  The result is [None] when the binder reports success and
    stores a NULL root, which the code then hands on as a device; the two
    files say nothing about that case. *)
Definition dm_init (of_live : bool) : M W (option Z) :=
  do root <- gets gd_dm_root ;;
  match root with
  | Some _ => mret (Some (- EINVAL))
  | None =>
      run modify_world (init_uclass_root boot (OF_PLATDATA_INST boot)) ;;
      if OF_PLATDATA_INST boot then
        do ret <- dm_setup_inst ;;
        if negb (ret =? 0) then mret (Some ret)
        else
          run modify_world (init_dmtag_list boot) ;;
          mret (Some 0)
      else
        do '(ret, dev) <- on_world (device_bind_by_name ext None false
                                                        root_info) ;;
        run set_dm_root dev ;;
        if negb (ret =? 0) then mret (Some ret)
        else
          match dev with
          | None => mret None
          | Some d =>
              let d' := if OF_CONTROL boot
                        then dev_set_ofnode d (ofnode_root tbl) else d in
              run set_dm_root (Some d') ;;
              do ret <- call_device_probe ext d' ;;
              if negb (ret =? 0) then mret (Some ret)
              else
                run modify_world (init_dmtag_list boot) ;;
                mret (Some 0)
          end
  end.

(** [dm_remove_devices_flags] *)
Definition dm_remove_devices_flags (flags : Z) : M W Z :=
  do r <- dm_root ;;
  run call_device_remove ext r flags ;;
  mret 0.

Definition dm_scan_plat (pre_reloc_only : bool) : M W Z :=
  let bind :=
    do root <- gets gd_dm_root ;;
    do ret <- lists_bind_drivers cfg ext tbl root pre_reloc_only ;;
    mret (if ret =? - ENOENT then 0 else ret) in
  if OF_PLATDATA_DRIVER_RT boot then
    do dyn <- on_world (calloc boot
                          (Z.of_nat (length (ll_driver_info tbl)))
                          (sizeof_driver_rt boot)) ;;
    if negb dyn then mret (- ENOMEM)
    else
      run gd_set_dm_driver_rt
            (replicate (length (ll_driver_info tbl)) None) ;;
      bind
  else bind.

(** [dm_scan_fdt_dev] *)
Definition dm_scan_fdt_dev (dev : udevice) : M W Z :=
  dm_scan_fdt_node cfg ext tbl (Some dev) (dev_ofnode dev)
                   (if GD_FLG_RELOC boot then false else true).

(** [dm_scan].  The walk starts at the root device as the world has it at
    that time.  The result is [None] when the code gives no return value:
    the root handle is NULL where the code hands it to
    [dm_probe_devices], or the walk does not end within [fuel]. *)
Definition dm_scan (fuel : nat) (pre_reloc_only : bool) : M W (option Z) :=
  do ret <- dm_scan_plat pre_reloc_only ;;
  if negb (ret =? 0) then mret (Some ret)
  else
    do ret <- (if OF_REAL boot
               then dm_extended_scan cfg ext tbl pre_reloc_only
               else mret 0) ;;
    if negb (ret =? 0) then mret (Some ret)
    else
      do ret <- on_world (dm_scan_other boot pre_reloc_only) ;;
      if negb (ret =? 0) then mret (Some ret)
      else
        do root <- gets gd_dm_root ;;
        match root with
        | None => mret None
        | Some d =>
            do w <- gets gd_world ;;
            dm_probe_devices cfg ext fuel (device_now boot w d)
                             pre_reloc_only
        end.

Definition dm_init_and_scan (fuel : nat) (pre_reloc_only : bool)
  : M W (option Z) :=
  let notify :=
    if DM_EVENT boot then
      do ret <- on_world (event_notify_null boot
                            (if GD_FLG_RELOC boot then EVT_DM_POST_INIT_R boot
                             else EVT_DM_POST_INIT_F boot)) ;;
      if negb (ret =? 0) then mret (Some ret) else mret (Some 0)
    else mret (Some 0) in
  do init <- dm_init false ;;
  match init with
  | None => mret None
  | Some ret =>
      if negb (ret =? 0) then mret (Some ret)
      else if negb (OF_PLATDATA_INST boot) then
        do scan <- dm_scan fuel pre_reloc_only ;;
        match scan with
        | None => mret None
        | Some ret =>
            if negb (ret =? 0) then mret (Some ret) else notify
        end
      else notify
  end.
End Lifecycle.

(** * A concrete board

    A small registry, a small device tree and collaborators that behave
    like the binder and the probe engine, to run the functions on.  The
    world is the list of the names of the devices bound so far. *)
Module Board.
Definition cfg (of_platdata of_platdata_parent : bool) : dm_config :=
  {| OF_PLATDATA := of_platdata;
     OF_PLATDATA_PARENT := of_platdata_parent;
     DM_FLAG_PRE_RELOC := 4;
     DM_FLAG_PROBE_AFTER_BIND := 4096;
     DM_REMOVE_NORMAL := 1;
     DM_REMOVE_NON_VITAL := 8 |}.

Definition plain_driver (nm : string) : driver :=
  {| drv_name := nm; of_match := None; drv_flags := 0 |}.

Definition new_device (nm : string) (drv : driver) (node : option ofnode)
  : udevice := Udevice nm 0 drv node [].

(** A binder whose outcome is fixed by the name of the descriptor:
    ["absent"] has no driver, ["nomem"] and ["inval"] fail, ["late"] is
    refused before relocation, anything else binds. *)
Definition bind_by_name (par : option udevice) (pre_reloc_only : bool)
    (info : driver_info) (w : list string)
  : Z * option udevice * list string :=
  if String.eqb (info_name info) "absent" then (- ENOENT, None, w)
  else if String.eqb (info_name info) "nomem" then (- ENOMEM, None, w)
  else if String.eqb (info_name info) "inval" then (- EINVAL, None, w)
  else if String.eqb (info_name info) "late" && pre_reloc_only
  then (- EPERM, None, w)
  else (0, Some (new_device (info_name info)
                            (plain_driver (info_name info)) None),
        w ++ [info_name info]).

(** A binder whose outcome is fixed by the name of the driver: the bind
    hook of ["shy"] refuses, that of ["broken"] fails. *)
Definition bind_with_driver_data (parent : option udevice) (drv : driver)
    (nm : string) (match_data : Z) (node : ofnode) (w : list string)
  : Z * option udevice * list string :=
  if String.eqb (drv_name drv) "shy" then (- ENODEV, None, w)
  else if String.eqb (drv_name drv) "broken" then (- EINVAL, None, w)
  else (0, Some (new_device nm drv (Some node)), w ++ [nm]).

(** Probing fails for the device called ["dead"]. *)
Definition probe (dev : udevice) (w : list string) : Z * list string :=
  if String.eqb (dev_get_name dev) "dead" then (- EINVAL, w) else (0, w).

(** Removing and unbinding reject a NULL device. *)
Definition remove (dev : option udevice) (flags : Z) (w : list string)
  : Z * list string :=
  match dev with None => (- EINVAL, w) | Some _ => (0, w) end.

Definition unbind (dev : option udevice) (w : list string)
  : Z * list string :=
  match dev with None => (- EINVAL, w) | Some _ => (0, []) end.

(** The child lists of this board are those of the device values: no
    bind and no probe changes them.  The entry after a device is found by
    the name of the device. *)
Fixpoint entry_after (nm : string) (cs : list udevice) : option udevice :=
  match cs with
  | [] => None
  | c :: rest =>
      if String.eqb (dev_get_name c) nm then head rest
      else entry_after nm rest
  end.

Definition first_child (dev : udevice) (w : list string) : option udevice :=
  head (dev_children dev).

Definition next_child (dev child : udevice) (w : list string)
  : option udevice :=
  entry_after (dev_get_name child) (dev_children dev).

Definition ext : dm_externals (list string) :=
  {| device_bind_by_name := bind_by_name;
     device_bind_with_driver_data := bind_with_driver_data;
     device_probe := probe;
     device_remove := remove;
     device_unbind := unbind;
     list_first_child := first_child;
     list_next_child := next_child |}.

Definition match_driver (nm compat : string) (flags : Z) : driver :=
  {| drv_name := nm;
     of_match := Some [ {| compatible := compat; data := 7 |} ];
     drv_flags := flags |}.

Definition leaf (nm : string) (compat : string) : ofnode :=
  Ofnode nm true false (Prop_data compat) [].

Definition root_device : udevice :=
  new_device "root_driver" (plain_driver "root_driver") None.

Definition gd0 (root : option udevice) (rt : list (option udevice))
  : global_data (list string) :=
  {| gd_dm_root := root; gd_dm_driver_rt := rt;
     gd_world := []; gd_trace := [] |}.

Definition tables (drivers : list driver) (infos : list driver_info)
    (root : option ofnode) (paths : string -> option ofnode) : dm_tables :=
  {| ll_driver := drivers; ll_driver_info := infos;
     ofnode_root := root; ofnode_path := paths |}.

Definition no_paths (p : string) : option ofnode := None.

(** ["a,v2\0g,foo\0"] *)
Definition two_compat : string :=
  String.append "a,v2" (String zero (String.append "g,foo" (String zero EmptyString))).

(** A node with the two strings above, not marked for pre-relocation. *)
Definition serial_node : ofnode := leaf "serial" two_compat.

(** Scenario 3 of the specification: A lists the generic string, B the
    specific one. *)
Definition drivers_AB : list driver :=
  [match_driver "A" "g,foo" 0; match_driver "B" "a,v2" 0].

(** The driver for the specific string refuses to bind (and carries
    [DM_FLAG_PRE_RELOC]); the generic one binds. *)
Definition drivers_shy : list driver :=
  [match_driver "shy" "a,v2" 4; match_driver "generic" "g,foo" 0].

Definition drivers_other : list driver := [match_driver "other" "x,y" 0].

Definition drivers_plain : list driver := [plain_driver "gpio"].

Definition fdt_tables (drivers : list driver) : dm_tables :=
  tables drivers [] None no_paths.

(** A device tree whose root level holds a node that fails to bind, and
    whose [/chosen] holds a node that binds. *)
Definition drivers_scan : list driver :=
  [match_driver "broken" "x,broken" 0; match_driver "generic" "g,foo" 0].

Definition bad_node : ofnode :=
  leaf "bad" (String.append "x,broken" (String zero EmptyString)).

Definition fb_node : ofnode :=
  leaf "fb" (String.append "g,foo" (String zero EmptyString)).

Definition chosen_paths (p : string) : option ofnode :=
  if String.eqb p "/chosen"
  then Some (Ofnode "chosen" true false (Prop_err (-1)) [fb_node])
  else None.

Definition scan_tables : dm_tables :=
  tables drivers_scan []
         (Some (Ofnode "/" true false (Prop_err (-1)) [bad_node]))
         chosen_paths.

(** A tree whose failing node is under [/chosen], with a node that binds
    under [/clocks]. *)
Definition aux_paths (p : string) : option ofnode :=
  if String.eqb p "/chosen"
  then Some (Ofnode "chosen" true false (Prop_err (-1)) [bad_node])
  else if String.eqb p "/clocks"
  then Some (Ofnode "clocks" true false (Prop_err (-1)) [fb_node])
  else None.

Definition scan_tables_aux : dm_tables :=
  tables drivers_scan []
         (Some (Ofnode "/" true false (Prop_err (-1)) []))
         aux_paths.

(** The first tree without the failing node. *)
Definition scan_tables_ok : dm_tables :=
  tables drivers_scan []
         (Some (Ofnode "/" true false (Prop_err (-1)) []))
         chosen_paths.





(** Static descriptors: two that fail with different errors; one without a
    driver among others; a single one that binds; one that binds and one
    that is refused before relocation. *)
Definition info (nm : string) : driver_info :=
  {| info_name := nm; parent_idx := -1 |}.

Definition info_tables (infos : list driver_info) : dm_tables :=
  tables [] infos None no_paths.

Definition infos_two_errors : list driver_info := [info "nomem"; info "inval"].

Definition infos_absent : list driver_info :=
  [info "absent"; info "nomem"; info "absent"].

Definition infos_uart : list driver_info := [info "uart"].

Definition infos_late : list driver_info := [info "uart"; info "late"].

Definition uart_device : udevice :=
  new_device "uart" (plain_driver "uart") None.

(** A child before its parent, and two descriptors that name each other
    as parent. *)
Definition infos_out_of_order : list driver_info :=
  [ {| info_name := "child"; parent_idx := 1 |}; info "parent" ].

Definition infos_cycle : list driver_info :=
  [ {| info_name := "a"; parent_idx := 1 |};
    {| info_name := "b"; parent_idx := 0 |} ].

(** Uclass drivers, two of them with the same id. *)
Definition uclasses : list uclass_driver :=
  [ {| uc_name := "root"; uc_id := 0 |};
    {| uc_name := "serial"; uc_id := 7 |};
    {| uc_name := "serial2"; uc_id := 7 |} ].

(** Collaborators whose probe never fails and records the device. *)
Definition probe_ok (dev : udevice) (w : list string) : Z * list string :=
  (0, w ++ [dev_get_name dev]).

Definition ext_ok : dm_externals (list string) :=
  {| device_bind_by_name := bind_by_name;
     device_bind_with_driver_data := bind_with_driver_data;
     device_probe := probe_ok;
     device_remove := remove;
     device_unbind := unbind;
     list_first_child := first_child;
     list_next_child := next_child |}.

(** A board on which the probe of the device "hub" binds a child: the
    list of "hub" is empty until "hub" has been probed, and holds "port"
    from then on. *)
Definition port : udevice :=
  Udevice "port" 4096 (plain_driver "p") None [].

Definition hub : udevice :=
  Udevice "hub" 4096 (plain_driver "h") None [].

Definition first_child_hotplug (dev : udevice) (w : list string)
  : option udevice :=
  if String.eqb (dev_get_name dev) "hub" then
    if existsb (String.eqb "hub") w then Some port else None
  else first_child dev w.

Definition ext_hotplug : dm_externals (list string) :=
  {| device_bind_by_name := bind_by_name;
     device_bind_with_driver_data := bind_with_driver_data;
     device_probe := probe_ok;
     device_remove := remove;
     device_unbind := unbind;
     list_first_child := first_child_hotplug;
     list_next_child := next_child |}.

(** A board that allocates without failure, without events. *)
Definition boot (inst driver_rt : bool) : dm_boot (list string) :=
  {| OF_PLATDATA_INST := inst;
     OF_PLATDATA_RT := inst;
     OF_PLATDATA_DRIVER_RT := driver_rt;
     OF_CONTROL := true;
     OF_REAL := true;
     DM_EVENT := false;
     GD_FLG_RELOC := false;
     DM_DEVICE_GET_root := root_device;
     udevice_count := 1;
     sizeof_udevice_rt := 8;
     sizeof_driver_rt := 8;
     priv_data_size := 16;
     EVT_DM_POST_INIT_R := 1;
     EVT_DM_POST_INIT_F := 0;
     calloc := fun _ _ w => (true, w);
     gd_set_dm_udevice_rt := fun w => w;
     copy_priv_data := fun w => w;
     init_uclass_root := fun _ w => w;
     init_dmtag_list := fun w => w;
     event_notify_null := fun _ w => (0, w);
     dm_scan_other := dm_scan_other_weak;
     device_now := fun _ d => d |}.
End Board.

(** * Vocabulary of the properties *)

(** The match table of driver [d] has a row for the string [c]. *)
Definition driver_matches (d : driver) (c : string) : bool :=
  match of_match d with
  | Some rows => existsb (fun m => String.eqb (compatible m) c) rows
  | None => false
  end.

(** Calls of the binder of [lists_bind_fdt] in a trace. *)
Definition is_bind_with_driver_data (e : event) : bool :=
  match e with
  | Call_device_bind_with_driver_data _ _ _ _ _ _ => true
  | _ => false
  end.

(** Calls of the binder of [bind_drivers_pass] in a trace, and those for
    the descriptor at index [i]. *)
Definition is_bind_by_name (e : event) : bool :=
  match e with
  | Call_device_bind_by_name _ _ _ _ => true
  | _ => false
  end.

Definition is_bind_by_name_at (i : nat) (e : event) : bool :=
  match e with
  | Call_device_bind_by_name _ _ idx _ => Nat.eqb idx i
  | _ => false
  end.

Definition is_enter_pass (e : event) : bool :=
  match e with
  | Enter_bind_drivers_pass => true
  | _ => false
  end.

(** The choice of a driver as the specification words it, to be compared
    with what [lists_bind_fdt] does: the index of the first driver, in
    table order, whose match table has a row for [c]. *)
Fixpoint first_matching_driver (drivers : list driver) (pos : nat)
    (c : string) : option nat :=
  match drivers with
  | [] => None
  | d :: rest =>
      if driver_matches d c then Some pos
      else first_matching_driver rest (S pos) c
  end.

(** The specification's choice for a list of strings [c0, c1, ...] in
    order of priority: the first driver that matches [c_k], for the
    smallest [k] such that some driver matches [c_k]. *)
Fixpoint spec_chosen_driver (drivers : list driver) (compats : list string)
  : option nat :=
  match compats with
  | [] => None
  | c :: rest =>
      match first_matching_driver drivers 0 c with
      | Some pos => Some pos
      | None => spec_chosen_driver drivers rest
      end
  end.

Section ListsVocabulary.
Context {W : Type}.
Variable cfg : dm_config.
Variable ext : dm_externals W.
Variable tbl : dm_tables.
Variable parent : option udevice.
Variable node : ofnode.
Variable drv : option nat.
Variable pre_reloc_only : bool.

(** The pre-relocation test of [lists_bind_fdt] for the driver [entry]:
    true when the node is to be skipped. *)
Definition pre_reloc_skip (entry : driver) : bool :=
  pre_reloc_only && negb (ofnode_pre_reloc node)
  && (Z.land (drv_flags entry) (DM_FLAG_PRE_RELOC cfg) =? 0).

Definition match_data_of (id : option udevice_id) : Z :=
  match id with Some m => data m | None => 0 end.

(** The calls that the loop of [lists_bind_fdt] makes for the strings
    [cs] when the driver found for each of them refuses to bind: one call
    per string that has a driver, returning [-ENODEV]. *)
Definition refused_attempts (cs : list string) : list event :=
  flat_map (fun c =>
    match scan_drivers (ll_driver tbl) 0 drv c with
    | Some (pos, entry, id) =>
        [Call_device_bind_with_driver_data parent pos (ofnode_get_name node)
           (match_data_of id) node (- ENODEV)]
    | None => []
    end) cs.

(** [reaches cs s cs' s']: the loop of [lists_bind_fdt], started on the
    strings [cs] in state [s], comes to the head of the loop with the
    strings [cs'] left, in state [s'].  It goes on to the next string
    when no driver was found for the current one, and when the driver
    found passes the pre-relocation test and refuses to bind. *)
Inductive reaches
  : list string -> global_data W -> list string -> global_data W -> Prop :=
| reaches_here cs s : reaches cs s cs s
| reaches_no_match c cs s cs' s' :
    scan_drivers (ll_driver tbl) 0 drv c = None ->
    reaches cs s cs' s' ->
    reaches (c :: cs) s cs' s'
| reaches_refused c cs s pos entry id dev s1 cs' s' :
    scan_drivers (ll_driver tbl) 0 drv c = Some (pos, entry, id) ->
    pre_reloc_skip entry = false ->
    call_device_bind_with_driver_data ext parent pos entry
      (ofnode_get_name node) (match_data_of id) node s
    = ((- ENODEV, dev), s1) ->
    reaches cs s1 cs' s' ->
    reaches (c :: cs) s cs' s'.
(** No driver can be found for the string [c]: without a restriction,
    no driver of the table has a row for [c]; with a restriction, the
    restricted driver is not in the table, or has a match table without a
    row for [c]. *)
Definition no_driver_for (c : string) : bool :=
  match drv with
  | None => forallb (fun d => negb (driver_matches d c)) (ll_driver tbl)
  | Some i =>
      match ll_driver tbl !! i with
      | None => true
      | Some e =>
          match of_match e with
          | None => false
          | Some _ => negb (driver_matches e c)
          end
      end
  end.
End ListsVocabulary.

(** What the loop body of [bind_drivers_pass] makes of [result] when a
    bind returned the error [ret]. *)
Definition record_error (result ret : Z) : Z :=
  if (result =? 0) || negb (ret =? - ENOENT) then ret else result.

(** The return values of the binds of a pass that count as errors: not 0
    and not [-EPERM]. *)
Definition pass_errors (evs : list event) : list Z :=
  flat_map (fun e =>
    match e with
    | Call_device_bind_by_name _ _ _ ret =>
        if (ret =? 0) || (ret =? - EPERM) then [] else [ret]
    | _ => []
    end) evs.

(** The errors other than [-ENOENT]. *)
Definition other_errors (errs : list Z) : list Z :=
  List.filter (fun e => negb (e =? - ENOENT)) errs.

(** The result of a pass as the specification words it, to be compared
    with the one of [bind_drivers_pass]: the first error other than
    [-ENOENT] when there is one, else the first error. *)
Definition first_error_as_specified (errs : list Z) : option Z :=
  match other_errors errs with
  | e :: _ => Some e
  | [] => head errs
  end.

Section PassVocabulary.
Context {W : Type}.
Variable cfg : dm_config.
Variable ext : dm_externals W.
Variable tbl : dm_tables.
Variable parent : option udevice.
Variable pre_reloc_only : bool.

(** The state after [k] calls of [bind_drivers_pass] in a row, and the
    value the call after them returns. *)
Fixpoint after_passes (k : nat) (s : global_data W) : global_data W :=
  match k with
  | O => s
  | S k' =>
      after_passes k' (snd (bind_drivers_pass cfg ext tbl parent
                                              pre_reloc_only s))
  end.

Definition pass_result (k : nat) (s : global_data W) : Z :=
  fst (bind_drivers_pass cfg ext tbl parent pre_reloc_only (after_passes k s)).
End PassVocabulary.

(** What a state keeps of a filled slot [i] over some steps: the slot
    still holds the device, and no bind was called for descriptor [i]. *)
Definition keeps_slot {W : Type} (i : nat) (d : udevice) (s s' : global_data W) : Prop :=
  gd_dm_driver_rt s' !! i = Some (Some d)
  /\ exists evs, gd_trace s' = gd_trace s ++ evs
       /\ Forall (fun e => is_bind_by_name_at i e = false) evs.

(** The number of entries into [bind_drivers_pass] in a trace. *)
Definition count_passes (evs : list event) : nat :=
  length (List.filter is_enter_pass evs).

Section RootVocabulary.
Context {W : Type}.
Variable cfg : dm_config.
Variable ext : dm_externals W.
Variable tbl : dm_tables.
Variable pre_reloc_only : bool.

(** The extended scan as the specification words it, to be compared with
    [dm_extended_scan]: scan the root level, then every auxiliary path;
    the first error is kept, the remaining paths are still scanned. *)
Fixpoint scan_all_paths (nodes : list string) (first_err : Z) : M W Z :=
  match nodes with
  | [] => mret first_err
  | path :: rest =>
      do r <- dm_scan_fdt_ofnode_path cfg ext tbl path pre_reloc_only ;;
      scan_all_paths rest (if first_err =? 0 then r else first_err)
  end.

Definition extended_scan_as_specified : M W Z :=
  do r0 <- dm_scan_fdt cfg ext tbl pre_reloc_only ;;
  scan_all_paths extended_nodes r0.

(** [scanned_ok paths s s']: scanning the paths one after another from
    state [s] returns 0 each time and ends in state [s']. *)
Inductive scanned_ok : list string -> global_data W -> global_data W -> Prop :=
| scanned_ok_nil s : scanned_ok [] s s
| scanned_ok_cons path paths s s1 s' :
    dm_scan_fdt_ofnode_path cfg ext tbl path pre_reloc_only s = (0, s1) ->
    scanned_ok paths s1 s' ->
    scanned_ok (path :: paths) s s'.

(** [dm_probe_devices] calls [device_probe] on the device itself: the
    pre-relocation test does not skip it and the device has
    [DM_FLAG_PROBE_AFTER_BIND]. *)
Definition probes_itself (dev : udevice) : bool :=
  negb (skip_pre_reloc cfg dev pre_reloc_only)
  && negb (Z.land (dev_get_flags dev) (DM_FLAG_PROBE_AFTER_BIND cfg) =? 0).

End RootVocabulary.

(** ** Vocabulary of the further properties *)

(** A string without a NUL byte, and the bytes of a [compatible] property
    that lists the strings [l]: each string followed by a NUL. *)
Fixpoint nul_free (s : string) : bool :=
  match s with
  | EmptyString => true
  | String c rest => negb (Ascii.eqb c zero) && nul_free rest
  end.

Fixpoint compat_property (l : list string) : string :=
  match l with
  | [] => EmptyString
  | s :: rest =>
      String.append s (String zero (compat_property rest))
  end.

(** A call of the binder of [lists_bind_fdt] that was refused. *)
Definition is_refused_bind (e : event) : bool :=
  match e with
  | Call_device_bind_with_driver_data _ _ _ _ _ ret => ret =? - ENODEV
  | _ => false
  end.

(** The last byte of a property is a NUL. *)
Fixpoint ends_with_nul (bytes : string) : bool :=
  match bytes with
  | EmptyString => false
  | String c EmptyString => Ascii.eqb c zero
  | String _ rest => ends_with_nul rest
  end.

(** The strings of the [compatible] property of a node; none when the
    property cannot be read. *)
Definition property_strings (node : ofnode) : list string :=
  match ofnode_get_property node with
  | Prop_data bytes => compat_strings bytes
  | Prop_err _ => []
  end.


(** The calls of [device_bind_by_name] for the descriptors at [idx],
    [idx + 1], ... under the parent [par], with the return values
    [rets]. *)
Fixpoint calls_in_order (par : option udevice) (pre_reloc_only : bool)
    (idx : nat) (rets : list Z) : list event :=
  match rets with
  | [] => []
  | r :: rest =>
      Call_device_bind_by_name par pre_reloc_only idx r
      :: calls_in_order par pre_reloc_only (S idx) rest
  end.

(** [device_bind_by_name] applied to the descriptors [entries] one after
    another under [par], each call in the world the call before left: the
    values returned, in order, and the world at the end. *)
Fixpoint bind_returns {W : Type} (ext : dm_externals W)
    (par : option udevice) (pre_reloc_only : bool)
    (entries : list driver_info) (w : W) : list Z * W :=
  match entries with
  | [] => ([], w)
  | entry :: rest =>
      let '(ret, _, w1) := device_bind_by_name ext par pre_reloc_only entry w in
      let '(rets, w') := bind_returns ext par pre_reloc_only rest w1 in
      (ret :: rets, w')
  end.

(** The loop body of [bind_drivers_pass] takes the parent of this
    descriptor from the runtime table. *)
Definition uses_parent_slot (cfg : dm_config) (entry : driver_info) : bool :=
  OF_PLATDATA cfg && OF_PLATDATA_PARENT cfg && negb (parent_idx entry =? -1).

(** A call of [device_bind_by_name] that follows the parent rule of
    [bind_drivers_pass]: for a descriptor that names a parent, the parent
    handed to the binder is the device in the parent's slot of the table
    [rt]; for any other descriptor it is [parent]. *)
Definition follows_parent_rule (cfg : dm_config) (tbl : dm_tables)
    (parent : option udevice) (rt : list (option udevice)) (e : event)
  : Prop :=
  match e with
  | Call_device_bind_by_name par _ idx _ =>
      exists entry,
        ll_driver_info tbl !! idx = Some entry
        /\ if uses_parent_slot cfg entry
           then exists pdev,
                  par = Some pdev
                  /\ (0 <= parent_idx entry)
                  /\ rt !! Z.to_nat (parent_idx entry) = Some (Some pdev)
           else par = parent
  | _ => True
  end.

(** Slot [i] of the runtime table holds a device. *)
Definition slot_filled (rt : list (option udevice)) (i : nat) : Prop :=
  exists d, rt !! i = Some (Some d).





(** An event that a probe walk may record: an entry, or the probe of a
    device that is to be probed itself. *)
Definition probe_event_ok (cfg : dm_config) (pre_reloc_only : bool)
    (e : event) : bool :=
  match e with
  | Enter_dm_probe_devices _ => true
  | Call_device_probe dev _ => probes_itself cfg pre_reloc_only dev
  | _ => false
  end.

(** A call of the binder of [lists_bind_fdt] under [parent], for one of
    the [nodes], which is enabled. *)
Definition binds_enabled_node (parent : option udevice) (nodes : list ofnode)
    (e : event) : Prop :=
  exists pos nm md nd r,
    e = Call_device_bind_with_driver_data parent pos nm md nd r
    /\ nd ∈ nodes /\ ofnode_is_enabled nd = true.

(** The restriction of [lists_bind_fdt] names a driver of the table that
    has no match table: that driver and its index. *)
Definition restricted_without_table (tbl : dm_tables) (drv : option nat)
  : option (nat * driver) :=
  match drv with
  | None => None
  | Some d =>
      match ll_driver tbl !! d with
      | Some entry =>
          match of_match entry with
          | None => Some (d, entry)
          | Some _ => None
          end
      | None => None
      end
  end.

(** The nodes that [dm_extended_scan] offers to the binder: the subnodes
    of the root node and of the nodes at the paths of [extended_nodes]. *)
Definition extended_scan_nodes (tbl : dm_tables) : list ofnode :=
  flat_map (fun pn => match pn with
                      | Some n => ofnode_subnodes n
                      | None => []
                      end)
           (ofnode_root tbl :: map (ofnode_path tbl) extended_nodes).

(** The events of the descriptor stage of [dm_scan]: the entry into a pass
    and the calls of the binder of [bind_drivers_pass]. *)
Definition is_plat_event (e : event) : bool :=
  is_enter_pass e || is_bind_by_name e.

(** * Properties *)

Ltac munfold :=
  unfold mbind, mret, gets, emit, on_world, set_dm_root, set_driver_rt in *.

(** ** The strings of a compatible property *)

Example compat_strings_two :
  compat_strings Board.two_compat = ["a,v2"; "g,foo"]%string.
Proof. reflexivity. Qed.

Example compat_strings_empty : compat_strings EmptyString = [].
Proof. reflexivity. Qed.

(** ** Teardown of the root *)

Section UninitProps.
Context {W : Type}.
Variable cfg : dm_config.
Variable ext : dm_externals W.

(** C10.  [dm_uninit] calls [device_remove] on the root with
    [DM_REMOVE_NON_VITAL], then, in the world that call left, with
    [DM_REMOVE_NORMAL], then [device_unbind] on the root in the world the
    second call left, and nothing else.  Whatever the three calls return,
    it clears the root handle and returns 0; the world it leaves is the
    one [device_unbind] left.  From the state it leaves (a second call)
    it does the same again, the three calls receiving what [dm_root()]
    gives there, NULL: it returns 0 and the root handle stays NULL. *)
Theorem dm_uninit_clears_root (s : global_data W) :
  let uninit (t : global_data W) :=
    let root := gd_dm_root t in
    let non_vital :=
      device_remove ext root (DM_REMOVE_NON_VITAL cfg) (gd_world t) in
    let normal :=
      device_remove ext root (DM_REMOVE_NORMAL cfg) (snd non_vital) in
    let unbound := device_unbind ext root (snd normal) in
    (0, {| gd_dm_root := None;
           gd_dm_driver_rt := gd_dm_driver_rt t;
           gd_world := snd unbound;
           gd_trace := gd_trace t ++
             [Call_device_remove root (DM_REMOVE_NON_VITAL cfg)
                                 (fst non_vital);
              Call_device_remove root (DM_REMOVE_NORMAL cfg) (fst normal);
              Call_device_unbind root (fst unbound)] |}) in
  dm_uninit cfg ext s = uninit s
  /\ gd_dm_root (snd (dm_uninit cfg ext s)) = None
  /\ dm_uninit cfg ext (snd (dm_uninit cfg ext s))
     = uninit (snd (uninit s))
  /\ fst (dm_uninit cfg ext (snd (dm_uninit cfg ext s))) = 0
  /\ gd_dm_root (snd (dm_uninit cfg ext (snd (dm_uninit cfg ext s)))) = None
  /\ exists r1 r2 r3,
       gd_trace (snd (dm_uninit cfg ext (snd (dm_uninit cfg ext s))))
       = gd_trace (snd (dm_uninit cfg ext s)) ++
           [Call_device_remove None (DM_REMOVE_NON_VITAL cfg) r1;
            Call_device_remove None (DM_REMOVE_NORMAL cfg) r2;
            Call_device_unbind None r3].
Proof.
  intros uninit.
  assert (Hgen : forall t : global_data W, dm_uninit cfg ext t = uninit t).
  { intros [root rt w tr].
    unfold uninit, dm_uninit, dm_root, call_device_remove, call_device_unbind.
    munfold. simpl.
    destruct (device_remove ext root (DM_REMOVE_NON_VITAL cfg) w)
      as [r1 w1]. simpl.
    destruct (device_remove ext root (DM_REMOVE_NORMAL cfg) w1)
      as [r2 w2]. simpl.
    destruct (device_unbind ext root w2) as [r3 w3]. simpl.
    rewrite <- !app_assoc. reflexivity. }
  rewrite !Hgen.
  split; [reflexivity |]. split; [reflexivity |].
  split; [reflexivity |]. split; [reflexivity |].
  split; [reflexivity |].
  unfold uninit. cbn [fst snd gd_dm_root gd_trace]. eauto.
Qed.
End UninitProps.

Example dm_uninit_twice :
  let s0 := Board.gd0 (Some Board.root_device) [] in
  let '(r1, s1) := dm_uninit (Board.cfg false false) Board.ext s0 in
  let '(r2, s2) := dm_uninit (Board.cfg false false) Board.ext s1 in
  r1 = 0 /\ r2 = 0 /\ gd_dm_root s1 = None /\ gd_dm_root s2 = None
  /\ gd_trace s2 =
       [Call_device_remove (Some Board.root_device) 8 0;
        Call_device_remove (Some Board.root_device) 1 0;
        Call_device_unbind (Some Board.root_device) 0;
        Call_device_remove None 8 (- EINVAL);
        Call_device_remove None 1 (- EINVAL);
        Call_device_unbind None (- EINVAL)].
Proof. vm_compute. repeat split. Qed.

(** ** Matching a node against the registry *)

Lemma of_match_scan_existsb (rows : list udevice_id) (c : string) :
  existsb (fun m => String.eqb (compatible m) c) rows
  = match of_match_scan rows c with Some _ => true | None => false end.
Proof.
  induction rows as [| m rows IH]; simpl; [reflexivity |].
  destruct (String.eqb (compatible m) c); simpl; [reflexivity | exact IH].
Qed.

Lemma of_match_scan_compatible (rows : list udevice_id) (c : string) m :
  of_match_scan rows c = Some m -> compatible m = c.
Proof.
  induction rows as [| m' rows IH]; simpl; [discriminate |].
  destruct (String.eqb (compatible m') c) eqn:E.
  - intros [= <-]. now apply String.eqb_eq.
  - exact IH.
Qed.

Lemma driver_check_compatible_matches (d : driver) (c : string) :
  driver_matches d c = (fst (driver_check_compatible (of_match d) c) =? 0).
Proof.
  unfold driver_matches, driver_check_compatible.
  destruct (of_match d) as [rows |]; [| reflexivity].
  rewrite of_match_scan_existsb.
  destruct (of_match_scan rows c); reflexivity.
Qed.

(** Without a restriction the inner loop runs to the end of the table
    exactly when no driver has a row for the string. *)
Lemma scan_drivers_unrestricted_None (entries : list driver) (pos : nat)
    (c : string) :
  scan_drivers entries pos None c = None
  <-> (forall d, d ∈ entries -> driver_matches d c = false).
Proof.
  revert pos. induction entries as [| e entries IH]; intros pos; simpl.
  - split; [intros _ d Hd; inversion Hd | reflexivity].
  - pose proof (driver_check_compatible_matches e c) as Hm.
    destruct (driver_check_compatible (of_match e) c) as [ret id].
    simpl in Hm. destruct (ret =? 0).
    + split; [discriminate |].
      intros H. specialize (H e (list_elem_of_here _ _)). congruence.
    + rewrite IH. split.
      * intros H d Hd. apply elem_of_cons in Hd as [-> | Hd]; auto.
      * intros H d Hd. apply H. now apply list_elem_of_further.
Qed.

(** Without a restriction the inner loop breaks at the first driver, in
    table order, that has a row for the string, with [id] at the first such
    row of its table. *)
Lemma scan_drivers_unrestricted_Some (entries : list driver) (pos : nat)
    (c : string) p e id :
  scan_drivers entries pos None c = Some (p, e, id) ->
  exists k rows m,
    p = (pos + k)%nat /\ entries !! k = Some e
    /\ of_match e = Some rows /\ of_match_scan rows c = Some m
    /\ id = Some m /\ driver_matches e c = true
    /\ (forall j e', (j < k)%nat -> entries !! j = Some e' ->
                     driver_matches e' c = false).
Proof.
  revert pos. induction entries as [| e0 entries IH]; intros pos; simpl;
    [discriminate |].
  pose proof (driver_check_compatible_matches e0 c) as Hm.
  unfold driver_check_compatible in *.
  destruct (of_match e0) as [rows |] eqn:Erows.
  - destruct (of_match_scan rows c) as [m |] eqn:Escan; simpl in *.
    + intros [= <- <- <-]. exists 0%nat, rows, m.
      repeat split; auto; try lia. all: try (intros; lia).
    + intros H. destruct (IH _ H) as (k & rows' & m & -> & Hk & Hr & Hs & Hid & Hd & Hlt).
      exists (S k), rows', m. repeat split; auto; try lia.
      intros [| j] e' Hj Hl; simpl in Hl.
      * now inversion Hl; subst.
      * apply (Hlt j); [lia | exact Hl].
  - simpl in *. intros H.
    destruct (IH _ H) as (k & rows' & m & -> & Hk & Hr & Hs & Hid & Hd & Hlt).
    exists (S k), rows', m. repeat split; auto; try lia.
    intros [| j] e' Hj Hl; simpl in Hl.
    + now inversion Hl; subst.
    + apply (Hlt j); [lia | exact Hl].
Qed.

(** With a restriction the inner loop looks at the restricted driver only:
    it runs to the end when that driver is not in the table, or has a
    table without a row for the string. *)
Lemma scan_drivers_restricted_None (entries : list driver) (pos d : nat)
    (c : string) :
  (forall e, (pos <= d)%nat -> entries !! (d - pos)%nat = Some e ->
             of_match e <> None /\ driver_matches e c = false) ->
  scan_drivers entries pos (Some d) c = None.
Proof.
  revert pos. induction entries as [| e0 entries IH]; intros pos H; simpl;
    [reflexivity |].
  destruct (Nat.eqb d pos) eqn:Edp; simpl.
  - apply Nat.eqb_eq in Edp. subst d.
    destruct (H e0) as [Hne Hm]; [lia | now rewrite Nat.sub_diag |].
    rewrite driver_check_compatible_matches in Hm.
    destruct (of_match e0) as [rows |] eqn:Er; [| congruence].
    destruct (driver_check_compatible (Some rows) c) as [ret id].
    simpl in Hm. rewrite Hm.
    apply IH. intros e Hle. lia.
  - apply Nat.eqb_neq in Edp. apply IH. intros e Hle Hl.
    apply H; [lia |].
    replace (d - pos)%nat with (S (d - S pos)) by lia. exact Hl.
Qed.

(** With a restriction to a driver of the table that has no match table,
    the inner loop breaks at that driver for any string, with [id] NULL. *)
Lemma scan_drivers_restricted_no_table (entries : list driver) (pos d : nat)
    (c : string) e :
  (pos <= d)%nat -> entries !! (d - pos)%nat = Some e -> of_match e = None ->
  scan_drivers entries pos (Some d) c = Some (d, e, None).
Proof.
  revert pos. induction entries as [| e0 entries IH]; intros pos Hle Hl Hn;
    simpl; [discriminate |].
  destruct (Nat.eqb d pos) eqn:Edp; simpl.
  - apply Nat.eqb_eq in Edp. subst d. rewrite Nat.sub_diag in Hl.
    simpl in Hl. inversion Hl; subst. rewrite Hn. reflexivity.
  - apply Nat.eqb_neq in Edp. apply IH; [lia | | exact Hn].
    replace (d - pos)%nat with (S (d - S pos)) in Hl by lia. exact Hl.
Qed.

(** ** The loop of [lists_bind_fdt] *)

Section BindFdtProps.
Context {W : Type}.
Variable cfg : dm_config.
Variable ext : dm_externals W.
Variable tbl : dm_tables.
Variable parent : option udevice.
Variable node : ofnode.
Variable drv : option nat.
Variable pre_reloc_only : bool.

Local Abbreviation loop := (bind_fdt_loop cfg ext tbl parent node drv pre_reloc_only).
Local Abbreviation arrives := (reaches cfg ext tbl parent node drv pre_reloc_only).
Local Abbreviation attempts := (refused_attempts tbl parent node drv).

Lemma call_bind_with_driver_data_eq pos entry name md s :
  call_device_bind_with_driver_data ext parent pos entry name md node s
  = let '(ret, dev, w) :=
        device_bind_with_driver_data ext parent entry name md node
                                     (gd_world s) in
    ((ret, dev),
     {| gd_dm_root := gd_dm_root s; gd_dm_driver_rt := gd_dm_driver_rt s;
        gd_world := w;
        gd_trace := gd_trace s ++
          [Call_device_bind_with_driver_data parent pos name md node ret] |}).
Proof.
  unfold call_device_bind_with_driver_data. munfold.
  destruct (device_bind_with_driver_data ext parent entry name md node
                                         (gd_world s)) as [[ret dev] w].
  reflexivity.
Qed.

(** One turn of the loop, by what the inner loop found. *)
Lemma loop_cons_no_match c cs s :
  scan_drivers (ll_driver tbl) 0 drv c = None ->
  loop (c :: cs) s = loop cs s.
Proof. intros H. simpl. rewrite H. reflexivity. Qed.

Lemma loop_cons_skip c cs s pos entry id :
  scan_drivers (ll_driver tbl) 0 drv c = Some (pos, entry, id) ->
  pre_reloc_skip cfg node pre_reloc_only entry = true ->
  loop (c :: cs) s = ((0, None), s).
Proof.
  intros H Hs. simpl. rewrite H. unfold pre_reloc_skip in Hs.
  rewrite Hs. reflexivity.
Qed.

Lemma loop_cons_bind c cs s pos entry id ret dev s1 :
  scan_drivers (ll_driver tbl) 0 drv c = Some (pos, entry, id) ->
  pre_reloc_skip cfg node pre_reloc_only entry = false ->
  call_device_bind_with_driver_data ext parent pos entry
    (ofnode_get_name node) (match_data_of id) node s = ((ret, dev), s1) ->
  loop (c :: cs) s =
    if ret =? - ENODEV then loop cs s1
    else if negb (ret =? 0) then ((ret, None), s1)
    else ((0, dev), s1).
Proof.
  intros H Hs Hc. simpl. rewrite H. unfold pre_reloc_skip in Hs.
  rewrite Hs. unfold mbind at 1. unfold match_data_of in Hc. rewrite Hc.
  destruct (ret =? - ENODEV); [reflexivity |].
  destruct (ret =? 0); reflexivity.
Qed.

Lemma loop_no_match cs s :
  (forall c, c ∈ cs -> scan_drivers (ll_driver tbl) 0 drv c = None) ->
  loop cs s = ((0, None), s).
Proof.
  induction cs as [| c cs IH]; intros H; [reflexivity |].
  rewrite loop_cons_no_match by (apply H; left).
  apply IH. intros c' Hc'. apply H. now right.
Qed.

(** From where the loop arrives it goes on as if started there. *)
Lemma loop_reaches cs s cs' s' :
  arrives cs s cs' s' -> loop cs s = loop cs' s'.
Proof.
  induction 1 as [| c cs s cs' s' Hscan _ IH
                  | c cs s pos entry id dev s1 cs' s' Hscan Hskip Hcall _ IH].
  - reflexivity.
  - rewrite loop_cons_no_match by exact Hscan. exact IH.
  - rewrite (loop_cons_bind _ _ _ _ _ _ _ _ _ Hscan Hskip Hcall).
    simpl. exact IH.
Qed.

(** On the way the loop has only made calls that were refused, one for
    each string behind it that had a driver. *)
Lemma reaches_trace cs s cs' s' :
  arrives cs s cs' s' ->
  exists done, cs = done ++ cs'
    /\ gd_trace s' = gd_trace s ++ attempts done
    /\ gd_dm_root s' = gd_dm_root s
    /\ gd_dm_driver_rt s' = gd_dm_driver_rt s.
Proof.
  induction 1 as [| c cs s cs' s' Hscan _ IH
                  | c cs s pos entry id dev s1 cs' s' Hscan Hskip Hcall _ IH].
  - exists []. simpl. rewrite app_nil_r. auto.
  - destruct IH as (done & -> & Ht & Hr & Hrt).
    exists (c :: done). unfold refused_attempts in *. simpl.
    rewrite Hscan. simpl. auto.
  - destruct IH as (done & -> & Ht & Hr & Hrt).
    exists (c :: done). unfold refused_attempts in *. simpl.
    rewrite Hscan. simpl.
    rewrite call_bind_with_driver_data_eq in Hcall.
    destruct (device_bind_with_driver_data ext parent entry
                (ofnode_get_name node) (match_data_of id) node (gd_world s))
      as [[r d] w].
    inversion Hcall; subst. simpl in *.
    rewrite Ht, <- app_assoc. auto.
Qed.

Lemma reaches_no_match_same cs s cs' s' :
  arrives cs s cs' s' ->
  (forall done, cs = done ++ cs' ->
     forall c, c ∈ done -> scan_drivers (ll_driver tbl) 0 drv c = None) ->
  s' = s.
Proof.
  induction 1 as [| c cs s cs' s' Hscan Hr IH
                  | c cs s pos entry id dev s1 cs' s' Hscan Hskip Hcall Hr IH];
    intros Hall.
  - reflexivity.
  - apply IH. intros done -> c' Hc'.
    apply (Hall (c :: done)); [reflexivity | now right].
  - destruct (reaches_trace _ _ _ _ Hr) as (done & -> & _).
    specialize (Hall (c :: done) eq_refl c (list_elem_of_here _ _)).
    congruence.
Qed.

(** The loop only adds to the trace. *)
Lemma loop_trace_extends cs : forall s,
  exists evs, gd_trace (snd (loop cs s)) = gd_trace s ++ evs.
Proof.
  induction cs as [| c cs IH]; intros s.
  - exists []. simpl. now rewrite app_nil_r.
  - destruct (scan_drivers (ll_driver tbl) 0 drv c) as [[[pos entry] id] |]
      eqn:Hscan.
    + destruct (pre_reloc_skip cfg node pre_reloc_only entry) eqn:Hskip.
      * rewrite (loop_cons_skip _ _ _ _ _ _ Hscan Hskip).
        exists []. simpl. now rewrite app_nil_r.
      * destruct (call_device_bind_with_driver_data ext parent pos entry
                    (ofnode_get_name node) (match_data_of id) node s)
          as [[ret dev] s1] eqn:Hcall.
        rewrite (loop_cons_bind _ _ _ _ _ _ _ _ _ Hscan Hskip Hcall).
        assert (Ht : exists e, gd_trace s1 = gd_trace s ++ [e]).
        { rewrite call_bind_with_driver_data_eq in Hcall.
          destruct (device_bind_with_driver_data ext parent entry
                      (ofnode_get_name node) (match_data_of id) node
                      (gd_world s)) as [[r d] w].
          inversion Hcall; subst. simpl. eauto. }
        destruct Ht as [e Ht].
        destruct (ret =? - ENODEV).
        -- destruct (IH s1) as [evs Hevs]. exists (e :: evs).
           rewrite Hevs, Ht, <- app_assoc. reflexivity.
        -- destruct (negb (ret =? 0)); exists [e]; exact Ht.
    + rewrite (loop_cons_no_match _ _ _ Hscan). apply IH.
Qed.
End BindFdtProps.

(** ** [lists_bind_fdt]: nodes that get no device *)

Section BindFdtClaims.
Context {W : Type}.
Variable cfg : dm_config.
Variable ext : dm_externals W.
Variable tbl : dm_tables.

Lemma no_driver_for_scan (drv : option nat) (c : string) :
  no_driver_for tbl drv c = true ->
  scan_drivers (ll_driver tbl) 0 drv c = None.
Proof.
  unfold no_driver_for. destruct drv as [d |].
  - intros H. apply scan_drivers_restricted_None.
    intros e _. rewrite Nat.sub_0_r. intros Hl. rewrite Hl in H.
    destruct (of_match e); [| discriminate].
    split; [discriminate |]. now apply negb_true_iff in H.
  - intros H. apply scan_drivers_unrestricted_None.
    intros d Hd. rewrite forallb_forall in H.
    apply negb_true_iff, H. now apply list_elem_of_In.
Qed.

Lemma restricted_without_table_Some (drv : option nat) (d : nat)
    (entry : driver) :
  restricted_without_table tbl drv = Some (d, entry) ->
  drv = Some d /\ ll_driver tbl !! d = Some entry /\ of_match entry = None.
Proof.
  unfold restricted_without_table. destruct drv as [i |]; [| discriminate].
  destruct (ll_driver tbl !! i) as [e |] eqn:El; [| discriminate].
  destruct (of_match e) eqn:Em; [discriminate |].
  intros [= <- <-]. auto.
Qed.

(** When no driver of the table has a row for the string, the inner loop
    runs to the end of the table, unless the restriction names a driver
    of the table that has no match table. *)
Lemma no_registered_driver_scan (drv : option nat) (c : string) :
  restricted_without_table tbl drv = None ->
  no_driver_for tbl None c = true ->
  scan_drivers (ll_driver tbl) 0 drv c = None.
Proof.
  intros Hr Hnone. destruct drv as [d |]; [| now apply no_driver_for_scan].
  apply scan_drivers_restricted_None.
  intros e _. rewrite Nat.sub_0_r. intros Hl.
  unfold restricted_without_table in Hr. rewrite Hl in Hr.
  destruct (of_match e) as [rows |] eqn:Em; [| discriminate Hr].
  split; [discriminate |].
  unfold no_driver_for in Hnone. rewrite forallb_forall in Hnone.
  apply negb_true_iff, Hnone.
  apply list_elem_of_In. eapply list_elem_of_lookup_2. exact Hl.
Qed.

(** C9, as the code has it.  When the node has no [compatible] property,
    and when no driver of the table has a row for any string of its
    [compatible] property, [lists_bind_fdt] returns 0, leaves [*devp] NULL
    and changes nothing: it calls no binder, so no device is created.
    There is one exception: a restriction that names a driver of the
    table without a match table.  That driver is taken for the first
    string of the property although it matches none: unless the
    pre-relocation test skips the node, the first thing [lists_bind_fdt]
    does is to call [device_bind_with_driver_data] for it with match data
    0, and when that call returns 0 the function returns 0 with the new
    device in [*devp]. *)
Theorem lists_bind_fdt_no_match (parent : option udevice) (node : ofnode)
    (drv : option nat) (pre_reloc_only : bool) (s : global_data W) :
  (ofnode_get_property node = Prop_err (- FDT_ERR_NOTFOUND)
   \/ exists bytes, ofnode_get_property node = Prop_data bytes
        /\ forallb (no_driver_for tbl None) (compat_strings bytes) = true) ->
  let out := lists_bind_fdt cfg ext tbl parent node drv pre_reloc_only s in
  match restricted_without_table tbl drv, property_strings node with
  | Some (d, entry), c :: _ =>
      if pre_reloc_skip cfg node pre_reloc_only entry
      then out = ((0, None), s)
      else
        let '(ret, dev, w1) :=
          device_bind_with_driver_data ext parent entry
            (ofnode_get_name node) 0 node (gd_world s) in
        let call :=
          Call_device_bind_with_driver_data parent d (ofnode_get_name node)
                                            0 node ret in
        (exists evs, gd_trace (snd out) = gd_trace s ++ call :: evs)
        /\ (ret = 0 ->
            out = ((0, dev),
                   {| gd_dm_root := gd_dm_root s;
                      gd_dm_driver_rt := gd_dm_driver_rt s;
                      gd_world := w1;
                      gd_trace := gd_trace s ++ [call] |}))
  | _, _ => out = ((0, None), s)
  end.
Proof.
  intros Hnode. cbv zeta. unfold lists_bind_fdt, property_strings.
  destruct Hnode as [-> | (bytes & -> & Hall)].
  { change (- FDT_ERR_NOTFOUND =? - FDT_ERR_NOTFOUND) with true. cbv iota.
    destruct (restricted_without_table tbl drv) as [[d entry] |];
      reflexivity. }
  destruct (restricted_without_table tbl drv) as [[d entry] |] eqn:Hr.
  - apply restricted_without_table_Some in Hr as (-> & Hl & Hnone).
    destruct (compat_strings bytes) as [| c rest]; [reflexivity |].
    assert (Hscan : scan_drivers (ll_driver tbl) 0 (Some d) c
                    = Some (d, entry, None)).
    { apply scan_drivers_restricted_no_table; [lia | | exact Hnone].
      now rewrite Nat.sub_0_r. }
    destruct (pre_reloc_skip cfg node pre_reloc_only entry) eqn:Hskip.
    + apply (loop_cons_skip _ _ _ _ _ _ _ _ _ _ _ _ _ Hscan Hskip).
    + destruct (device_bind_with_driver_data ext parent entry
                  (ofnode_get_name node) 0 node (gd_world s))
        as [[ret dev] w1] eqn:Hbind.
      cbv zeta.
      pose proof (call_bind_with_driver_data_eq ext parent node d entry
                    (ofnode_get_name node) 0 s) as Hcall.
      rewrite Hbind in Hcall.
      rewrite (loop_cons_bind _ _ _ _ _ _ _ _ _ _ _ _ _ _ _ _
                 Hscan Hskip Hcall).
      split.
      * destruct (ret =? - ENODEV).
        -- match goal with
           |- context [bind_fdt_loop ?a ?b ?c ?p ?n ?dr ?pr ?cs ?st] =>
             destruct (loop_trace_extends a b c p n dr pr cs st)
               as [evs Hevs]
           end.
           exists evs. rewrite Hevs. simpl. rewrite <- app_assoc.
           reflexivity.
        -- destruct (negb (ret =? 0)); exists []; reflexivity.
      * intros ->. reflexivity.
  - assert (Hout : bind_fdt_loop cfg ext tbl parent node drv pre_reloc_only
                     (compat_strings bytes) s = ((0, None), s)).
    { apply loop_no_match. intros c Hc.
      apply no_registered_driver_scan; [exact Hr |].
      rewrite forallb_forall in Hall. apply Hall. now apply list_elem_of_In. }
    destruct (compat_strings bytes); exact Hout.
Qed.

(** C8.  With [pre_reloc_only] set and a node that is not marked for
    pre-relocation: when the loop of [lists_bind_fdt] arrives at a string
    for which a driver is found, and that driver does not carry
    [DM_FLAG_PRE_RELOC], the function returns 0 at once with [*devp] NULL
    and binds nothing there.  The calls made before were all refused
    ([-ENODEV]), so no device was bound; when the string is the first one
    that has a driver, nothing was called at all. *)
Theorem lists_bind_fdt_pre_reloc_skip (parent : option udevice) (node : ofnode)
    (drv : option nat) (s s' : global_data W) (bytes c : string)
    (post : list string) (pos : nat) (entry : driver)
    (id : option udevice_id) :
  ofnode_pre_reloc node = false ->
  ofnode_get_property node = Prop_data bytes ->
  reaches cfg ext tbl parent node drv true (compat_strings bytes) s
          (c :: post) s' ->
  scan_drivers (ll_driver tbl) 0 drv c = Some (pos, entry, id) ->
  Z.land (drv_flags entry) (DM_FLAG_PRE_RELOC cfg) = 0 ->
  lists_bind_fdt cfg ext tbl parent node drv true s = ((0, None), s')
  /\ exists done,
       compat_strings bytes = done ++ c :: post
       /\ gd_trace s' = gd_trace s ++ refused_attempts tbl parent node drv done
       /\ gd_dm_root s' = gd_dm_root s
       /\ gd_dm_driver_rt s' = gd_dm_driver_rt s
       /\ (forallb (no_driver_for tbl drv) done = true -> s' = s).
Proof.
  intros Hnode Hprop Hreach Hscan Hflag.
  split.
  - unfold lists_bind_fdt. rewrite Hprop.
    rewrite (loop_reaches _ _ _ _ _ _ _ _ _ _ _ Hreach).
    apply (loop_cons_skip _ _ _ _ _ _ _ _ _ _ _ _ _ Hscan).
    unfold pre_reloc_skip. rewrite Hnode, Hflag. reflexivity.
  - destruct (reaches_trace _ _ _ _ _ _ _ _ _ _ _ Hreach)
      as (done & Hsplit & Ht & Hr & Hrt).
    exists done. repeat split; auto.
    intros Hall.
    apply (reaches_no_match_same _ _ _ _ _ _ _ _ _ _ _ Hreach).
    intros done' Hsplit' c' Hc'.
    rewrite Hsplit in Hsplit'. apply app_inv_tail in Hsplit'. subst done'.
    apply no_driver_for_scan. rewrite forallb_forall in Hall.
    apply Hall. now apply list_elem_of_In.
Qed.

(** C7, as the code has it.  With a restriction to a driver of the table
    that has no match table, and a node whose [compatible] property holds
    at least one string, the restricted driver is taken for the first
    string without looking at any match table: unless the pre-relocation
    test skips the node, the first thing [lists_bind_fdt] does is to call
    [device_bind_with_driver_data] for that driver with match data 0, and
    when that call returns 0 the function returns 0 with the new device in
    [*devp]. *)
Theorem lists_bind_fdt_restricted_no_table (parent : option udevice)
    (node : ofnode) (d : nat) (entry : driver) (pre_reloc_only : bool)
    (s : global_data W) (bytes c : string) (rest : list string) :
  ll_driver tbl !! d = Some entry ->
  of_match entry = None ->
  ofnode_get_property node = Prop_data bytes ->
  compat_strings bytes = c :: rest ->
  pre_reloc_skip cfg node pre_reloc_only entry = false ->
  let '(ret, dev, w1) :=
    device_bind_with_driver_data ext parent entry (ofnode_get_name node) 0
                                 node (gd_world s) in
  let call :=
    Call_device_bind_with_driver_data parent d (ofnode_get_name node) 0
                                      node ret in
  let out := lists_bind_fdt cfg ext tbl parent node (Some d) pre_reloc_only s in
  (exists evs, gd_trace (snd out) = gd_trace s ++ call :: evs)
  /\ (ret = 0 ->
      out = ((0, dev),
             {| gd_dm_root := gd_dm_root s;
                gd_dm_driver_rt := gd_dm_driver_rt s;
                gd_world := w1;
                gd_trace := gd_trace s ++ [call] |})).
Proof.
  intros Hl Hnone Hprop Hcs Hskip.
  destruct (device_bind_with_driver_data ext parent entry
              (ofnode_get_name node) 0 node (gd_world s))
    as [[ret dev] w1] eqn:Hbind.
  cbv zeta.
  assert (Hscan : scan_drivers (ll_driver tbl) 0 (Some d) c
                  = Some (d, entry, None)).
  { apply scan_drivers_restricted_no_table; [lia | | exact Hnone].
    now rewrite Nat.sub_0_r. }
  pose proof (call_bind_with_driver_data_eq ext parent node d entry
                (ofnode_get_name node) 0 s) as Hcall.
  rewrite Hbind in Hcall.
  unfold lists_bind_fdt. rewrite Hprop, Hcs.
  rewrite (loop_cons_bind _ _ _ _ _ _ _ _ _ _ _ _ _ _ _ _ Hscan Hskip Hcall).
  split.
  - destruct (ret =? - ENODEV).
    + match goal with |- context [bind_fdt_loop ?a ?b ?c ?p ?n ?dr ?pr ?cs ?st] =>
        destruct (loop_trace_extends a b c p n dr pr cs st) as [evs Hevs] end.
      exists evs. rewrite Hevs. simpl. rewrite <- app_assoc. reflexivity.
    + destruct (negb (ret =? 0)); exists []; reflexivity.
  - intros ->. reflexivity.
Qed.
End BindFdtClaims.

Lemma lists_bind_fdt_no_match_witness :
  forallb (no_driver_for (Board.fdt_tables Board.drivers_other) None)
          (compat_strings Board.two_compat) = true
  /\ lists_bind_fdt (Board.cfg false false) Board.ext
       (Board.fdt_tables Board.drivers_other) (Some Board.root_device)
       Board.serial_node None false (Board.gd0 (Some Board.root_device) [])
     = ((0, None), Board.gd0 (Some Board.root_device) []).
Proof.
  split; [reflexivity |].
  apply (lists_bind_fdt_no_match (Board.cfg false false) Board.ext
           (Board.fdt_tables Board.drivers_other) (Some Board.root_device)
           Board.serial_node None false).
  right. exists Board.two_compat. split; reflexivity.
Defined.

(** C9, as stated, fails: no driver of the table has a row for a string of
    the node, and restricted to the driver "gpio", which has no match
    table, [lists_bind_fdt] binds a device for the node. *)
Lemma lists_bind_fdt_no_match_counterexample :
  ~ (forall (W : Type) (cfg : dm_config) (ext : dm_externals W)
            (tbl : dm_tables) (parent : option udevice) (node : ofnode)
            (drv : option nat) (pre_reloc_only : bool) (s : global_data W)
            (bytes : string),
        ofnode_get_property node = Prop_data bytes ->
        forallb (no_driver_for tbl None) (compat_strings bytes) = true ->
        let out := lists_bind_fdt cfg ext tbl parent node drv
                                  pre_reloc_only s in
        fst (fst out) = 0 /\ snd (fst out) = None).
Proof.
  intros H.
  destruct (H (list string) (Board.cfg false false) Board.ext
              (Board.fdt_tables Board.drivers_plain)
              (Some Board.root_device) Board.serial_node (Some 0%nat) false
              (Board.gd0 (Some Board.root_device) []) Board.two_compat
              eq_refl eq_refl) as [_ Hdev].
  vm_compute in Hdev. discriminate Hdev.
Qed.

Example lists_bind_fdt_no_compatible :
  lists_bind_fdt (Board.cfg false false) Board.ext
    (Board.fdt_tables Board.drivers_AB) None
    (Ofnode "memory" true false (Prop_err (-1)) []) None false
    (Board.gd0 None [])
  = ((0, None), Board.gd0 None []).
Proof. reflexivity. Qed.

(** The first string finds the driver "shy", which carries the flag and
    refuses; the second finds "generic", which does not carry it. *)
Lemma lists_bind_fdt_pre_reloc_skip_witness :
  let s0 := Board.gd0 (Some Board.root_device) [] in
  let tbl := Board.fdt_tables Board.drivers_shy in
  exists s1,
    lists_bind_fdt (Board.cfg false false) Board.ext tbl
      (Some Board.root_device) Board.serial_node None true s0
    = ((0, None), s1)
    /\ gd_trace s1 =
         [Call_device_bind_with_driver_data (Some Board.root_device) 0
            "serial" 7 Board.serial_node (- ENODEV)].
Proof.
  intros s0 tbl.
  pose (s1 := {| gd_dm_root := Some Board.root_device;
                 gd_dm_driver_rt := [];
                 gd_world := @nil string;
                 gd_trace :=
                   [Call_device_bind_with_driver_data (Some Board.root_device)
                      0 "serial" 7 Board.serial_node (- ENODEV)] |}).
  exists s1. split; [| reflexivity].
  refine (proj1 (lists_bind_fdt_pre_reloc_skip (Board.cfg false false)
                   Board.ext tbl (Some Board.root_device) Board.serial_node
                   None s0 s1 Board.two_compat "g,foo" [] 1%nat
                   (Board.match_driver "generic" "g,foo" 0)
                   (Some {| compatible := "g,foo"; data := 7 |})
                   eq_refl eq_refl _ eq_refl eq_refl)).
  change (compat_strings Board.two_compat) with ["a,v2"; "g,foo"]%string.
  eapply reaches_refused with (s1 := s1);
    [reflexivity | reflexivity | reflexivity | apply reaches_here].
Defined.

Lemma lists_bind_fdt_restricted_no_table_witness :
  let s0 := Board.gd0 (Some Board.root_device) [] in
  let call := Call_device_bind_with_driver_data (Some Board.root_device) 0
                "serial" 0 Board.serial_node 0 in
  lists_bind_fdt (Board.cfg false false) Board.ext
    (Board.fdt_tables Board.drivers_plain) (Some Board.root_device)
    Board.serial_node (Some 0%nat) false s0
  = ((0, Some (Board.new_device "serial" (Board.plain_driver "gpio")
                                (Some Board.serial_node))),
     {| gd_dm_root := Some Board.root_device; gd_dm_driver_rt := [];
        gd_world := ["serial"%string]; gd_trace := [call] |}).
Proof.
  intros s0 call.
  exact (proj2 (lists_bind_fdt_restricted_no_table (Board.cfg false false)
                  Board.ext (Board.fdt_tables Board.drivers_plain)
                  (Some Board.root_device) Board.serial_node 0%nat
                  (Board.plain_driver "gpio") false s0 Board.two_compat
                  "a,v2" ["g,foo"%string]
                  eq_refl eq_refl eq_refl eq_refl eq_refl) eq_refl).
Defined.

(** C7, as stated, fails: restricted to the driver "gpio", which has no
    match table, [lists_bind_fdt] binds a device for the node. *)
Lemma lists_bind_fdt_restricted_no_table_counterexample :
  ~ (forall (W : Type) (cfg : dm_config) (ext : dm_externals W)
            (tbl : dm_tables) (parent : option udevice) (node : ofnode)
            (d : nat) (entry : driver) (pre_reloc_only : bool)
            (s : global_data W),
        ll_driver tbl !! d = Some entry ->
        of_match entry = None ->
        let out := lists_bind_fdt cfg ext tbl parent node (Some d)
                                  pre_reloc_only s in
        snd (fst out) = None
        /\ filter (fun e => is_bind_with_driver_data e = true)
                  (gd_trace (snd out))
           = filter (fun e => is_bind_with_driver_data e = true) (gd_trace s)).
Proof.
  intros H.
  specialize (H (list string) (Board.cfg false false) Board.ext
                (Board.fdt_tables Board.drivers_plain)
                (Some Board.root_device) Board.serial_node 0%nat
                (Board.plain_driver "gpio") false
                (Board.gd0 (Some Board.root_device) []) eq_refl eq_refl).
  destruct H as [H _]. vm_compute in H. discriminate H.
Qed.

(** ** [lists_bind_fdt]: which driver is bound *)

Lemma first_matching_driver_scan (entries : list driver) (pos : nat)
    (c : string) :
  first_matching_driver entries pos c
  = match scan_drivers entries pos None c with
    | Some (p, _, _) => Some p
    | None => None
    end.
Proof.
  revert pos. induction entries as [| e entries IH]; intros pos; simpl;
    [reflexivity |].
  rewrite driver_check_compatible_matches.
  destruct (driver_check_compatible (of_match e) c) as [ret id]. simpl.
  destruct (ret =? 0); [reflexivity | apply IH].
Qed.

Section BindFdtChoice.
Context {W : Type}.
Variable cfg : dm_config.
Variable ext : dm_externals W.
Variable tbl : dm_tables.
Variable parent : option udevice.
Variable node : ofnode.

(** A run of the loop that ends with a device has come to a string for
    which a driver was found, has handed that driver to the binder, and
    the binder has returned 0 with the device. *)
Lemma loop_bound (drv : option nat) (pre_reloc_only : bool)
    (cs : list string) :
  forall (s s' : global_data W) (r : Z) (dev : udevice),
  bind_fdt_loop cfg ext tbl parent node drv pre_reloc_only cs s
  = ((r, Some dev), s') ->
  exists c post pos entry id s1,
    reaches cfg ext tbl parent node drv pre_reloc_only cs s (c :: post) s1
    /\ scan_drivers (ll_driver tbl) 0 drv c = Some (pos, entry, id)
    /\ pre_reloc_skip cfg node pre_reloc_only entry = false
    /\ r = 0
    /\ device_bind_with_driver_data ext parent entry (ofnode_get_name node)
         (match_data_of id) node (gd_world s1)
       = (0, Some dev, gd_world s')
    /\ gd_dm_root s' = gd_dm_root s1
    /\ gd_dm_driver_rt s' = gd_dm_driver_rt s1
    /\ gd_trace s' = gd_trace s1
         ++ [Call_device_bind_with_driver_data parent pos
               (ofnode_get_name node) (match_data_of id) node 0].
Proof.
  induction cs as [| c cs IH]; intros s s' r dev Hrun.
  - discriminate Hrun.
  - destruct (scan_drivers (ll_driver tbl) 0 drv c) as [[[pos entry] id] |]
      eqn:Hscan.
    + destruct (pre_reloc_skip cfg node pre_reloc_only entry) eqn:Hskip.
      * rewrite (loop_cons_skip _ _ _ _ _ _ _ _ _ _ _ _ _ Hscan Hskip) in Hrun.
        discriminate Hrun.
      * destruct (call_device_bind_with_driver_data ext parent pos entry
                    (ofnode_get_name node) (match_data_of id) node s)
          as [[ret dev0] s1] eqn:Hcall.
        rewrite (loop_cons_bind _ _ _ _ _ _ _ _ _ _ _ _ _ _ _ _
                   Hscan Hskip Hcall) in Hrun.
        destruct (ret =? - ENODEV) eqn:Hrefused.
        -- apply Z.eqb_eq in Hrefused. subst ret.
           destruct (IH _ _ _ _ Hrun)
             as (c1 & post & p1 & e1 & id1 & s2 & Hreach & Hrest).
           exists c1, post, p1, e1, id1, s2. split; [| exact Hrest].
           eapply reaches_refused; eauto.
        -- destruct (ret =? 0) eqn:Hok; simpl in Hrun; [| discriminate Hrun].
           apply Z.eqb_eq in Hok. subst ret.
           inversion Hrun; subst.
           exists c, cs, pos, entry, id, s.
           split; [apply reaches_here |].
           rewrite call_bind_with_driver_data_eq in Hcall.
           destruct (device_bind_with_driver_data ext parent entry
                       (ofnode_get_name node) (match_data_of id) node
                       (gd_world s)) as [[r0 d0] w].
           inversion Hcall; subst. simpl. repeat split; auto.
    + rewrite (loop_cons_no_match _ _ _ _ _ _ _ _ _ _ Hscan) in Hrun.
      destruct (IH _ _ _ _ Hrun)
        as (c1 & post & p1 & e1 & id1 & s2 & Hreach & Hrest).
      exists c1, post, p1, e1, id1, s2. split; [| exact Hrest].
      now apply reaches_no_match.
Qed.

(** On the way to a string, the loop has found no driver for a string, or
    has handed the driver found to the binder and got [-ENODEV]. *)
Lemma reaches_refusals (drv : option nat) (pre_reloc_only : bool)
    (cs : list string) (s : global_data W) (cs' : list string)
    (s' : global_data W) :
  reaches cfg ext tbl parent node drv pre_reloc_only cs s cs' s' ->
  exists done,
    cs = done ++ cs'
    /\ Forall (fun c =>
         scan_drivers (ll_driver tbl) 0 drv c = None
         \/ exists pos entry id w,
              scan_drivers (ll_driver tbl) 0 drv c = Some (pos, entry, id)
              /\ fst (fst (device_bind_with_driver_data ext parent entry
                             (ofnode_get_name node) (match_data_of id) node
                             w)) = - ENODEV) done.
Proof.
  induction 1 as [| c cs s cs' s' Hscan _ IH
                  | c cs s pos entry id dev s1 cs' s' Hscan Hskip Hcall _ IH].
  - exists []. split; [reflexivity | constructor].
  - destruct IH as (done & -> & Hall). exists (c :: done).
    split; [reflexivity |]. constructor; [now left | exact Hall].
  - destruct IH as (done & -> & Hall). exists (c :: done).
    split; [reflexivity |]. constructor; [| exact Hall].
    right. exists pos, entry, id, (gd_world s). split; [exact Hscan |].
    rewrite call_bind_with_driver_data_eq in Hcall.
    destruct (device_bind_with_driver_data ext parent entry
                (ofnode_get_name node) (match_data_of id) node (gd_world s))
      as [[r0 d0] w].
    now inversion Hcall.
Qed.

Lemma refused_attempts_nil (drv : option nat) (done : list string) :
  refused_attempts tbl parent node drv done = [] ->
  forall c, c ∈ done -> scan_drivers (ll_driver tbl) 0 drv c = None.
Proof.
  unfold refused_attempts.
  induction done as [| c0 done IH]; simpl; intros H c Hc.
  - inversion Hc.
  - destruct (scan_drivers (ll_driver tbl) 0 drv c0) as [[[p e] i] |] eqn:E;
      [discriminate H |].
    apply elem_of_cons in Hc as [-> | Hc]; [exact E | now apply IH].
Qed.

Lemma spec_chosen_driver_app (done : list string) (c : string)
    (post : list string) :
  (forall c', c' ∈ done -> scan_drivers (ll_driver tbl) 0 None c' = None) ->
  spec_chosen_driver (ll_driver tbl) (done ++ c :: post)
  = spec_chosen_driver (ll_driver tbl) (c :: post).
Proof.
  induction done as [| c0 done IH]; intros H; [reflexivity |].
  simpl. rewrite first_matching_driver_scan.
  rewrite (H c0 (list_elem_of_here _ _)).
  apply IH. intros c' Hc'. apply H. now right.
Qed.

(** C1, as the code has it.  When [lists_bind_fdt], without a restriction,
    ends with a device, that device is the one [device_bind_with_driver_data]
    gave for the driver [entry], which is the first driver, in table order,
    whose match table has a row for a string [c] of the [compatible]
    property; the match data handed over is that of the first such row.
    [c] is the first string, in order of priority, whose driver did not
    refuse: for every string before it, either no driver has a row for it,
    or the first driver that has one was handed to the binder and the
    binder returned [-ENODEV].  The trace holds these refused calls in
    order and then the call that bound.  When no call was refused, the
    binder was called in the world [lists_bind_fdt] was called in, and
    the driver is the one the specification names. *)
Theorem lists_bind_fdt_driver_choice (pre_reloc_only : bool)
    (s s' : global_data W) (r : Z) (dev : udevice) :
  lists_bind_fdt cfg ext tbl parent node None pre_reloc_only s
  = ((r, Some dev), s') ->
  exists bytes done c post pos entry rows m s1,
    ofnode_get_property node = Prop_data bytes
    /\ compat_strings bytes = done ++ c :: post
    /\ ll_driver tbl !! pos = Some entry
    /\ of_match entry = Some rows
    /\ of_match_scan rows c = Some m
    /\ (forall j e, (j < pos)%nat -> ll_driver tbl !! j = Some e ->
                    driver_matches e c = false)
    /\ r = 0
    /\ reaches cfg ext tbl parent node None pre_reloc_only
               (compat_strings bytes) s (c :: post) s1
    /\ Forall (fun c' =>
         scan_drivers (ll_driver tbl) 0 None c' = None
         \/ exists pos' entry' id' w,
              scan_drivers (ll_driver tbl) 0 None c' = Some (pos', entry', id')
              /\ fst (fst (device_bind_with_driver_data ext parent entry'
                             (ofnode_get_name node) (match_data_of id') node
                             w)) = - ENODEV) done
    /\ gd_trace s1 = gd_trace s ++ refused_attempts tbl parent node None done
    /\ device_bind_with_driver_data ext parent entry (ofnode_get_name node)
         (data m) node (gd_world s1)
       = (0, Some dev, gd_world s')
    /\ gd_dm_root s' = gd_dm_root s
    /\ gd_dm_driver_rt s' = gd_dm_driver_rt s
    /\ gd_trace s' = gd_trace s
         ++ refused_attempts tbl parent node None done
         ++ [Call_device_bind_with_driver_data parent pos
               (ofnode_get_name node) (data m) node 0]
    /\ (refused_attempts tbl parent node None done = [] ->
        s1 = s
        /\ spec_chosen_driver (ll_driver tbl) (compat_strings bytes)
           = Some pos).
Proof.
  unfold lists_bind_fdt. intros Hrun.
  destruct (ofnode_get_property node) as [bytes | len].
  - destruct (loop_bound _ _ _ _ _ _ _ Hrun)
      as (c & post & pos & entry & id & s1 & Hreach & Hscan & Hskip & ->
          & Hbind & Hroot & Hrt & Ht).
    destruct (scan_drivers_unrestricted_Some _ _ _ _ _ _ Hscan)
      as (k & rows & m & Hpos & Hk & Hrows & Hm & -> & Hd & Hlt).
    simpl in Hpos. subst k. simpl in Hbind, Ht.
    destruct (reaches_trace _ _ _ _ _ _ _ _ _ _ _ Hreach)
      as (done & Hsplit & Ht1 & Hr1 & Hrt1).
    destruct (reaches_refusals _ _ _ _ _ _ Hreach) as (done' & Hsplit' & Hall).
    assert (done' = done).
    { rewrite Hsplit in Hsplit'. now apply app_inv_tail in Hsplit'. }
    subst done'.
    exists bytes, done, c, post, pos, entry, rows, m, s1.
    rewrite Hroot, Hrt, Ht, Ht1, Hr1, Hrt1, <- app_assoc.
    repeat split; auto.
    + apply (reaches_no_match_same _ _ _ _ _ _ _ _ _ _ _ Hreach).
      intros d0 Hd0 c' Hc'.
      rewrite Hsplit in Hd0. apply app_inv_tail in Hd0. subst d0.
      now apply (refused_attempts_nil None done).
    + rewrite Hsplit.
      rewrite spec_chosen_driver_app
        by (apply (refused_attempts_nil None); assumption).
      simpl. rewrite first_matching_driver_scan, Hscan. reflexivity.
  - destruct (len =? - FDT_ERR_NOTFOUND); discriminate Hrun.
Qed.
End BindFdtChoice.

(** Scenario 3 of the specification: B is bound, for the string of higher
    priority, though A, earlier in the table, matches the other string. *)
Lemma lists_bind_fdt_driver_choice_witness :
  let s0 := Board.gd0 (Some Board.root_device) [] in
  let B := Board.match_driver "B" "a,v2" 0 in
  let dev := Board.new_device "serial" B (Some Board.serial_node) in
  exists s',
    lists_bind_fdt (Board.cfg false false) Board.ext
      (Board.fdt_tables Board.drivers_AB) (Some Board.root_device)
      Board.serial_node None false s0
    = ((0, Some dev), s')
    /\ Board.drivers_AB !! 1%nat = Some B
    /\ Board.bind_with_driver_data (Some Board.root_device) B "serial" 7
                                   Board.serial_node (gd_world s0)
       = (0, Some dev, gd_world s')
    /\ gd_trace s' = [Call_device_bind_with_driver_data
                        (Some Board.root_device) 1 "serial" 7
                        Board.serial_node 0]
    /\ spec_chosen_driver Board.drivers_AB (compat_strings Board.two_compat)
       = Some 1%nat.
Proof.
  intros s0 B dev. eexists. split; [reflexivity |].
  destruct (lists_bind_fdt_driver_choice (Board.cfg false false) Board.ext
              (Board.fdt_tables Board.drivers_AB) (Some Board.root_device)
              Board.serial_node false s0 _ 0 dev eq_refl)
    as (bytes & done & c & post & pos & entry & rows & m & s1 & _).
  repeat split; reflexivity.
Defined.

(** C1, as stated, fails: the driver for the string of higher priority
    refuses to bind, and the node is bound with the driver of the string
    of lower priority, not with the one the specification names. *)
Lemma lists_bind_fdt_driver_choice_counterexample :
  ~ (forall (W : Type) (cfg : dm_config) (ext : dm_externals W)
            (tbl : dm_tables) (parent : option udevice) (node : ofnode)
            (pre_reloc_only : bool) (s s' : global_data W) (r : Z)
            (dev : udevice) (bytes : string),
        lists_bind_fdt cfg ext tbl parent node None pre_reloc_only s
        = ((r, Some dev), s') ->
        ofnode_get_property node = Prop_data bytes ->
        exists pos name md,
          spec_chosen_driver (ll_driver tbl) (compat_strings bytes) = Some pos
          /\ last (gd_trace s')
             = Some (Call_device_bind_with_driver_data parent pos name md
                                                       node 0)).
Proof.
  intros H.
  destruct (H (list string) (Board.cfg false false) Board.ext
              (Board.fdt_tables Board.drivers_shy) (Some Board.root_device)
              Board.serial_node false (Board.gd0 (Some Board.root_device) [])
              _ _ _ Board.two_compat eq_refl eq_refl)
    as (pos & name & md & Hspec & Hlast).
  vm_compute in Hspec. vm_compute in Hlast.
  inversion Hspec; subst pos. inversion Hlast.
Qed.

(** ** The extended scan *)

Section ExtendedScanProps.
Context {W : Type}.
Variable cfg : dm_config.
Variable ext : dm_externals W.
Variable tbl : dm_tables.
Variable pre_reloc_only : bool.

Lemma extended_scan_loop_ok (done rest : list string)
    (s s1 : global_data W) :
  scanned_ok cfg ext tbl pre_reloc_only done s s1 ->
  extended_scan_loop cfg ext tbl (done ++ rest) pre_reloc_only 0 s
  = extended_scan_loop cfg ext tbl rest pre_reloc_only 0 s1.
Proof.
  induction 1 as [| path paths s s1 s' Hscan _ IH]; [reflexivity |].
  simpl. unfold mbind at 1. rewrite Hscan. simpl. exact IH.
Qed.

(** C3, as the code has it.  [dm_extended_scan] scans the root level, then
    [/chosen], [/clocks] and [/firmware] in this order, and stops at the
    first scan that returns an error: it returns that error in the state
    that scan left, so the paths after it are not scanned.  When no scan
    fails, all are scanned and the result is 0. *)
Theorem dm_extended_scan_first_error (s s0 : global_data W) (r0 : Z) :
  dm_scan_fdt cfg ext tbl pre_reloc_only s = (r0, s0) ->
  (r0 <> 0 -> dm_extended_scan cfg ext tbl pre_reloc_only s = (r0, s0))
  /\ (r0 = 0 ->
      forall done path rest s1 r s2,
        extended_nodes = done ++ path :: rest ->
        scanned_ok cfg ext tbl pre_reloc_only done s0 s1 ->
        dm_scan_fdt_ofnode_path cfg ext tbl path pre_reloc_only s1 = (r, s2) ->
        r <> 0 ->
        dm_extended_scan cfg ext tbl pre_reloc_only s = (r, s2))
  /\ (r0 = 0 ->
      forall s1,
        scanned_ok cfg ext tbl pre_reloc_only extended_nodes s0 s1 ->
        dm_extended_scan cfg ext tbl pre_reloc_only s = (0, s1)).
Proof.
  intros Hroot.
  assert (Hrun : dm_extended_scan cfg ext tbl pre_reloc_only s
                 = if negb (r0 =? 0) then (r0, s0)
                   else extended_scan_loop cfg ext tbl extended_nodes
                                           pre_reloc_only r0 s0).
  { unfold dm_extended_scan, mbind. rewrite Hroot.
    destruct (negb (r0 =? 0)); reflexivity. }
  rewrite Hrun. clear Hrun.
  split; [| split].
  - intros Hne. apply Z.eqb_neq in Hne. rewrite Hne. reflexivity.
  - intros -> done path rest s1 r s2 Hsplit Hok Hscan Hne.
    change (negb (0 =? 0)) with false. cbv iota. rewrite Hsplit.
    rewrite (extended_scan_loop_ok _ _ _ _ Hok).
    simpl. unfold mbind at 1. rewrite Hscan.
    apply Z.eqb_neq in Hne. rewrite Hne. reflexivity.
  - intros -> s1 Hok. change (negb (0 =? 0)) with false. cbv iota.
    rewrite <- (app_nil_r extended_nodes).
    rewrite (extended_scan_loop_ok _ _ _ _ Hok). reflexivity.
Qed.
End ExtendedScanProps.

(** The root level fails with [-EINVAL]: the node of [/chosen] is not
    bound. *)
Lemma dm_extended_scan_first_error_witness :
  let s := Board.gd0 (Some Board.root_device) [] in
  exists s0,
    dm_scan_fdt (Board.cfg false false) Board.ext Board.scan_tables false s
    = (- EINVAL, s0)
    /\ dm_extended_scan (Board.cfg false false) Board.ext Board.scan_tables
                        false s = (- EINVAL, s0)
    /\ gd_trace s0 = [Call_device_bind_with_driver_data
                        (Some Board.root_device) 0 "bad" 7 Board.bad_node
                        (- EINVAL)].
Proof.
  intros s. eexists. split; [reflexivity |]. split; [| reflexivity].
  refine (proj1 (dm_extended_scan_first_error (Board.cfg false false)
                   Board.ext Board.scan_tables false s _ (- EINVAL) eq_refl) _).
  discriminate.
Defined.

Example dm_extended_scan_all_ok :
  let s := Board.gd0 (Some Board.root_device) [] in
  let out := dm_extended_scan (Board.cfg false false) Board.ext
                              Board.scan_tables_ok false s in
  fst out = 0
  /\ gd_trace (snd out) = [Call_device_bind_with_driver_data
                             (Some Board.root_device) 1 "fb" 7 Board.fb_node 0].
Proof. vm_compute. split; reflexivity. Qed.

(** [/chosen] fails with [-EINVAL]: the node of [/clocks] is not bound. *)
Example dm_extended_scan_aux_error :
  let s := Board.gd0 (Some Board.root_device) [] in
  let out := dm_extended_scan (Board.cfg false false) Board.ext
                              Board.scan_tables_aux false s in
  fst out = - EINVAL
  /\ gd_trace (snd out) = [Call_device_bind_with_driver_data
                             (Some Board.root_device) 0 "bad" 7
                             Board.bad_node (- EINVAL)].
Proof. vm_compute. split; reflexivity. Qed.

(** C3, as stated, fails: the specification's scan goes on to [/chosen]
    after the error at the root level and binds its node; the code
    does not. *)
Lemma dm_extended_scan_first_error_counterexample :
  ~ (forall (W : Type) (cfg : dm_config) (ext : dm_externals W)
            (tbl : dm_tables) (pre_reloc_only : bool) (s : global_data W),
        dm_extended_scan cfg ext tbl pre_reloc_only s
        = extended_scan_as_specified cfg ext tbl pre_reloc_only s).
Proof.
  intros H.
  specialize (H (list string) (Board.cfg false false) Board.ext
                Board.scan_tables false
                (Board.gd0 (Some Board.root_device) [])).
  vm_compute in H. discriminate H.
Qed.

(** ** The probe walk *)

Section ProbeProps.
Context {W : Type}.
Variable cfg : dm_config.
Variable ext : dm_externals W.
Variable pre_reloc_only : bool.

Local Abbreviation walk := (dm_probe_devices cfg ext).
Local Abbreviation loop fuel :=
  (probe_children ext (fun c => dm_probe_devices cfg ext fuel c pre_reloc_only)).

Lemma call_device_probe_eq (dev : udevice) (s : global_data W) :
  call_device_probe ext dev s
  = (fst (device_probe ext dev (gd_world s)),
     {| gd_dm_root := gd_dm_root s; gd_dm_driver_rt := gd_dm_driver_rt s;
        gd_world := snd (device_probe ext dev (gd_world s));
        gd_trace := gd_trace s ++
          [Call_device_probe dev (fst (device_probe ext dev (gd_world s)))] |}).
Proof.
  unfold call_device_probe. munfold.
  destruct (device_probe ext dev (gd_world s)) as [r w]. reflexivity.
Qed.

(** One turn of the loop over the children: the walk of the child, then
    the entry after it, whatever the walk returned. *)
Lemma probe_children_step (body : udevice -> M W (option Z)) (n : nat)
    (dev c : udevice) (s : global_data W) :
  probe_children ext body (S n) dev (Some c) s
  = match fst (body c s) with
    | None => (false, snd (body c s))
    | Some _ =>
        probe_children ext body n dev
          (list_next_child ext dev c (gd_world (snd (body c s))))
          (snd (body c s))
    end.
Proof.
  simpl. unfold mbind at 1. destruct (body c s) as [[ret |] s1]; reflexivity.
Qed.

(** One call of [dm_probe_devices], by whether it probes the device. *)
Lemma dm_probe_devices_run (fuel : nat) (dev : udevice) (s : global_data W) :
  let r := fst (device_probe ext dev (gd_world s)) in
  let s0 := {| gd_dm_root := gd_dm_root s;
               gd_dm_driver_rt := gd_dm_driver_rt s;
               gd_world := gd_world s;
               gd_trace := gd_trace s ++ [Enter_dm_probe_devices dev] |} in
  let s1 := {| gd_dm_root := gd_dm_root s;
               gd_dm_driver_rt := gd_dm_driver_rt s;
               gd_world := snd (device_probe ext dev (gd_world s));
               gd_trace := gd_trace s ++
                 [Enter_dm_probe_devices dev; Call_device_probe dev r] |} in
  let children t :=
    let out := loop fuel fuel dev (list_first_child ext dev (gd_world t)) t in
    (if fst out then Some 0 else None, snd out) in
  walk (S fuel) dev pre_reloc_only s
  = if probes_itself cfg pre_reloc_only dev
    then if r =? 0 then children s1 else (Some r, s1)
    else children s0.
Proof.
  intros r s0 s1 children.
  assert (Hch : forall t,
    (do first <- gets (fun u => list_first_child ext dev (gd_world u)) ;;
     do ended <- loop fuel fuel dev first ;;
     mret (if ended then Some 0 else None)) t
    = children t).
  { intros t. unfold mbind, gets, mret, children. cbv zeta.
    destruct (loop fuel fuel dev (list_first_child ext dev (gd_world t)) t)
      as [ended t1].
    reflexivity. }
  change (walk (S fuel) dev pre_reloc_only s)
    with ((run emit (Enter_dm_probe_devices dev) ;;
           if skip_pre_reloc cfg dev pre_reloc_only then
             do first <- gets (fun u => list_first_child ext dev (gd_world u)) ;;
             do ended <- loop fuel fuel dev first ;;
             mret (if ended then Some 0 else None)
           else if negb (Z.land (dev_get_flags dev)
                                (DM_FLAG_PROBE_AFTER_BIND cfg) =? 0) then
             do ret <- call_device_probe ext dev ;;
             if negb (ret =? 0) then mret (Some ret)
             else
               do first <- gets (fun u =>
                 list_first_child ext dev (gd_world u)) ;;
               do ended <- loop fuel fuel dev first ;;
               mret (if ended then Some 0 else None)
           else
             do first <- gets (fun u => list_first_child ext dev (gd_world u)) ;;
             do ended <- loop fuel fuel dev first ;;
             mret (if ended then Some 0 else None)) s).
  unfold probes_itself, mbind at 1, emit. fold s0.
  destruct (skip_pre_reloc cfg dev pre_reloc_only); simpl; [apply Hch |].
  destruct (negb (Z.land (dev_get_flags dev)
                         (DM_FLAG_PROBE_AFTER_BIND cfg) =? 0)); simpl;
    [| apply Hch].
  unfold mbind at 1. rewrite call_device_probe_eq.
  change (gd_world s0) with (gd_world s). fold r.
  assert (Hs1 : {| gd_dm_root := gd_dm_root s0;
                   gd_dm_driver_rt := gd_dm_driver_rt s0;
                   gd_world := snd (device_probe ext dev (gd_world s));
                   gd_trace := gd_trace s0 ++ [Call_device_probe dev r] |}
                = s1).
  { unfold s1, s0. simpl. rewrite <- app_assoc. reflexivity. }
  rewrite Hs1. destruct (r =? 0); simpl; [apply Hch | reflexivity].
Qed.

(** What a walk adds to the trace: entries and probes of devices that are
    to be probed, the entry into the device first.  It leaves the root
    handle and the runtime table alone. *)
Lemma dm_probe_devices_frame (fuel : nat) :
  forall (dev : udevice) (s : global_data W),
  exists evs,
    gd_trace (snd (walk fuel dev pre_reloc_only s)) = gd_trace s ++ evs
    /\ Forall (fun e => probe_event_ok cfg pre_reloc_only e = true) evs
    /\ gd_dm_root (snd (walk fuel dev pre_reloc_only s)) = gd_dm_root s
    /\ gd_dm_driver_rt (snd (walk fuel dev pre_reloc_only s))
       = gd_dm_driver_rt s
    /\ (fst (walk fuel dev pre_reloc_only s) <> None ->
        exists rest, evs = Enter_dm_probe_devices dev :: rest).
Proof.
  induction fuel as [| fuel IH]; intros dev s.
  { exists []. simpl. rewrite app_nil_r. repeat split; auto.
    intros H. now contradiction H. }
  assert (Hloop : forall (n : nat) (child : option udevice)
                         (t : global_data W),
    exists evs,
      gd_trace (snd (loop fuel n dev child t)) = gd_trace t ++ evs
      /\ Forall (fun e => probe_event_ok cfg pre_reloc_only e = true) evs
      /\ gd_dm_root (snd (loop fuel n dev child t)) = gd_dm_root t
      /\ gd_dm_driver_rt (snd (loop fuel n dev child t)) = gd_dm_driver_rt t).
  { induction n as [| n IHn]; intros child t.
    - exists []. destruct child; simpl; rewrite app_nil_r; auto.
    - destruct child as [c |];
        [| exists []; simpl; rewrite app_nil_r; auto].
      rewrite probe_children_step.
      destruct (IH c t) as (e1 & H1 & F1 & R1 & T1 & _).
      destruct (walk fuel c pre_reloc_only t) as [[ret |] t1];
        cbn [fst snd] in *.
      + destruct (IHn (list_next_child ext dev c (gd_world t1)) t1)
          as (e2 & H2 & F2 & R2 & T2).
        exists (e1 ++ e2). rewrite H2, H1, R2, R1, T2, T1, <- app_assoc.
        repeat split; auto. apply Forall_app. auto.
      + exists e1. auto. }
  rewrite dm_probe_devices_run. cbv zeta.
  destruct (probes_itself cfg pre_reloc_only dev) eqn:Hp.
  - destruct (fst (device_probe ext dev (gd_world s)) =? 0).
    + match goal with |- context [loop fuel fuel dev ?ch ?t] =>
        destruct (Hloop fuel ch t) as (evs & Ht & Hall & Hr & Hrt)
      end.
      cbn [fst snd]. cbn [gd_trace gd_dm_root gd_dm_driver_rt] in Ht, Hr, Hrt.
      exists (Enter_dm_probe_devices dev
              :: Call_device_probe dev
                   (fst (device_probe ext dev (gd_world s))) :: evs).
      rewrite Ht, Hr, Hrt, <- app_assoc. repeat split; auto.
      all: try (intros _; eexists; reflexivity).
    + cbn [fst snd]. eexists. split; [reflexivity |].
      repeat split; auto.
      all: try (intros _; eexists; reflexivity).
  - match goal with |- context [loop fuel fuel dev ?ch ?t] =>
      destruct (Hloop fuel ch t) as (evs & Ht & Hall & Hr & Hrt)
    end.
    cbn [fst snd]. cbn [gd_trace gd_dm_root gd_dm_driver_rt] in Ht, Hr, Hrt.
    exists (Enter_dm_probe_devices dev :: evs).
    rewrite Ht, Hr, Hrt, <- app_assoc. repeat split; auto.
    all: try (intros _; eexists; reflexivity).
Qed.


End ProbeProps.

Section ProbeClaims.
Context {W : Type}.
Variable cfg : dm_config.
Variable ext : dm_externals W.
Variable pre_reloc_only : bool.

End ProbeClaims.


(** The probe of "hub" binds "port": the walk enters "port", which was not
    in the list of "hub" when the walk came to "hub". *)
Example dm_probe_devices_bound_by_probe :
  list_first_child Board.ext_hotplug Board.hub [] = None
  /\ dm_probe_devices (Board.cfg false false) Board.ext_hotplug 2 Board.hub
                      false (Board.gd0 None [])
     = (Some 0,
        {| gd_dm_root := None; gd_dm_driver_rt := [];
           gd_world := ["hub"; "port"]%string;
           gd_trace := [Enter_dm_probe_devices Board.hub;
                        Call_device_probe Board.hub 0;
                        Enter_dm_probe_devices Board.port;
                        Call_device_probe Board.port 0] |}).
Proof. split; reflexivity. Qed.


(** ** One pass over the static descriptors *)

Section PassProps.
Context {W : Type}.
Variable cfg : dm_config.
Variable ext : dm_externals W.
Variable tbl : dm_tables.
Variable parent : option udevice.
Variable pre_reloc_only : bool.

Lemma bind_entry_eq (par : option udevice) (idx : nat) (entry : driver_info)
    (result : Z) (missing_parent : bool) (s : global_data W) :
  bind_entry cfg ext par pre_reloc_only idx entry result missing_parent s
  = let '(ret, dev, w) :=
        device_bind_by_name ext par pre_reloc_only entry (gd_world s) in
    let tr := gd_trace s ++
                [Call_device_bind_by_name par pre_reloc_only idx ret] in
    if ret =? 0 then
      ((result, missing_parent),
       {| gd_dm_root := gd_dm_root s;
          gd_dm_driver_rt :=
            if OF_PLATDATA cfg then <[idx := dev]> (gd_dm_driver_rt s)
            else gd_dm_driver_rt s;
          gd_world := w; gd_trace := tr |})
    else
      ((if negb (ret =? - EPERM) then record_error result ret else result,
        missing_parent),
       {| gd_dm_root := gd_dm_root s; gd_dm_driver_rt := gd_dm_driver_rt s;
          gd_world := w; gd_trace := tr |}).
Proof.
  unfold bind_entry, call_device_bind_by_name, record_error. munfold.
  destruct (device_bind_by_name ext par pre_reloc_only entry (gd_world s))
    as [[ret dev] w]. simpl.
  destruct (ret =? 0).
  - destruct (OF_PLATDATA cfg); reflexivity.
  - destruct (negb (ret =? - EPERM)); reflexivity.
Qed.

Lemma driver_rt_dev_nat (rt : list (option udevice)) (idx : nat) :
  driver_rt_dev rt (Z.of_nat idx)
  = match rt !! idx with Some d => d | None => None end.
Proof.
  unfold driver_rt_dev.
  destruct (Z.of_nat idx <? 0) eqn:E; [apply Z.ltb_lt in E; lia |].
  now rewrite Nat2Z.id.
Qed.

(** The three ways through the loop body: the descriptor is skipped
    because its slot is filled, it is skipped because its parent is not
    bound yet, or it is bound under some parent. *)
Lemma bind_drivers_body_cases (idx : nat) (entry : driver_info) (result : Z)
    (missing_parent : bool) (s : global_data W) :
  let body := bind_drivers_body cfg ext parent pre_reloc_only idx entry
                                result missing_parent s in
  (OF_PLATDATA cfg = true
   /\ (exists d, gd_dm_driver_rt s !! idx = Some (Some d))
   /\ body = ((result, missing_parent), s))
  \/ (OF_PLATDATA cfg = true
      /\ driver_rt_dev (gd_dm_driver_rt s) (Z.of_nat idx) = None
      /\ body = ((result, true), s))
  \/ ((OF_PLATDATA cfg = true ->
       driver_rt_dev (gd_dm_driver_rt s) (Z.of_nat idx) = None)
      /\ exists par,
           body = bind_entry cfg ext par pre_reloc_only idx entry
                             result missing_parent s).
Proof.
  intros body.
  assert (Hb : body =
    if OF_PLATDATA cfg then
      match driver_rt_dev (gd_dm_driver_rt s) (Z.of_nat idx) with
      | Some _ => ((result, missing_parent), s)
      | None =>
          if OF_PLATDATA_PARENT cfg && negb (parent_idx entry =? -1) then
            match driver_rt_dev (gd_dm_driver_rt s) (parent_idx entry) with
            | None => ((result, true), s)
            | Some pdev =>
                bind_entry cfg ext (Some pdev) pre_reloc_only idx entry
                           result missing_parent s
            end
          else bind_entry cfg ext parent pre_reloc_only idx entry
                          result missing_parent s
      end
    else bind_entry cfg ext parent pre_reloc_only idx entry
                    result missing_parent s).
  { unfold body, bind_drivers_body, mbind, gets, mret.
    destruct (OF_PLATDATA cfg); [| reflexivity].
    destruct (driver_rt_dev (gd_dm_driver_rt s) (Z.of_nat idx));
      [reflexivity |].
    destruct (OF_PLATDATA_PARENT cfg && negb (parent_idx entry =? -1));
      [| reflexivity].
    destruct (driver_rt_dev (gd_dm_driver_rt s) (parent_idx entry));
      reflexivity. }
  rewrite Hb. clear Hb body.
  destruct (OF_PLATDATA cfg) eqn:Hof.
  - destruct (driver_rt_dev (gd_dm_driver_rt s) (Z.of_nat idx)) as [d |] eqn:Hd.
    + left. split; [reflexivity |]. split; [| reflexivity].
      rewrite driver_rt_dev_nat in Hd.
      destruct (gd_dm_driver_rt s !! idx) as [o |]; [| discriminate].
      subst o. eauto.
    + destruct (OF_PLATDATA_PARENT cfg && negb (parent_idx entry =? -1)).
      * destruct (driver_rt_dev (gd_dm_driver_rt s) (parent_idx entry))
          as [pdev |].
        -- right. right. split; [reflexivity |].
           exists (Some pdev). reflexivity.
        -- right. left. repeat split; auto.
      * right. right. split; [reflexivity |].
        exists parent. reflexivity.
  - right. right. split; [discriminate |]. exists parent. reflexivity.
Qed.
End PassProps.

Lemma pass_errors_app (e1 e2 : list event) :
  pass_errors (e1 ++ e2) = pass_errors e1 ++ pass_errors e2.
Proof. unfold pass_errors. apply flat_map_app. Qed.

Lemma pass_errors_nonzero (evs : list event) :
  Forall (fun e => e <> 0) (pass_errors evs).
Proof.
  induction evs as [| e evs IH]; [constructor |].
  change (e :: evs) with ([e] ++ evs). rewrite pass_errors_app.
  apply Forall_app. split; [| exact IH].
  destruct e as [par pre idx ret | | | | | |]; simpl; try constructor.
  destruct (ret =? 0) eqn:E0; simpl; [constructor |].
  destruct (ret =? - EPERM); constructor; [| constructor].
  now apply Z.eqb_neq in E0.
Qed.

(** What the updates of [result] over a pass come to: the last error other
    than [-ENOENT] when there is one; else the value on entry when that is
    not 0; else [-ENOENT] when there was an error, and 0 when not. *)
Lemma fold_record_error (errs : list Z) : forall result,
  Forall (fun e => e <> 0) errs ->
  fold_left record_error errs result
  = match last (other_errors errs) with
    | Some e => e
    | None =>
        if result =? 0
        then match errs with [] => 0 | _ :: _ => - ENOENT end
        else result
    end.
Proof.
  induction errs as [| e errs IH]; intros result Hnz; simpl.
  - destruct (result =? 0) eqn:E; [now apply Z.eqb_eq in E | reflexivity].
  - inversion Hnz as [| ? ? He Hrest]; subst.
    rewrite (IH _ Hrest). unfold record_error.
    unfold other_errors in *. simpl.
    destruct (e =? - ENOENT) eqn:Ee; simpl.
    + apply Z.eqb_eq in Ee. subst e.
      destruct (last (List.filter (fun e => negb (e =? - ENOENT)) errs));
        [reflexivity |].
      rewrite orb_false_r.
      destruct (result =? 0) eqn:Er; [reflexivity |]. now rewrite Er.
    + rewrite orb_true_r, last_cons.
      destruct (last (List.filter (fun e => negb (e =? - ENOENT)) errs));
        [reflexivity |].
      apply Z.eqb_neq in He. now rewrite He.
Qed.

Section PassLoopProps.
Context {W : Type}.
Variable cfg : dm_config.
Variable ext : dm_externals W.
Variable tbl : dm_tables.
Variable parent : option udevice.
Variable pre_reloc_only : bool.

Local Abbreviation pass_loop :=
  (bind_drivers_loop cfg ext parent pre_reloc_only).

Lemma bind_drivers_loop_cons (entry : driver_info)
    (entries : list driver_info) (idx : nat) (result : Z)
    (missing_parent : bool) (s : global_data W) :
  pass_loop (entry :: entries) idx result missing_parent s
  = let b := bind_drivers_body cfg ext parent pre_reloc_only idx entry
                               result missing_parent s in
    pass_loop entries (S idx) (fst (fst b)) (snd (fst b)) (snd b).
Proof.
  simpl. unfold mbind.
  destruct (bind_drivers_body cfg ext parent pre_reloc_only idx entry
                              result missing_parent s) as [[r m] s1].
  reflexivity.
Qed.

(** The loop of a pass adds only calls of the binder to the trace, and its
    [result] is the fold of [record_error] over the errors of these
    calls. *)
Lemma bind_drivers_loop_trace (entries : list driver_info) :
  forall (idx : nat) (result : Z) (missing_parent : bool) (s : global_data W),
  exists evs,
    gd_trace (snd (pass_loop entries idx result missing_parent s))
    = gd_trace s ++ evs
    /\ Forall (fun e => is_bind_by_name e = true) evs
    /\ fst (fst (pass_loop entries idx result missing_parent s))
       = fold_left record_error (pass_errors evs) result
    /\ gd_dm_root (snd (pass_loop entries idx result missing_parent s))
       = gd_dm_root s.
Proof.
  induction entries as [| entry entries IH]; intros idx result mp s.
  - exists []. simpl. rewrite app_nil_r. auto.
  - rewrite bind_drivers_loop_cons. cbv zeta.
    destruct (bind_drivers_body_cases cfg ext parent pre_reloc_only idx entry
                result mp s)
      as [(_ & _ & Hb) | [(_ & _ & Hb) | (_ & par & Hb)]]; rewrite Hb.
    + apply IH.
    + apply IH.
    + rewrite bind_entry_eq.
      destruct (device_bind_by_name ext par pre_reloc_only entry (gd_world s))
        as [[ret dev] w]. cbv zeta.
      destruct (ret =? 0) eqn:E0; cbn [fst snd].
      * match goal with |- context [pass_loop entries (S idx) result mp ?t] =>
          destruct (IH (S idx) result mp t) as (evs & Ht & Hall & Hres & Hroot)
        end.
        exists (Call_device_bind_by_name par pre_reloc_only idx ret :: evs).
        simpl in Ht, Hroot.
        rewrite Ht, Hres, <- app_assoc.
        repeat split; auto.
        change (Call_device_bind_by_name par pre_reloc_only idx ret :: evs)
          with ([Call_device_bind_by_name par pre_reloc_only idx ret] ++ evs).
        rewrite pass_errors_app. simpl. rewrite E0. reflexivity.
      * match goal with |- context [pass_loop entries (S idx) ?r mp ?t] =>
          destruct (IH (S idx) r mp t) as (evs & Ht & Hall & Hres & Hroot)
        end.
        exists (Call_device_bind_by_name par pre_reloc_only idx ret :: evs).
        simpl in Ht, Hroot.
        rewrite Ht, Hres, <- app_assoc.
        repeat split; auto.
        change (Call_device_bind_by_name par pre_reloc_only idx ret :: evs)
          with ([Call_device_bind_by_name par pre_reloc_only idx ret] ++ evs).
        rewrite pass_errors_app. simpl. rewrite E0. simpl.
        destruct (ret =? - EPERM); reflexivity.
Qed.

(** [bind_drivers_pass], from its loop. *)
Lemma bind_drivers_pass_eq (s : global_data W) :
  bind_drivers_pass cfg ext tbl parent pre_reloc_only s
  = let s0 := {| gd_dm_root := gd_dm_root s;
                 gd_dm_driver_rt := gd_dm_driver_rt s;
                 gd_world := gd_world s;
                 gd_trace := gd_trace s ++ [Enter_bind_drivers_pass] |} in
    let out := pass_loop (ll_driver_info tbl) 0%nat 0 false s0 in
    (if negb (fst (fst out) =? 0) then fst (fst out)
     else if snd (fst out) then - EAGAIN else 0,
     snd out).
Proof.
  unfold bind_drivers_pass, mbind, emit, mret. cbv zeta.
  match goal with |- context [bind_drivers_loop cfg ext parent pre_reloc_only
                                ?es ?i ?r ?m ?t] =>
    destruct (bind_drivers_loop cfg ext parent pre_reloc_only es i r m t)
      as [[result mp] s1]
  end.
  reflexivity.
Qed.

(** A pass enters once and then only calls the binder. *)
Lemma bind_drivers_pass_trace (s : global_data W) :
  exists evs,
    gd_trace (snd (bind_drivers_pass cfg ext tbl parent pre_reloc_only s))
    = gd_trace s ++ Enter_bind_drivers_pass :: evs
    /\ Forall (fun e => is_bind_by_name e = true) evs
    /\ (fold_left record_error (pass_errors evs) 0 <> 0 ->
        fst (bind_drivers_pass cfg ext tbl parent pre_reloc_only s)
        = fold_left record_error (pass_errors evs) 0)
    /\ (fold_left record_error (pass_errors evs) 0 = 0 ->
        fst (bind_drivers_pass cfg ext tbl parent pre_reloc_only s) = 0
        \/ fst (bind_drivers_pass cfg ext tbl parent pre_reloc_only s)
           = - EAGAIN)
    /\ gd_dm_root (snd (bind_drivers_pass cfg ext tbl parent pre_reloc_only s))
       = gd_dm_root s.
Proof.
  rewrite bind_drivers_pass_eq. cbv zeta.
  match goal with |- context [pass_loop ?es ?i ?r ?m ?t] =>
    destruct (bind_drivers_loop_trace es i r m t)
      as (evs & Ht & Hall & Hres & Hroot)
  end.
  exists evs. cbn [fst snd]. rewrite Ht, Hres, Hroot. simpl.
  rewrite <- app_assoc.
  repeat split; auto.
  - intros Hne. apply Z.eqb_neq in Hne. now rewrite Hne.
  - intros Hz. rewrite Hz. simpl.
    match goal with |- context [if ?b then _ else _] => destruct b end; auto.
Qed.
End PassLoopProps.

Section PassClaims.
Context {W : Type}.
Variable cfg : dm_config.
Variable ext : dm_externals W.
Variable tbl : dm_tables.
Variable parent : option udevice.
Variable pre_reloc_only : bool.

Local Abbreviation pass := (bind_drivers_pass cfg ext tbl parent pre_reloc_only).

(** C4, as the code has it.  The value a pass returns is fixed by the
    errors of its binds (the return values other than 0 and [-EPERM]), in
    the order of the descriptors: when some error is not [-ENOENT], it is
    the last such error; else, when there is an error, it is [-ENOENT];
    else it is 0 or [-EAGAIN]. *)
Theorem bind_drivers_pass_error (s : global_data W) :
  exists evs,
    gd_trace (snd (pass s)) = gd_trace s ++ Enter_bind_drivers_pass :: evs
    /\ match last (other_errors (pass_errors evs)), pass_errors evs with
       | Some e, _ => fst (pass s) = e
       | None, [] => fst (pass s) = 0 \/ fst (pass s) = - EAGAIN
       | None, _ :: _ => fst (pass s) = - ENOENT
       end.
Proof.
  destruct (bind_drivers_pass_trace cfg ext tbl parent pre_reloc_only s)
    as (evs & Ht & _ & Hne & Hz & _).
  exists evs. split; [exact Ht |].
  pose proof (pass_errors_nonzero evs) as Hnz.
  rewrite (fold_record_error _ 0 Hnz) in Hne, Hz.
  change (0 =? 0) with true in Hne, Hz. cbv iota in Hne, Hz.
  destruct (last (other_errors (pass_errors evs))) as [e |] eqn:Hlast.
  - apply Hne. intros ->.
    apply last_Some_elem_of in Hlast. unfold other_errors in Hlast.
    apply list_elem_of_In, filter_In in Hlast. destruct Hlast as [Hin _].
    rewrite Forall_forall in Hnz.
    apply (Hnz 0); [now apply list_elem_of_In | reflexivity].
  - destruct (pass_errors evs); [apply Hz; reflexivity |].
    apply Hne. discriminate.
Qed.
End PassClaims.

Example bind_drivers_pass_last_error :
  fst (bind_drivers_pass (Board.cfg false false) Board.ext
         (Board.info_tables Board.infos_two_errors) None false
         (Board.gd0 None [])) = - EINVAL.
Proof. reflexivity. Qed.

Example bind_drivers_pass_absent :
  fst (bind_drivers_pass (Board.cfg false false) Board.ext
         (Board.info_tables Board.infos_absent) None false
         (Board.gd0 None [])) = - ENOMEM
  /\ fst (bind_drivers_pass (Board.cfg false false) Board.ext
            (Board.info_tables [Board.info "absent"; Board.info "uart"])
            None false (Board.gd0 None [])) = - ENOENT.
Proof. split; reflexivity. Qed.

(** C4, as stated, fails: two descriptors fail with [-ENOMEM] and then
    [-EINVAL]; the pass returns the second error, not the first. *)
Lemma bind_drivers_pass_error_counterexample :
  ~ (forall (W : Type) (cfg : dm_config) (ext : dm_externals W)
            (tbl : dm_tables) (parent : option udevice)
            (pre_reloc_only : bool) (s : global_data W)
            (evs : list event) (e : Z),
        gd_trace (snd (bind_drivers_pass cfg ext tbl parent pre_reloc_only s))
        = gd_trace s ++ Enter_bind_drivers_pass :: evs ->
        first_error_as_specified (pass_errors evs) = Some e ->
        fst (bind_drivers_pass cfg ext tbl parent pre_reloc_only s) = e).
Proof.
  intros H.
  specialize (H (list string) (Board.cfg false false) Board.ext
                (Board.info_tables Board.infos_two_errors) None false
                (Board.gd0 None [])
                [Call_device_bind_by_name None false 0 (- ENOMEM);
                 Call_device_bind_by_name None false 1 (- EINVAL)]
                (- ENOMEM) eq_refl eq_refl).
  vm_compute in H. discriminate H.
Qed.

(** ** The passes of [lists_bind_drivers] *)

Lemma count_passes_app (e1 e2 : list event) :
  count_passes (e1 ++ e2) = (count_passes e1 + count_passes e2)%nat.
Proof. unfold count_passes. now rewrite List.filter_app, List.length_app. Qed.

Lemma count_passes_binds (evs : list event) :
  Forall (fun e => is_bind_by_name e = true) evs -> count_passes evs = 0%nat.
Proof.
  unfold count_passes. induction 1 as [| e evs He _ IH]; [reflexivity |].
  simpl. destruct e; try discriminate He. exact IH.
Qed.

Section PassesProps.
Context {W : Type}.
Variable cfg : dm_config.
Variable ext : dm_externals W.
Variable tbl : dm_tables.
Variable parent : option udevice.
Variable pre_reloc_only : bool.

Local Abbreviation pass := (bind_drivers_pass cfg ext tbl parent pre_reloc_only).
Local Abbreviation passes :=
  (lists_bind_drivers_loop cfg ext tbl).
Local Abbreviation state_after :=
  (after_passes cfg ext tbl parent pre_reloc_only).
Local Abbreviation result_of :=
  (pass_result cfg ext tbl parent pre_reloc_only).

Lemma pass_result_S (j : nat) (s : global_data W) :
  result_of (S j) s = result_of j (snd (pass s)).
Proof. reflexivity. Qed.

Lemma count_passes_after (k : nat) : forall s : global_data W,
  count_passes (gd_trace (state_after k s))
  = (count_passes (gd_trace s) + k)%nat.
Proof.
  induction k as [| k IH]; intros s; simpl; [lia |].
  rewrite IH.
  destruct (bind_drivers_pass_trace cfg ext tbl parent pre_reloc_only s)
    as (evs & Ht & Hall & _).
  rewrite Ht.
  change (Enter_bind_drivers_pass :: evs)
    with ([Enter_bind_drivers_pass] ++ evs).
  rewrite !count_passes_app, (count_passes_binds _ Hall).
  change (count_passes [Enter_bind_drivers_pass]) with 1%nat. lia.
Qed.

(** The loop of [lists_bind_drivers] with [n] passes left and nothing but
    "again" remembered: it runs [k] passes, at least one and at most [n];
    all but the last returned [-EAGAIN]; it stops before the [n]-th only
    on a pass that returned something else; it returns what the last pass
    returned. *)
Lemma lists_bind_drivers_loop_passes (n : nat) :
  forall (result : Z) (s : global_data W),
    (result = 0 \/ result = - EAGAIN) ->
    exists k,
      (1 <= k <= S n)%nat
      /\ snd (passes (S n) parent pre_reloc_only result s) = state_after k s
      /\ fst (passes (S n) parent pre_reloc_only result s)
         = result_of (k - 1) s
      /\ (forall j, (j < k - 1)%nat -> result_of j s = - EAGAIN)
      /\ ((k < S n)%nat -> result_of (k - 1) s <> - EAGAIN).
Proof.
  induction n as [| n IH]; intros result s Hres.
  - exists 1%nat. simpl. unfold mbind, mret, pass_result. simpl.
    destruct (pass s) as [ret s1] eqn:E. simpl.
    assert (Hr : (if (result =? 0) || (result =? - EAGAIN) then ret
                  else result) = ret).
    { destruct Hres as [-> | ->]; reflexivity. }
    rewrite Hr.
    repeat split; try lia.
    + destruct (negb (ret =? - EAGAIN)); reflexivity.
    + destruct (negb (ret =? - EAGAIN)) eqn:En; [reflexivity |].
      reflexivity.
  - change (passes (S (S n)) parent pre_reloc_only result s)
      with (let '(ret, s1) := pass s in
            (if negb (ret =? - EAGAIN)
             then mret (if (result =? 0) || (result =? - EAGAIN) then ret
                        else result)
             else passes (S n) parent pre_reloc_only
                    (if (result =? 0) || (result =? - EAGAIN) then ret
                     else result)) s1).
    destruct (pass s) as [ret s1] eqn:E.
    assert (Hr : (if (result =? 0) || (result =? - EAGAIN) then ret
                  else result) = ret).
    { destruct Hres as [-> | ->]; reflexivity. }
    rewrite Hr.
    assert (H0 : result_of 0 s = ret).
    { unfold pass_result. simpl. now rewrite E. }
    destruct (ret =? - EAGAIN) eqn:Eret; cbn [negb].
    + apply Z.eqb_eq in Eret.
      destruct (IH ret s1 (or_intror Eret))
        as (k & Hk & Hst & Hfst & Hbefore & Hstop).
      assert (Hs1 : s1 = snd (pass s)) by now rewrite E.
      exists (S k). repeat split; try lia.
      * rewrite Hst, Hs1. reflexivity.
      * rewrite Hfst, Hs1.
        replace (S k - 1)%nat with (S (k - 1)) by lia. reflexivity.
      * intros [| j] Hj; [congruence |].
        rewrite pass_result_S, <- Hs1. apply Hbefore. lia.
      * intros Hlt.
        replace (S k - 1)%nat with (S (k - 1)) by lia.
        rewrite pass_result_S, <- Hs1. apply Hstop. lia.
    + apply Z.eqb_neq in Eret.
      exists 1%nat. unfold mret. simpl.
      repeat split; try lia.
      all: first [now rewrite E | now rewrite H0 | intros _; now rewrite H0].
Qed.

(** C5.  [lists_bind_drivers] runs [k] passes in a row, with
    [1 <= k <= 10]: its final state is the one after [k] passes and the
    trace has [k] more entries into [bind_drivers_pass].  Every pass
    before the last returned [-EAGAIN]; when [k < 10], the last did not;
    the function returns what the last pass returned.  So when ten passes
    in a row return [-EAGAIN], it returns [-EAGAIN], which is not 0. *)
Theorem lists_bind_drivers_passes (s : global_data W) :
  let out := lists_bind_drivers cfg ext tbl parent pre_reloc_only s in
  (exists k,
      (1 <= k <= 10)%nat
      /\ snd out = state_after k s
      /\ count_passes (gd_trace (snd out))
         = (count_passes (gd_trace s) + k)%nat
      /\ fst out = result_of (k - 1) s
      /\ (forall j, (j < k - 1)%nat -> result_of j s = - EAGAIN)
      /\ ((k < 10)%nat -> result_of (k - 1) s <> - EAGAIN))
  /\ ((forall j, (j < 10)%nat -> result_of j s = - EAGAIN) ->
      fst out = - EAGAIN /\ fst out <> 0).
Proof.
  intros out. subst out. unfold lists_bind_drivers.
  destruct (lists_bind_drivers_loop_passes 9 0 s (or_introl eq_refl))
    as (k & Hk & Hst & Hfst & Hbefore & Hstop).
  split.
  - exists k. repeat split; try lia; auto.
    rewrite Hst. apply count_passes_after.
  - intros Hall.
    assert (Hlast : result_of (k - 1) s = - EAGAIN) by (apply Hall; lia).
    rewrite Hfst, Hlast. split; [reflexivity | discriminate].
Qed.
End PassesProps.

(** Scenario 2 of the specification: the child comes before its parent;
    the first pass binds the parent and asks for another pass, the second
    binds the child. *)
Example lists_bind_drivers_out_of_order :
  let out := lists_bind_drivers (Board.cfg true true) Board.ext
               (Board.info_tables Board.infos_out_of_order)
               (Some Board.root_device) false
               (Board.gd0 (Some Board.root_device) [None; None]) in
  fst out = 0
  /\ count_passes (gd_trace (snd out)) = 2%nat
  /\ gd_world (snd out) = ["parent"; "child"]%string.
Proof. vm_compute. repeat split. Qed.

(** Two descriptors that wait for each other: ten passes, then
    [-EAGAIN]. *)
Example lists_bind_drivers_cycle :
  let out := lists_bind_drivers (Board.cfg true true) Board.ext
               (Board.info_tables Board.infos_cycle)
               (Some Board.root_device) false
               (Board.gd0 (Some Board.root_device) [None; None]) in
  fst out = - EAGAIN
  /\ count_passes (gd_trace (snd out)) = 10%nat
  /\ gd_world (snd out) = [].
Proof. vm_compute. repeat split. Qed.

(** ** Filled slots *)

Section SlotProps.
Context {W : Type}.
Variable cfg : dm_config.
Variable ext : dm_externals W.
Variable tbl : dm_tables.
Variable parent : option udevice.
Variable pre_reloc_only : bool.
Hypothesis of_platdata : OF_PLATDATA cfg = true.

Local Abbreviation pass_loop :=
  (bind_drivers_loop cfg ext parent pre_reloc_only).
Local Abbreviation pass := (bind_drivers_pass cfg ext tbl parent pre_reloc_only).
Local Abbreviation state_after :=
  (after_passes cfg ext tbl parent pre_reloc_only).

Lemma keeps_slot_refl (i : nat) (d : udevice) (s : global_data W) :
  gd_dm_driver_rt s !! i = Some (Some d) -> keeps_slot i d s s.
Proof.
  intros H. split; [exact H |]. exists []. rewrite app_nil_r. auto.
Qed.

Lemma keeps_slot_trans (i : nat) (d : udevice) (s1 s2 s3 : global_data W) :
  keeps_slot i d s1 s2 -> keeps_slot i d s2 s3 -> keeps_slot i d s1 s3.
Proof.
  intros (_ & e1 & H1 & F1) (Hrt & e2 & H2 & F2).
  split; [exact Hrt |]. exists (e1 ++ e2).
  rewrite H2, H1, <- app_assoc. split; [reflexivity |].
  apply Forall_app. auto.
Qed.

Lemma bind_drivers_loop_keeps (i : nat) (d : udevice)
    (entries : list driver_info) :
  forall (idx : nat) (result : Z) (missing_parent : bool) (s : global_data W),
    gd_dm_driver_rt s !! i = Some (Some d) ->
    keeps_slot i d s (snd (pass_loop entries idx result missing_parent s)).
Proof.
  induction entries as [| entry entries IH]; intros idx result mp s Hs.
  - now apply keeps_slot_refl.
  - rewrite bind_drivers_loop_cons. cbv zeta.
    destruct (bind_drivers_body_cases cfg ext parent pre_reloc_only idx entry
                result mp s)
      as [(_ & _ & Hb) | [(_ & _ & Hb) | (Hfree & par & Hb)]]; rewrite Hb.
    + now apply IH.
    + now apply IH.
    + specialize (Hfree of_platdata). rewrite driver_rt_dev_nat in Hfree.
      assert (Hne : idx <> i).
      { intros ->. rewrite Hs in Hfree. discriminate Hfree. }
      rewrite bind_entry_eq.
      destruct (device_bind_by_name ext par pre_reloc_only entry (gd_world s))
        as [[ret dev] w]. cbv zeta.
      assert (Hev : Forall (fun e => is_bind_by_name_at i e = false)
                      [Call_device_bind_by_name par pre_reloc_only idx ret]).
      { constructor; [| constructor]. simpl. now apply Nat.eqb_neq. }
      destruct (ret =? 0); cbn [fst snd].
      * match goal with |- keeps_slot i d s (snd (pass_loop _ _ _ _ ?t)) =>
          apply (keeps_slot_trans i d s t)
        end.
        -- split.
           ++ simpl. rewrite of_platdata.
              rewrite list_lookup_insert_ne by exact Hne. exact Hs.
           ++ eexists. split; [reflexivity | exact Hev].
        -- apply IH. simpl. rewrite of_platdata.
           rewrite list_lookup_insert_ne by exact Hne. exact Hs.
      * match goal with |- keeps_slot i d s (snd (pass_loop _ _ _ _ ?t)) =>
          apply (keeps_slot_trans i d s t)
        end.
        -- split; [exact Hs |].
           eexists. split; [reflexivity | exact Hev].
        -- apply IH. exact Hs.
Qed.

Lemma bind_drivers_pass_keeps (i : nat) (d : udevice) (s : global_data W) :
  gd_dm_driver_rt s !! i = Some (Some d) ->
  keeps_slot i d s (snd (pass s)).
Proof.
  intros Hs. rewrite bind_drivers_pass_eq. cbv zeta. cbn [snd].
  match goal with |- keeps_slot i d s (snd (pass_loop _ _ _ _ ?t)) =>
    apply (keeps_slot_trans i d s t)
  end.
  - split; [exact Hs |]. eexists. split; [reflexivity |].
    constructor; [reflexivity | constructor].
  - apply bind_drivers_loop_keeps. exact Hs.
Qed.

Lemma after_passes_keeps (i : nat) (d : udevice) (k : nat) :
  forall s : global_data W,
    gd_dm_driver_rt s !! i = Some (Some d) ->
    keeps_slot i d s (state_after k s).
Proof.
  induction k as [| k IH]; intros s Hs; simpl.
  - now apply keeps_slot_refl.
  - pose proof (bind_drivers_pass_keeps i d s Hs) as H1.
    apply (keeps_slot_trans i d s (snd (pass s))); [exact H1 |].
    apply IH. apply H1.
Qed.

(** With every slot from [idx] on filled, the loop of a pass does
    nothing. *)
Lemma bind_drivers_loop_filled (entries : list driver_info) :
  forall (idx : nat) (result : Z) (missing_parent : bool) (s : global_data W),
    (forall j, (idx <= j < idx + length entries)%nat ->
               exists d, gd_dm_driver_rt s !! j = Some (Some d)) ->
    pass_loop entries idx result missing_parent s
    = ((result, missing_parent), s).
Proof.
  induction entries as [| entry entries IH]; intros idx result mp s Hall.
  - reflexivity.
  - rewrite bind_drivers_loop_cons. cbv zeta.
    destruct (Hall idx) as [d Hd]; [simpl; lia |].
    destruct (bind_drivers_body_cases cfg ext parent pre_reloc_only idx entry
                result mp s)
      as [(_ & _ & Hb) | [(_ & Hfree & Hb) | (Hfree & par & Hb)]].
    + rewrite Hb. cbn [fst snd]. apply IH.
      intros j Hj. apply Hall. simpl. lia.
    + rewrite driver_rt_dev_nat, Hd in Hfree. discriminate Hfree.
    + specialize (Hfree of_platdata).
      rewrite driver_rt_dev_nat, Hd in Hfree. discriminate Hfree.
Qed.
End SlotProps.

Section SlotClaims.
Context {W : Type}.
Variable cfg : dm_config.
Variable ext : dm_externals W.
Variable tbl : dm_tables.
Variable parent : option udevice.
Variable pre_reloc_only : bool.

(** C6, as the code has it.  With [OF_PLATDATA] enabled, a descriptor
    whose slot holds a device is skipped: after any number of passes, and
    after a run of [lists_bind_drivers], the slot still holds that device
    and the trace has no call of the binder for that descriptor.  When the
    slot of every descriptor is filled, a run of [lists_bind_drivers]
    makes one pass that calls nothing, and returns 0. *)
Theorem lists_bind_drivers_binds_once (s : global_data W) (i : nat)
    (d : udevice) :
  OF_PLATDATA cfg = true ->
  gd_dm_driver_rt s !! i = Some (Some d) ->
  (forall k,
      keeps_slot i d s (after_passes cfg ext tbl parent pre_reloc_only k s))
  /\ keeps_slot i d s
       (snd (lists_bind_drivers cfg ext tbl parent pre_reloc_only s))
  /\ ((forall j, (j < length (ll_driver_info tbl))%nat ->
                 exists d', gd_dm_driver_rt s !! j = Some (Some d')) ->
      lists_bind_drivers cfg ext tbl parent pre_reloc_only s
      = (0, {| gd_dm_root := gd_dm_root s;
               gd_dm_driver_rt := gd_dm_driver_rt s;
               gd_world := gd_world s;
               gd_trace := gd_trace s ++ [Enter_bind_drivers_pass] |})).
Proof.
  intros Hof Hs. split; [| split].
  - intros k. now apply after_passes_keeps.
  - unfold lists_bind_drivers.
    destruct (lists_bind_drivers_loop_passes cfg ext tbl parent pre_reloc_only
                9 0 s (or_introl eq_refl)) as (k & _ & Hst & _).
    rewrite Hst. now apply after_passes_keeps.
  - intros Hall.
    assert (Hpass : bind_drivers_pass cfg ext tbl parent pre_reloc_only s
                    = (0, {| gd_dm_root := gd_dm_root s;
                             gd_dm_driver_rt := gd_dm_driver_rt s;
                             gd_world := gd_world s;
                             gd_trace := gd_trace s
                                         ++ [Enter_bind_drivers_pass] |})).
    { rewrite bind_drivers_pass_eq. cbv zeta.
      rewrite (bind_drivers_loop_filled cfg ext parent pre_reloc_only Hof).
      - reflexivity.
      - intros j Hj. simpl. apply Hall. lia. }
    unfold lists_bind_drivers. simpl. unfold mbind at 1.
    rewrite Hpass. reflexivity.
Qed.
End SlotClaims.

(** The slot of "uart" is filled, "late" is refused before relocation: a
    run before relocation calls the binder for "late" only. *)
Lemma lists_bind_drivers_binds_once_witness :
  let s := Board.gd0 (Some Board.root_device) [Some Board.uart_device; None] in
  let out := lists_bind_drivers (Board.cfg true false) Board.ext
               (Board.info_tables Board.infos_late)
               (Some Board.root_device) true s in
  keeps_slot 0 Board.uart_device s (snd out)
  /\ gd_trace (snd out)
     = [Enter_bind_drivers_pass;
        Call_device_bind_by_name (Some Board.root_device) true 1 (- EPERM)].
Proof.
  intros s out. split; [| reflexivity].
  exact (proj1 (proj2 (lists_bind_drivers_binds_once (Board.cfg true false)
                         Board.ext (Board.info_tables Board.infos_late)
                         (Some Board.root_device) true s 0%nat
                         Board.uart_device eq_refl eq_refl))).
Defined.

Example lists_bind_drivers_all_filled :
  let s := Board.gd0 (Some Board.root_device) [Some Board.uart_device] in
  lists_bind_drivers (Board.cfg true false) Board.ext
    (Board.info_tables Board.infos_uart) (Some Board.root_device) false s
  = (0, {| gd_dm_root := Some Board.root_device;
           gd_dm_driver_rt := [Some Board.uart_device];
           gd_world := []; gd_trace := [Enter_bind_drivers_pass] |}).
Proof. reflexivity. Qed.

(** C6, as stated, fails: without [OF_PLATDATA] no slot is recorded, and a
    second run of the scanner after a first that returned 0 binds the
    descriptor again. *)
Lemma lists_bind_drivers_binds_once_counterexample :
  ~ (forall (W : Type) (cfg : dm_config) (ext : dm_externals W)
            (tbl : dm_tables) (parent : option udevice)
            (pre_reloc_only : bool) (s : global_data W),
        let first := lists_bind_drivers cfg ext tbl parent pre_reloc_only s in
        let second :=
          lists_bind_drivers cfg ext tbl parent pre_reloc_only (snd first) in
        fst first = 0 ->
        List.filter is_bind_by_name (gd_trace (snd second))
        = List.filter is_bind_by_name (gd_trace (snd first))).
Proof.
  intros H.
  specialize (H (list string) (Board.cfg false false) Board.ext
                (Board.info_tables Board.infos_uart)
                (Some Board.root_device) false
                (Board.gd0 (Some Board.root_device) [None]) eq_refl).
  vm_compute in H. discriminate H.
Qed.

Example lists_bind_drivers_twice_without_platdata :
  let first := lists_bind_drivers (Board.cfg false false) Board.ext
                 (Board.info_tables Board.infos_uart)
                 (Some Board.root_device) false
                 (Board.gd0 (Some Board.root_device) [None]) in
  let second := lists_bind_drivers (Board.cfg false false) Board.ext
                  (Board.info_tables Board.infos_uart)
                  (Some Board.root_device) false (snd first) in
  fst first = 0 /\ fst second = 0
  /\ gd_world (snd second) = ["uart"; "uart"]%string
  /\ gd_dm_driver_rt (snd second) = [None].
Proof. vm_compute. repeat split. Qed.

(** * Further properties *)

(** ** The lookups *)

Lemma lookup_name_from_spec (entries : list driver) (name : string) :
  forall pos,
  match lookup_name_from entries pos name with
  | Some (p, d) =>
      exists k, p = (pos + k)%nat /\ entries !! k = Some d
        /\ drv_name d = name
        /\ (forall j d', (j < k)%nat -> entries !! j = Some d' ->
                         drv_name d' <> name)
  | None => forall d, d ∈ entries -> drv_name d <> name
  end.
Proof.
  induction entries as [| e entries IH]; intros pos; simpl.
  - intros d Hd. inversion Hd.
  - destruct (String.eqb name (drv_name e)) eqn:E.
    + apply String.eqb_eq in E. exists 0%nat.
      repeat split; auto; try lia. all: try (intros; lia).
    + apply String.eqb_neq in E. specialize (IH (S pos)).
      destruct (lookup_name_from entries (S pos) name) as [[p d] |].
      * destruct IH as (k & -> & Hk & Hn & Hlt).
        exists (S k). repeat split; auto; try lia.
        intros [| j] d' Hj Hl; simpl in Hl.
        -- inversion Hl; subst. congruence.
        -- apply (Hlt j); [lia | exact Hl].
      * intros d Hd. apply elem_of_cons in Hd as [-> | Hd];
          [congruence | now apply IH].
Qed.

(** X1.  [lists_driver_lookup_name] returns the first driver of the table,
    in table order, whose name is the one asked for, and NULL exactly when
    no driver of the table has that name. *)
Theorem lists_driver_lookup_name_first (tbl : dm_tables) (name : string) :
  match lists_driver_lookup_name tbl name with
  | Some (pos, d) =>
      ll_driver tbl !! pos = Some d
      /\ drv_name d = name
      /\ (forall j d', (j < pos)%nat -> ll_driver tbl !! j = Some d' ->
                       drv_name d' <> name)
  | None => forall d, d ∈ ll_driver tbl -> drv_name d <> name
  end.
Proof.
  unfold lists_driver_lookup_name.
  pose proof (lookup_name_from_spec (ll_driver tbl) name 0) as H.
  destruct (lookup_name_from (ll_driver tbl) 0 name) as [[p d] |];
    [| exact H].
  destruct H as (k & -> & Hk & Hn & Hlt). simpl. auto.
Qed.

(** X2.  [lists_uclass_lookup] returns the first uclass driver of the
    list whose id is the one asked for, and NULL exactly when no uclass
    driver has that id. *)
Theorem lists_uclass_lookup_first (uclasses : list uclass_driver) (id : Z) :
  match lists_uclass_lookup uclasses id with
  | Some u =>
      exists before after,
        uclasses = before ++ u :: after
        /\ uc_id u = id
        /\ (forall u', u' ∈ before -> uc_id u' <> id)
  | None => forall u, u ∈ uclasses -> uc_id u <> id
  end.
Proof.
  induction uclasses as [| e rest IH]; simpl.
  - intros u Hu. inversion Hu.
  - destruct (uc_id e =? id) eqn:E.
    + apply Z.eqb_eq in E. exists [], rest. repeat split; auto.
      intros u' Hu'. inversion Hu'.
    + apply Z.eqb_neq in E.
      destruct (lists_uclass_lookup rest id) as [u |].
      * destruct IH as (before & after & -> & Hid & Hb).
        exists (e :: before), after. repeat split; auto.
        intros u' Hu'. apply elem_of_cons in Hu' as [-> | Hu']; auto.
      * intros u Hu. apply elem_of_cons in Hu as [-> | Hu]; auto.
Qed.

Section BindByDriverNameProps.
Context {W : Type}.
Variable ext : dm_externals W.
Variable tbl : dm_tables.

(** X3.  When no driver of the table has the name asked for,
    [device_bind_driver_to_node] returns [-ENOENT], stores no device and
    changes nothing: the binder is not called. *)
Theorem device_bind_driver_to_node_no_driver (parent : option udevice)
    (drv_name' dev_name : string) (node : ofnode) (s : global_data W) :
  (forall d, d ∈ ll_driver tbl -> drv_name d <> drv_name') ->
  device_bind_driver_to_node ext tbl parent drv_name' dev_name node s
  = ((- ENOENT, None), s).
Proof.
  intros Hnone. unfold device_bind_driver_to_node, lists_driver_lookup_name.
  pose proof (lookup_name_from_spec (ll_driver tbl) drv_name' 0) as H.
  destruct (lookup_name_from (ll_driver tbl) 0 drv_name') as [[p d] |];
    [| reflexivity].
  destruct H as (k & _ & Hk & Hn & _).
  exfalso. apply (Hnone d); [| exact Hn].
  apply list_elem_of_lookup. eauto.
Qed.

(** X4.  When the driver at index [pos] is the first of the table with
    the name asked for, [device_bind_driver_to_node] calls
    [device_bind_with_driver_data] once, for that driver, with match data
    0, and returns what the call returns and stores. *)
Theorem device_bind_driver_to_node_first (parent : option udevice)
    (dev_name : string) (node : ofnode) (s : global_data W)
    (pos : nat) (d : driver) :
  ll_driver tbl !! pos = Some d ->
  (forall j d', (j < pos)%nat -> ll_driver tbl !! j = Some d' ->
                drv_name d' <> drv_name d) ->
  let '(ret, dev, w) :=
    device_bind_with_driver_data ext parent d dev_name 0 node (gd_world s) in
  device_bind_driver_to_node ext tbl parent (drv_name d) dev_name node s
  = ((ret, dev),
     {| gd_dm_root := gd_dm_root s; gd_dm_driver_rt := gd_dm_driver_rt s;
        gd_world := w;
        gd_trace := gd_trace s ++
          [Call_device_bind_with_driver_data parent pos dev_name 0 node ret] |}).
Proof.
  intros Hpos Hfirst.
  unfold device_bind_driver_to_node, lists_driver_lookup_name.
  pose proof (lookup_name_from_spec (ll_driver tbl) (drv_name d) 0) as H.
  destruct (lookup_name_from (ll_driver tbl) 0 (drv_name d)) as [[p d0] |].
  - destruct H as (k & -> & Hk & Hn & Hlt). simpl.
    assert (Hkp : k = pos).
    { destruct (Nat.lt_trichotomy k pos) as [Hlt' | [Heq | Hgt]];
        [| exact Heq |].
      - exfalso. apply (Hfirst k d0 Hlt' Hk). exact Hn.
      - exfalso. apply (Hlt pos d Hgt Hpos). reflexivity. }
    subst k. rewrite Hpos in Hk. inversion Hk; subst d0.
    rewrite call_bind_with_driver_data_eq.
    destruct (device_bind_with_driver_data ext parent d dev_name 0 node
                                           (gd_world s)) as [[ret dev] w].
    reflexivity.
  - exfalso. apply (H d); [| reflexivity].
    apply list_elem_of_lookup. eauto.
Qed.
End BindByDriverNameProps.

Lemma device_bind_driver_to_node_no_driver_witness :
  device_bind_driver_to_node Board.ext (Board.fdt_tables Board.drivers_AB)
    (Some Board.root_device) "C" "serial" Board.serial_node
    (Board.gd0 (Some Board.root_device) [])
  = ((- ENOENT, None), Board.gd0 (Some Board.root_device) []).
Proof.
  apply (device_bind_driver_to_node_no_driver Board.ext
           (Board.fdt_tables Board.drivers_AB)).
  intros d Hd. apply list_elem_of_In in Hd. simpl in Hd.
  destruct Hd as [<- | [<- | []]]; discriminate.
Defined.

Lemma device_bind_driver_to_node_first_witness :
  device_bind_driver_to_node Board.ext (Board.fdt_tables Board.drivers_AB)
    (Some Board.root_device) "B" "serial" Board.serial_node
    (Board.gd0 (Some Board.root_device) [])
  = ((0, Some (Board.new_device "serial" (Board.match_driver "B" "a,v2" 0)
                                (Some Board.serial_node))),
     {| gd_dm_root := Some Board.root_device; gd_dm_driver_rt := [];
        gd_world := ["serial"%string];
        gd_trace := [Call_device_bind_with_driver_data
                       (Some Board.root_device) 1 "serial" 0
                       Board.serial_node 0] |}).
Proof.
  refine (device_bind_driver_to_node_first Board.ext
            (Board.fdt_tables Board.drivers_AB) (Some Board.root_device)
            "serial" Board.serial_node (Board.gd0 (Some Board.root_device) [])
            1%nat (Board.match_driver "B" "a,v2" 0) eq_refl _).
  intros [| j] d' Hj Hl; [| lia].
  simpl in Hl. inversion Hl. discriminate.
Defined.

Example lists_uclass_lookup_duplicate :
  lists_uclass_lookup Board.uclasses 7
  = Some {| uc_name := "serial"; uc_id := 7 |}
  /\ lists_uclass_lookup Board.uclasses 9 = None.
Proof. split; reflexivity. Qed.

(** ** Match tables and compatible properties *)

(** X5.  [driver_check_compatible] returns 0 exactly when the match table
    is not NULL and has a row for the string, and then stores the first
    such row; otherwise it returns [-ENOENT] and stores nothing. *)
Theorem driver_check_compatible_first (of_match : option (list udevice_id))
    (compat : string) :
  (exists rows before m after,
      of_match = Some rows
      /\ rows = before ++ m :: after
      /\ compatible m = compat
      /\ (forall m', m' ∈ before -> compatible m' <> compat)
      /\ driver_check_compatible of_match compat = (0, Some m))
  \/ ((of_match = None
       \/ exists rows, of_match = Some rows
            /\ forall m, m ∈ rows -> compatible m <> compat)
      /\ driver_check_compatible of_match compat = (- ENOENT, None)).
Proof.
  unfold driver_check_compatible.
  destruct of_match as [rows |]; [| right; auto].
  assert (H : (exists before m after,
                  rows = before ++ m :: after /\ compatible m = compat
                  /\ (forall m', m' ∈ before -> compatible m' <> compat)
                  /\ of_match_scan rows compat = Some m)
              \/ ((forall m, m ∈ rows -> compatible m <> compat)
                  /\ of_match_scan rows compat = None)).
  { induction rows as [| r rows IH]; simpl.
    - right. split; [| reflexivity]. intros m Hm. inversion Hm.
    - destruct (String.eqb (compatible r) compat) eqn:E.
      + apply String.eqb_eq in E. left. exists [], r, rows.
        repeat split; auto. intros m' Hm'. inversion Hm'.
      + apply String.eqb_neq in E.
        destruct IH as [(before & m & after & -> & Hm & Hb & Hs) | [Hall Hs]].
        * left. exists (r :: before), m, after. repeat split; auto.
          intros m' Hm'. apply elem_of_cons in Hm' as [-> | Hm']; auto.
        * right. split; [| exact Hs].
          intros m Hm. apply elem_of_cons in Hm as [-> | Hm]; auto. }
  destruct H as [(before & m & after & Hrows & Hm & Hb & Hs) | [Hall Hs]];
    rewrite Hs.
  - left. exists rows, before, m, after. auto.
  - right. split; [right; eauto | reflexivity].
Qed.

Lemma string_append_empty_r (s : string) : String.append s EmptyString = s.
Proof. induction s as [| c s IH]; simpl; [reflexivity | now rewrite IH]. Qed.

Lemma string_append_snoc (a : string) (c : ascii) (s : string) :
  String.append (String.append a (String c EmptyString)) s
  = String.append a (String c s).
Proof. induction a as [| x a IH]; simpl; [reflexivity | now rewrite IH]. Qed.

Lemma nul_free_snoc (a : string) (c : ascii) :
  nul_free a = true -> Ascii.eqb c zero = false ->
  nul_free (String.append a (String c EmptyString)) = true.
Proof.
  intros Ha Hc. induction a as [| x a IH]; simpl in *.
  - now rewrite Hc.
  - apply andb_true_iff in Ha as [Hx Ha]. rewrite Hx. simpl. now apply IH.
Qed.

Lemma split_nul_string (s : string) : forall acc rest,
  nul_free s = true ->
  split_nul acc (String.append s (String zero rest))
  = String.append acc s :: split_nul EmptyString rest.
Proof.
  induction s as [| c s IH]; intros acc rest Hs; simpl.
  - now rewrite string_append_empty_r.
  - simpl in Hs. apply andb_true_iff in Hs as [Hc Hs].
    apply negb_true_iff in Hc. rewrite Hc.
    rewrite (IH _ _ Hs), string_append_snoc. reflexivity.
Qed.

(** X6.  The loop of [lists_bind_fdt] reads a well-formed [compatible]
    property back as the strings it was made of: for strings without a
    NUL byte, each followed by a NUL, it visits exactly these strings, in
    order. *)
Theorem compat_strings_of_property (l : list string) :
  forallb nul_free l = true ->
  compat_strings (compat_property l) = l.
Proof.
  unfold compat_strings. induction l as [| s l IH]; intros H; simpl.
  - reflexivity.
  - simpl in H. apply andb_true_iff in H as [Hs Hl].
    rewrite (split_nul_string _ _ _ Hs). simpl. now rewrite IH.
Qed.

Lemma compat_strings_of_property_witness :
  forallb nul_free ["a,v2"; "g,foo"]%string = true
  /\ compat_strings (compat_property ["a,v2"; "g,foo"]%string)
     = ["a,v2"; "g,foo"]%string.
Proof.
  split; [reflexivity |].
  apply compat_strings_of_property. reflexivity.
Defined.

Lemma split_nul_nul_free (bytes : string) : forall acc,
  nul_free acc = true ->
  Forall (fun s => nul_free s = true) (split_nul acc bytes).
Proof.
  induction bytes as [| c bytes IH]; intros acc Hacc; simpl.
  - destruct acc; repeat constructor. exact Hacc.
  - destruct (Ascii.eqb c zero) eqn:Hc.
    + constructor; [exact Hacc | now apply IH].
    + apply IH. now apply nul_free_snoc.
Qed.

Lemma split_nul_property (bytes : string) : forall acc,
  ends_with_nul bytes = true ->
  compat_property (split_nul acc bytes) = String.append acc bytes.
Proof.
  induction bytes as [| c bytes IH]; intros acc Hend; [discriminate |].
  simpl. destruct (Ascii.eqb c zero) eqn:Hc.
  - apply Ascii.eqb_eq in Hc. subst c. simpl. f_equal. f_equal.
    destruct bytes as [| c' bytes']; [reflexivity |].
    apply (IH EmptyString). exact Hend.
  - destruct bytes as [| c' bytes'].
    + simpl in Hend. congruence.
    + rewrite IH by exact Hend. apply string_append_snoc.
Qed.

(** X7.  Every string the loop of [lists_bind_fdt] compares is free of
    NUL bytes, whatever the bytes of the property; and when the property
    is empty or ends with a NUL, the strings, each followed by a NUL, give
    the bytes of the property back: no byte is skipped or read twice. *)
Theorem compat_strings_cover (bytes : string) :
  Forall (fun s => nul_free s = true) (compat_strings bytes)
  /\ (bytes = EmptyString \/ ends_with_nul bytes = true ->
      compat_property (compat_strings bytes) = bytes).
Proof.
  split.
  - apply split_nul_nul_free. reflexivity.
  - intros [-> | Hend]; [reflexivity |].
    unfold compat_strings. now rewrite split_nul_property.
Qed.

(** ** What [lists_bind_fdt] calls and returns *)

Lemma scan_drivers_lookup (entries : list driver) (drv : option nat)
    (c : string) : forall pos p e id,
  scan_drivers entries pos drv c = Some (p, e, id) ->
  exists k, p = (pos + k)%nat /\ entries !! k = Some e.
Proof.
  induction entries as [| e0 entries IH]; intros pos p e id; simpl;
    [discriminate |].
  assert (Hnext : scan_drivers entries (S pos) drv c = Some (p, e, id) ->
                  exists k, p = (pos + k)%nat /\ (e0 :: entries) !! k = Some e).
  { intros H. destruct (IH _ _ _ _ H) as (k & -> & Hk).
    exists (S k). split; [lia | exact Hk]. }
  assert (Hhere : Some (pos, e0, id) = Some (p, e, id) ->
                  exists k, p = (pos + k)%nat /\ (e0 :: entries) !! k = Some e).
  { intros [= <- <-]. exists 0%nat. split; [lia | reflexivity]. }
  assert (Hcheck :
    match driver_check_compatible (of_match e0) c with
    | (ret, id0) =>
        if ret =? 0 then Some (pos, e0, id0)
        else scan_drivers entries (S pos) drv c
    end = Some (p, e, id) ->
    exists k, p = (pos + k)%nat /\ (e0 :: entries) !! k = Some e).
  { destruct (driver_check_compatible (of_match e0) c) as [ret id0].
    destruct (ret =? 0); [| exact Hnext].
    intros [= <- <- <-]. exists 0%nat. split; [lia | reflexivity]. }
  destruct drv as [d |]; [| exact Hcheck].
  destruct (negb (Nat.eqb d pos)); [exact Hnext |].
  destruct (of_match e0); [exact Hcheck |].
  intros [= <- <- <-]. exists 0%nat. split; [lia | reflexivity].
Qed.

Section BindFdtOutcome.
Context {W : Type}.
Variable cfg : dm_config.
Variable ext : dm_externals W.
Variable tbl : dm_tables.
Variable parent : option udevice.
Variable node : ofnode.
Variable drv : option nat.
Variable pre_reloc_only : bool.

Local Abbreviation loop :=
  (bind_fdt_loop cfg ext tbl parent node drv pre_reloc_only).

(** A run of the loop: some calls that were refused, then at most one
    call that was not, which ends the loop and decides the result.  There
    is at most one call per string, each for a driver the inner loop
    found, past the pre-relocation test. *)
Lemma loop_outcome (cs : list string) : forall s : global_data W,
  exists refused tail,
    gd_trace (snd (loop cs s)) = gd_trace s ++ refused ++ tail
    /\ Forall (fun e => is_refused_bind e = true) refused
    /\ (length refused + length tail <= length cs)%nat
    /\ gd_dm_root (snd (loop cs s)) = gd_dm_root s
    /\ gd_dm_driver_rt (snd (loop cs s)) = gd_dm_driver_rt s
    /\ Forall (fun e => exists p d nm md r,
                 e = Call_device_bind_with_driver_data parent p nm md node r
                 /\ ll_driver tbl !! p = Some d
                 /\ pre_reloc_skip cfg node pre_reloc_only d = false)
              (refused ++ tail)
    /\ ((tail = [] /\ fst (loop cs s) = (0, None))
        \/ exists pos nm md ret dev,
             tail = [Call_device_bind_with_driver_data parent pos nm md
                                                       node ret]
             /\ ret <> - ENODEV
             /\ fst (loop cs s) = if ret =? 0 then (0, dev) else (ret, None)).
Proof.
  induction cs as [| c cs IH]; intros s.
  - exists [], []. simpl. rewrite app_nil_r.
    repeat split; auto.
  - destruct (scan_drivers (ll_driver tbl) 0 drv c) as [[[pos entry] id] |]
      eqn:Hscan.
    + destruct (pre_reloc_skip cfg node pre_reloc_only entry) eqn:Hskip.
      * rewrite (loop_cons_skip _ _ _ _ _ _ _ _ _ _ _ _ _ Hscan Hskip).
        exists [], []. simpl. rewrite app_nil_r.
        repeat split; auto. lia.
      * destruct (call_device_bind_with_driver_data ext parent pos entry
                    (ofnode_get_name node) (match_data_of id) node s)
          as [[ret dev] s1] eqn:Hcall.
        rewrite (loop_cons_bind _ _ _ _ _ _ _ _ _ _ _ _ _ _ _ _
                   Hscan Hskip Hcall).
        pose proof Hcall as Hcall'.
        rewrite call_bind_with_driver_data_eq in Hcall'.
        destruct (device_bind_with_driver_data ext parent entry
                    (ofnode_get_name node) (match_data_of id) node
                    (gd_world s)) as [[r0 d0] w].
        inversion Hcall'; subst r0 d0 s1. clear Hcall'.
        set (call := Call_device_bind_with_driver_data parent pos
                       (ofnode_get_name node) (match_data_of id) node ret).
        assert (Hfound : exists p d nm md r,
                   call = Call_device_bind_with_driver_data parent p nm md
                                                            node r
                   /\ ll_driver tbl !! p = Some d
                   /\ pre_reloc_skip cfg node pre_reloc_only d = false).
        { destruct (scan_drivers_lookup _ _ _ _ _ _ _ Hscan)
            as (k & -> & Hk).
          exists k, entry, (ofnode_get_name node), (match_data_of id), ret.
          auto. }
        destruct (ret =? - ENODEV) eqn:Hrefused.
        -- match goal with |- context [loop cs ?t] =>
             destruct (IH t)
               as (refused & tail & Ht & Href & Hlen & Hroot & Hrt & Hall
                   & Hres)
           end.
           exists (call :: refused), tail. simpl in Ht, Hroot, Hrt.
           rewrite Ht, Hroot, Hrt. simpl. rewrite <- app_assoc.
           repeat split; auto; try lia.
           all: try (constructor; [first [exact Hrefused | exact Hfound]
                                  | first [exact Href | exact Hall]]).
        -- apply Z.eqb_neq in Hrefused.
           exists [], [call].
           destruct (ret =? 0) eqn:Hok; simpl.
           ++ repeat split; auto; try lia.
              right. exists pos, (ofnode_get_name node), (match_data_of id),
                            ret, dev.
              rewrite Hok. auto.
           ++ repeat split; auto; try lia.
              right. exists pos, (ofnode_get_name node), (match_data_of id),
                            ret, dev.
              rewrite Hok. auto.
    + rewrite (loop_cons_no_match _ _ _ _ _ _ _ _ _ _ Hscan).
      destruct (IH s)
        as (refused & tail & Ht & Href & Hlen & Hroot & Hrt & Hall & Hres).
      exists refused, tail. repeat split; auto. simpl. lia.
Qed.
End BindFdtOutcome.

Section BindFdtMore.
Context {W : Type}.
Variable cfg : dm_config.
Variable ext : dm_externals W.
Variable tbl : dm_tables.
Variable parent : option udevice.
Variable node : ofnode.
Variable drv : option nat.
Variable pre_reloc_only : bool.

Local Abbreviation bind_fdt :=
  (lists_bind_fdt cfg ext tbl parent node drv pre_reloc_only).

(** X8.  When [lists_bind_fdt] returns an error, [*devp] is NULL, and the
    error is either the libfdt error of reading the [compatible] property
    (other than "not found"), with nothing called, or the return value of
    the last call of the binder, which is never [-ENODEV]: a refusal to
    bind is not reported to the caller. *)
Theorem lists_bind_fdt_error (s : global_data W) :
  fst (fst (bind_fdt s)) <> 0 ->
  snd (fst (bind_fdt s)) = None
  /\ ((exists len,
          ofnode_get_property node = Prop_err len
          /\ len <> - FDT_ERR_NOTFOUND
          /\ bind_fdt s = ((len, None), s))
      \/ (fst (fst (bind_fdt s)) <> - ENODEV
          /\ exists pos nm md,
               last (gd_trace (snd (bind_fdt s)))
               = Some (Call_device_bind_with_driver_data parent pos nm md node
                         (fst (fst (bind_fdt s)))))).
Proof.
  unfold lists_bind_fdt.
  destruct (ofnode_get_property node) as [bytes | len] eqn:Hprop.
  - destruct (loop_outcome cfg ext tbl parent node drv pre_reloc_only
                (compat_strings bytes) s)
      as (refused & tail & Ht & _ & _ & _ & _ & _ & Hres).
    destruct Hres as [[-> Hfst] | (pos & nm & md & ret & dev & -> & Hne & Hfst)];
      rewrite Hfst; simpl.
    + intros H. contradiction.
    + destruct (ret =? 0) eqn:Hok; simpl; [intros H; contradiction |].
      intros _. split; [reflexivity |]. right. split; [exact Hne |].
      exists pos, nm, md. rewrite Ht, !app_assoc. apply last_snoc.
  - destruct (len =? - FDT_ERR_NOTFOUND) eqn:Hnf; simpl.
    + intros H. contradiction.
    + intros _. split; [reflexivity |]. left. exists len.
      apply Z.eqb_neq in Hnf. auto.
Qed.

(** X9.  [lists_bind_fdt] calls nothing but [device_bind_with_driver_data],
    at most once per string of the [compatible] property, always with the
    parent and the node it was given; every call but the last returned
    [-ENODEV], and a call that returns anything else is the last.  The root
    handle and the runtime table are left as they were. *)
Theorem lists_bind_fdt_calls (s : global_data W) :
  exists refused tail,
    gd_trace (snd (bind_fdt s)) = gd_trace s ++ refused ++ tail
    /\ Forall (fun e => is_refused_bind e = true) refused
    /\ (tail = []
        \/ exists pos nm md ret,
             tail = [Call_device_bind_with_driver_data parent pos nm md
                                                       node ret]
             /\ ret <> - ENODEV)
    /\ (length (refused ++ tail) <= length (property_strings node))%nat
    /\ Forall (fun e => exists p nm md r,
                 e = Call_device_bind_with_driver_data parent p nm md node r)
              (refused ++ tail)
    /\ gd_dm_root (snd (bind_fdt s)) = gd_dm_root s
    /\ gd_dm_driver_rt (snd (bind_fdt s)) = gd_dm_driver_rt s.
Proof.
  unfold lists_bind_fdt, property_strings.
  destruct (ofnode_get_property node) as [bytes | len].
  - destruct (loop_outcome cfg ext tbl parent node drv pre_reloc_only
                (compat_strings bytes) s)
      as (refused & tail & Ht & Href & Hlen & Hroot & Hrt & Hall & Hres).
    exists refused, tail. rewrite length_app.
    repeat split; auto.
    + destruct Hres as [[-> _] | (pos & nm & md & ret & dev & -> & Hne & _)];
        [left; reflexivity | right; eauto 6].
    + eapply Forall_impl; [exact Hall |].
      intros e (p & d & nm & md & r & -> & _). eauto.
  - exists [], [].
    destruct (len =? - FDT_ERR_NOTFOUND); simpl; rewrite app_nil_r;
      repeat split; auto.
Qed.

End BindFdtMore.

Lemma lists_bind_fdt_error_witness :
  let out := lists_bind_fdt (Board.cfg false false) Board.ext
               Board.scan_tables (Some Board.root_device) Board.bad_node
               None false (Board.gd0 (Some Board.root_device) []) in
  fst (fst out) = - EINVAL
  /\ snd (fst out) = None
  /\ last (gd_trace (snd out))
     = Some (Call_device_bind_with_driver_data (Some Board.root_device) 0
               "bad" 7 Board.bad_node (- EINVAL)).
Proof.
  intros out. split; [reflexivity |]. split; [| reflexivity].
  apply (lists_bind_fdt_error (Board.cfg false false) Board.ext
           Board.scan_tables (Some Board.root_device) Board.bad_node
           None false (Board.gd0 (Some Board.root_device) [])).
  discriminate.
Defined.


(** ** More on the passes over the static descriptors *)

Section PassFrame.
Context {W : Type}.
Variable cfg : dm_config.
Variable ext : dm_externals W.
Variable tbl : dm_tables.
Variable parent : option udevice.
Variable pre_reloc_only : bool.

Local Abbreviation pass_loop :=
  (bind_drivers_loop cfg ext parent pre_reloc_only).
Local Abbreviation pass := (bind_drivers_pass cfg ext tbl parent pre_reloc_only).

Lemma bind_drivers_loop_frame (entries : list driver_info) :
  forall (idx : nat) (result : Z) (mp : bool) (s : global_data W),
    length (gd_dm_driver_rt (snd (pass_loop entries idx result mp s)))
    = length (gd_dm_driver_rt s)
    /\ (OF_PLATDATA cfg = false ->
        gd_dm_driver_rt (snd (pass_loop entries idx result mp s))
        = gd_dm_driver_rt s).
Proof.
  induction entries as [| entry entries IH]; intros idx result mp s.
  - simpl. auto.
  - rewrite bind_drivers_loop_cons. cbv zeta.
    destruct (bind_drivers_body_cases cfg ext parent pre_reloc_only idx entry
                result mp s)
      as [(_ & _ & Hb) | [(_ & _ & Hb) | (_ & par & Hb)]]; rewrite Hb.
    + apply IH.
    + apply IH.
    + rewrite bind_entry_eq.
      destruct (device_bind_by_name ext par pre_reloc_only entry (gd_world s))
        as [[ret dev] w]. cbv zeta.
      destruct (ret =? 0); cbn [fst snd].
      * match goal with |- context [pass_loop entries (S idx) ?r ?m ?t] =>
          destruct (IH (S idx) r m t) as [Hlen Hsame]
        end.
        simpl in Hlen, Hsame. split.
        -- rewrite Hlen. destruct (OF_PLATDATA cfg);
             [apply length_insert | reflexivity].
        -- intros Hof. rewrite (Hsame Hof), Hof. reflexivity.
      * match goal with |- context [pass_loop entries (S idx) ?r ?m ?t] =>
          destruct (IH (S idx) r m t) as [Hlen Hsame]
        end.
        simpl in Hlen, Hsame. auto.
Qed.

Lemma bind_drivers_pass_frame (s : global_data W) :
  gd_dm_root (snd (pass s)) = gd_dm_root s
  /\ length (gd_dm_driver_rt (snd (pass s))) = length (gd_dm_driver_rt s)
  /\ (OF_PLATDATA cfg = false ->
      gd_dm_driver_rt (snd (pass s)) = gd_dm_driver_rt s).
Proof.
  destruct (bind_drivers_pass_trace cfg ext tbl parent pre_reloc_only s)
    as (_ & _ & _ & _ & _ & Hroot).
  split; [exact Hroot |].
  rewrite bind_drivers_pass_eq. cbv zeta. cbn [snd].
  match goal with |- context [pass_loop ?es ?i ?r ?m ?t] =>
    destruct (bind_drivers_loop_frame es i r m t) as [Hlen Hsame]
  end.
  simpl in Hlen, Hsame. auto.
Qed.

Lemma after_passes_frame (k : nat) : forall s : global_data W,
  let s' := after_passes cfg ext tbl parent pre_reloc_only k s in
  gd_dm_root s' = gd_dm_root s
  /\ length (gd_dm_driver_rt s') = length (gd_dm_driver_rt s)
  /\ (OF_PLATDATA cfg = false -> gd_dm_driver_rt s' = gd_dm_driver_rt s).
Proof.
  induction k as [| k IH]; intros s; simpl; [auto |].
  destruct (IH (snd (pass s))) as (Hr & Hl & Hs).
  destruct (bind_drivers_pass_frame s) as (Hr1 & Hl1 & Hs1).
  cbv zeta in *. rewrite Hr, Hl, Hr1, Hl1. repeat split.
  intros Hof. rewrite (Hs Hof). apply Hs1, Hof.
Qed.

(** X11.  A run of [lists_bind_drivers] leaves the root handle alone and
    keeps the number of slots of the runtime table; without [OF_PLATDATA]
    it does not write to the table at all. *)
Theorem lists_bind_drivers_frame (s : global_data W) :
  let s' := snd (lists_bind_drivers cfg ext tbl parent pre_reloc_only s) in
  gd_dm_root s' = gd_dm_root s
  /\ length (gd_dm_driver_rt s') = length (gd_dm_driver_rt s)
  /\ (OF_PLATDATA cfg = false -> gd_dm_driver_rt s' = gd_dm_driver_rt s).
Proof.
  unfold lists_bind_drivers.
  destruct (lists_bind_drivers_loop_passes cfg ext tbl parent pre_reloc_only
              9 0 s (or_introl eq_refl)) as (k & _ & Hst & _).
  cbv zeta. rewrite Hst. apply after_passes_frame.
Qed.

Lemma bind_returns_length (par : option udevice)
    (entries : list driver_info) :
  forall w : W,
    length (fst (bind_returns ext par pre_reloc_only entries w))
    = length entries.
Proof.
  induction entries as [| entry entries IH]; intros w; simpl; [reflexivity |].
  destruct (device_bind_by_name ext par pre_reloc_only entry w)
    as [[ret dev] w1].
  specialize (IH w1).
  destruct (bind_returns ext par pre_reloc_only entries w1) as [rets w'].
  simpl in *. now rewrite IH.
Qed.

Lemma bind_drivers_loop_in_order (entries : list driver_info) :
  OF_PLATDATA cfg = false ->
  forall (idx : nat) (result : Z) (mp : bool) (s : global_data W),
    snd (pass_loop entries idx result mp s)
    = {| gd_dm_root := gd_dm_root s;
         gd_dm_driver_rt := gd_dm_driver_rt s;
         gd_world := snd (bind_returns ext parent pre_reloc_only entries
                                       (gd_world s));
         gd_trace := gd_trace s ++
           calls_in_order parent pre_reloc_only idx
             (fst (bind_returns ext parent pre_reloc_only entries
                                (gd_world s))) |}
    /\ snd (fst (pass_loop entries idx result mp s)) = mp.
Proof.
  intros Hof.
  induction entries as [| entry entries IH]; intros idx result mp s.
  - simpl. rewrite app_nil_r. destruct s. auto.
  - rewrite bind_drivers_loop_cons. cbv zeta.
    assert (Hb : bind_drivers_body cfg ext parent pre_reloc_only idx entry
                   result mp s
                 = bind_entry cfg ext parent pre_reloc_only idx entry
                              result mp s).
    { unfold bind_drivers_body. now rewrite Hof. }
    rewrite Hb, bind_entry_eq. simpl bind_returns.
    destruct (device_bind_by_name ext parent pre_reloc_only entry (gd_world s))
      as [[ret dev] w]. cbv zeta.
    destruct (ret =? 0); cbn [fst snd];
      match goal with |- context [pass_loop entries (S idx) ?r ?m ?t] =>
        destruct (IH (S idx) r m t) as (Hst & Hmp)
      end;
      rewrite Hst, Hmp; rewrite ?Hof; cbn [gd_world gd_trace gd_dm_root
                                           gd_dm_driver_rt];
      destruct (bind_returns ext parent pre_reloc_only entries w)
        as [rets w'];
      simpl; rewrite <- app_assoc; auto.
Qed.

(** X12.  Without [OF_PLATDATA], a pass calls [device_bind_by_name] once
    for every descriptor of the table, in table order and under the parent
    it was given, each call in the world the call before left, whatever
    the calls before returned: a failed bind does not stop the pass.  The
    trace holds these calls with what they returned, and the world is the
    one the last call left.  The pass never asks for another pass on its
    own: it returns 0 or the error of a bind. *)
Theorem bind_drivers_pass_in_order (s : global_data W) :
  OF_PLATDATA cfg = false ->
  let binds := bind_returns ext parent pre_reloc_only (ll_driver_info tbl)
                            (gd_world s) in
  length (fst binds) = length (ll_driver_info tbl)
  /\ snd (pass s)
     = {| gd_dm_root := gd_dm_root s;
          gd_dm_driver_rt := gd_dm_driver_rt s;
          gd_world := snd binds;
          gd_trace := gd_trace s ++ Enter_bind_drivers_pass
                      :: calls_in_order parent pre_reloc_only 0 (fst binds) |}
  /\ (fst (pass s) = 0 \/ fst (pass s) ∈ fst binds).
Proof.
  intros Hof. cbv zeta.
  split; [apply bind_returns_length |].
  rewrite bind_drivers_pass_eq. cbv zeta. cbn [fst snd].
  match goal with |- context [pass_loop ?es ?i ?r ?m ?t] =>
    destruct (bind_drivers_loop_in_order es Hof i r m t) as (Hst & Hmp);
    destruct (bind_drivers_loop_trace cfg ext parent pre_reloc_only
                es i r m t) as (evs & Ht' & _ & Hres & _)
  end.
  rewrite Hst in Ht'. cbn [gd_trace gd_world] in Ht', Hst.
  apply app_inv_head in Ht'. subst evs.
  rewrite Hst, Hmp, Hres. cbn [gd_trace gd_world gd_dm_root gd_dm_driver_rt].
  rewrite <- app_assoc.
  split; [reflexivity |].
  set (rets := fst (bind_returns ext parent pre_reloc_only
                      (ll_driver_info tbl) (gd_world s))).
  pose proof (pass_errors_nonzero (calls_in_order parent pre_reloc_only 0 rets))
    as Hnz.
  rewrite (fold_record_error _ 0 Hnz).
  assert (Hsub : forall e idx,
            e ∈ pass_errors (calls_in_order parent pre_reloc_only idx rets) ->
            e ∈ rets).
  { clear. intros e idx. revert idx.
    induction rets as [| r rets IH]; intros idx He.
    - inversion He.
    - change (calls_in_order parent pre_reloc_only idx (r :: rets))
        with ([Call_device_bind_by_name parent pre_reloc_only idx r]
              ++ calls_in_order parent pre_reloc_only (S idx) rets) in He.
      rewrite pass_errors_app in He. apply elem_of_app in He as [He | He].
      + simpl in He. destruct ((r =? 0) || (r =? - EPERM)).
        * inversion He.
        * apply list_elem_of_singleton in He. subst. left.
      + right. eapply IH. exact He. }
  set (errs := pass_errors (calls_in_order parent pre_reloc_only 0 rets)) in *.
  destruct (last (other_errors errs)) as [e |] eqn:Hlast.
  - assert (He : e ∈ errs).
    { apply last_Some_elem_of in Hlast. unfold other_errors in Hlast.
      apply list_elem_of_In, filter_In in Hlast.
      now apply list_elem_of_In. }
    assert (Hne : e <> 0).
    { rewrite Forall_forall in Hnz. apply Hnz. exact He. }
    apply Z.eqb_neq in Hne. rewrite Hne. simpl. right. eapply Hsub, He.
  - change (0 =? 0) with true. cbv iota.
    destruct errs as [| e rest] eqn:Herrs; simpl; [left; reflexivity |].
    right.
    assert (Hall : forall x, x ∈ e :: rest -> x = - ENOENT).
    { intros x Hx.
      destruct (x =? - ENOENT) eqn:Ex; [now apply Z.eqb_eq |].
      exfalso. apply last_None in Hlast.
      assert (Hin : In x (other_errors (e :: rest))).
      { unfold other_errors. apply filter_In. split.
        - now apply list_elem_of_In.
        - now rewrite Ex. }
      rewrite Hlast in Hin. inversion Hin. }
    rewrite <- (Hall e) by left.
    apply (Hsub e 0%nat). unfold errs in Herrs. rewrite Herrs. left.
Qed.
End PassFrame.

(** The first and the last descriptor have no driver, the second fails to
    bind: all three are handed to the binder. *)
Lemma bind_drivers_pass_in_order_witness :
  let s := Board.gd0 (Some Board.root_device) [] in
  let out := bind_drivers_pass (Board.cfg false false) Board.ext
               (Board.info_tables Board.infos_absent)
               (Some Board.root_device) false s in
  let rets := [- ENOENT; - ENOMEM; - ENOENT] in
  length rets = 3%nat
  /\ snd out
     = {| gd_dm_root := Some Board.root_device;
          gd_dm_driver_rt := [];
          gd_world := [];
          gd_trace := [] ++ Enter_bind_drivers_pass
                      :: calls_in_order (Some Board.root_device) false 0
                                        rets |}
  /\ (fst out = 0 \/ fst out ∈ rets).
Proof.
  exact (bind_drivers_pass_in_order (Board.cfg false false) Board.ext
           (Board.info_tables Board.infos_absent) (Some Board.root_device)
           false (Board.gd0 (Some Board.root_device) []) eq_refl).
Defined.

Lemma driver_rt_dev_Some (rt : list (option udevice)) (z : Z) (d : udevice) :
  driver_rt_dev rt z = Some d
  <-> 0 <= z /\ rt !! Z.to_nat z = Some (Some d).
Proof.
  unfold driver_rt_dev. destruct (z <? 0) eqn:E.
  - apply Z.ltb_lt in E. split; [discriminate | intros [H _]; lia].
  - apply Z.ltb_ge in E.
    destruct (rt !! Z.to_nat z) as [[d' |] |]; split;
      try discriminate; try (intros [_ H]; discriminate H).
    + intros [= ->]. auto.
    + intros [_ [= ->]]. reflexivity.
Qed.

Lemma follows_parent_rule_mono (cfg : dm_config) (tbl : dm_tables)
    (parent : option udevice) (rt rt' : list (option udevice)) (e : event) :
  (OF_PLATDATA cfg = true ->
   forall i d, rt !! i = Some (Some d) -> rt' !! i = Some (Some d)) ->
  follows_parent_rule cfg tbl parent rt e ->
  follows_parent_rule cfg tbl parent rt' e.
Proof.
  intros Hkeep. destruct e as [par pre idx ret | | | | | |]; simpl; auto.
  intros (entry & Hentry & Hrule). exists entry. split; [exact Hentry |].
  destruct (uses_parent_slot cfg entry) eqn:Huse; [| exact Hrule].
  destruct Hrule as (pdev & -> & Hpos & Hslot).
  exists pdev. repeat split; auto.
  apply Hkeep; [| exact Hslot].
  unfold uses_parent_slot in Huse.
  destruct (OF_PLATDATA cfg); [reflexivity | discriminate].
Qed.

Section PassParents.
Context {W : Type}.
Variable cfg : dm_config.
Variable ext : dm_externals W.
Variable tbl : dm_tables.
Variable parent : option udevice.
Variable pre_reloc_only : bool.

Local Abbreviation pass_loop :=
  (bind_drivers_loop cfg ext parent pre_reloc_only).
Local Abbreviation pass := (bind_drivers_pass cfg ext tbl parent pre_reloc_only).
Local Abbreviation state_after :=
  (after_passes cfg ext tbl parent pre_reloc_only).

(** The loop body, with the parent it binds under. *)
Lemma bind_drivers_body_parent (idx : nat) (entry : driver_info) (result : Z)
    (mp : bool) (s : global_data W) :
  let body := bind_drivers_body cfg ext parent pre_reloc_only idx entry
                                result mp s in
  body = ((result, mp), s)
  \/ (uses_parent_slot cfg entry = true /\ body = ((result, true), s))
  \/ exists par,
       body = bind_entry cfg ext par pre_reloc_only idx entry result mp s
       /\ (OF_PLATDATA cfg = true ->
           forall d, gd_dm_driver_rt s !! idx <> Some (Some d))
       /\ if uses_parent_slot cfg entry
          then exists pdev,
                 par = Some pdev
                 /\ driver_rt_dev (gd_dm_driver_rt s) (parent_idx entry)
                    = Some pdev
          else par = parent.
Proof.
  intros body. unfold body, bind_drivers_body, uses_parent_slot, mbind, gets,
    mret.
  destruct (OF_PLATDATA cfg) eqn:Hof; simpl.
  - destruct (driver_rt_dev (gd_dm_driver_rt s) (Z.of_nat idx)) as [d |] eqn:Hd;
      [left; reflexivity |].
    assert (Hfree : forall d, gd_dm_driver_rt s !! idx <> Some (Some d)).
    { intros d Hl. rewrite driver_rt_dev_nat, Hl in Hd. discriminate Hd. }
    destruct (OF_PLATDATA_PARENT cfg); simpl.
    + destruct (negb (parent_idx entry =? -1)).
      * destruct (driver_rt_dev (gd_dm_driver_rt s) (parent_idx entry))
          as [pdev |] eqn:Hp.
        -- right. right. exists (Some pdev). repeat split; eauto.
        -- right. left. auto.
      * right. right. exists parent. auto.
    + right. right. exists parent. auto.
  - right. right. exists parent. repeat split; auto; try discriminate.
Qed.

Lemma bind_drivers_loop_parents (entries : list driver_info) :
  forall (idx : nat) (result : Z) (mp : bool) (s : global_data W),
    (forall k entry, entries !! k = Some entry ->
                     ll_driver_info tbl !! (idx + k)%nat = Some entry) ->
    exists evs,
      gd_trace (snd (pass_loop entries idx result mp s)) = gd_trace s ++ evs
      /\ Forall (follows_parent_rule cfg tbl parent
                   (gd_dm_driver_rt (snd (pass_loop entries idx result mp s))))
                evs.
Proof.
  induction entries as [| entry entries IH]; intros idx result mp s Htbl.
  - exists []. simpl. rewrite app_nil_r. auto.
  - assert (Htbl' : forall k e, entries !! k = Some e ->
                      ll_driver_info tbl !! (S idx + k)%nat = Some e).
    { intros k e Hk. replace (S idx + k)%nat with (idx + S k)%nat by lia.
      now apply Htbl. }
    assert (Hentry : ll_driver_info tbl !! idx = Some entry).
    { rewrite <- (Nat.add_0_r idx). now apply Htbl. }
    rewrite bind_drivers_loop_cons. cbv zeta.
    destruct (bind_drivers_body_parent idx entry result mp s)
      as [Hb | [[_ Hb] | (par & Hb & Hfree & Hpar)]]; rewrite Hb;
      cbn [fst snd].
    + now apply IH.
    + now apply IH.
    + rewrite bind_entry_eq.
      destruct (device_bind_by_name ext par pre_reloc_only entry (gd_world s))
        as [[ret dev] w]. cbv zeta.
      assert (Hstep : forall (r : Z) (t : global_data W),
        gd_trace t = gd_trace s
                     ++ [Call_device_bind_by_name par pre_reloc_only idx ret] ->
        (OF_PLATDATA cfg = true ->
         forall i d, gd_dm_driver_rt s !! i = Some (Some d) ->
                     gd_dm_driver_rt t !! i = Some (Some d)) ->
        exists evs,
          gd_trace (snd (pass_loop entries (S idx) r mp t)) = gd_trace s ++ evs
          /\ Forall (follows_parent_rule cfg tbl parent
                       (gd_dm_driver_rt (snd (pass_loop entries (S idx) r mp t))))
                    evs).
      { intros r t Ht Hkeep.
        destruct (IH (S idx) r mp t Htbl') as (evs & Hevs & Hall).
        exists (Call_device_bind_by_name par pre_reloc_only idx ret :: evs).
        split; [rewrite Hevs, Ht, <- app_assoc; reflexivity |].
        constructor; [| exact Hall].
        simpl. exists entry. split; [exact Hentry |].
        destruct (uses_parent_slot cfg entry) eqn:Huse; [| exact Hpar].
        destruct Hpar as (pdev & -> & Hp).
        apply driver_rt_dev_Some in Hp as [Hpos Hslot].
        exists pdev. repeat split; auto.
        assert (Hof : OF_PLATDATA cfg = true).
        { unfold uses_parent_slot in Huse.
          destruct (OF_PLATDATA cfg); [reflexivity | discriminate]. }
        apply (bind_drivers_loop_keeps cfg ext parent pre_reloc_only Hof).
        now apply Hkeep. }
      destruct (ret =? 0); cbn [fst snd]; apply Hstep; try reflexivity.
      * intros Hof i d Hi. simpl. rewrite Hof.
        rewrite list_lookup_insert_ne; [exact Hi |].
        intros <-. exact (Hfree Hof d Hi).
      * intros _ i d Hi. exact Hi.
Qed.

Lemma bind_drivers_pass_parents (s : global_data W) :
  exists evs,
    gd_trace (snd (pass s)) = gd_trace s ++ evs
    /\ Forall (follows_parent_rule cfg tbl parent
                 (gd_dm_driver_rt (snd (pass s)))) evs.
Proof.
  rewrite bind_drivers_pass_eq. cbv zeta. cbn [snd].
  match goal with |- context [pass_loop ?es ?i ?r ?m ?t] =>
    destruct (bind_drivers_loop_parents es i r m t) as (evs & Ht & Hall)
  end.
  { intros k entry Hk. exact Hk. }
  exists (Enter_bind_drivers_pass :: evs). split.
  - rewrite Ht. simpl. rewrite <- app_assoc. reflexivity.
  - constructor; [exact I | exact Hall].
Qed.

Lemma after_passes_parents (k : nat) : forall s : global_data W,
  exists evs,
    gd_trace (state_after k s) = gd_trace s ++ evs
    /\ Forall (follows_parent_rule cfg tbl parent
                 (gd_dm_driver_rt (state_after k s))) evs.
Proof.
  induction k as [| k IH]; intros s; simpl.
  - exists []. rewrite app_nil_r. auto.
  - destruct (bind_drivers_pass_parents s) as (e1 & H1 & F1).
    destruct (IH (snd (pass s))) as (e2 & H2 & F2).
    exists (e1 ++ e2). split; [rewrite H2, H1, <- app_assoc; reflexivity |].
    apply Forall_app. split; [| exact F2].
    eapply Forall_impl; [exact F1 |].
    intros e. apply follows_parent_rule_mono.
    intros Hof i d Hi.
    apply (after_passes_keeps cfg ext tbl parent pre_reloc_only Hof i d k
             (snd (pass s)) Hi).
Qed.

(** X13.  In a run of [lists_bind_drivers], every call of
    [device_bind_by_name] follows the parent rule: a descriptor that
    names a parent (under [OF_PLATDATA] and [OF_PLATDATA_PARENT]) is bound
    under the device that the slot of its parent holds, a slot that still
    holds that device when the run ends; any other descriptor is bound
    under the parent the run was given.  So no descriptor is bound before
    its parent. *)
Theorem lists_bind_drivers_parent_rule (s : global_data W) :
  let s' := snd (lists_bind_drivers cfg ext tbl parent pre_reloc_only s) in
  exists evs,
    gd_trace s' = gd_trace s ++ evs
    /\ Forall (follows_parent_rule cfg tbl parent (gd_dm_driver_rt s')) evs.
Proof.
  unfold lists_bind_drivers.
  destruct (lists_bind_drivers_loop_passes cfg ext tbl parent pre_reloc_only
              9 0 s (or_introl eq_refl)) as (k & _ & Hst & _).
  cbv zeta. rewrite Hst. apply after_passes_parents.
Qed.
End PassParents.

Example lists_bind_drivers_parent_rule_out_of_order :
  let out := lists_bind_drivers (Board.cfg true true) Board.ext
               (Board.info_tables Board.infos_out_of_order)
               (Some Board.root_device) false
               (Board.gd0 (Some Board.root_device) [None; None]) in
  let parent_dev := Board.new_device "parent" (Board.plain_driver "parent")
                                     None in
  gd_trace (snd out)
  = [Enter_bind_drivers_pass;
     Call_device_bind_by_name (Some Board.root_device) false 1 0;
     Enter_bind_drivers_pass;
     Call_device_bind_by_name (Some parent_dev) false 0 0].
Proof. reflexivity. Qed.

Lemma fold_record_error_cases (errs : list Z) :
  Forall (fun e => e <> 0) errs ->
  fold_left record_error errs 0 = 0
  \/ fold_left record_error errs 0 ∈ errs.
Proof.
  intros Hnz. rewrite (fold_record_error _ 0 Hnz).
  change (0 =? 0) with true. cbv iota.
  destruct (last (other_errors errs)) as [e |] eqn:Hlast.
  - right. apply last_Some_elem_of in Hlast. unfold other_errors in Hlast.
    apply list_elem_of_In, filter_In in Hlast.
    now apply list_elem_of_In.
  - destruct errs as [| e rest]; [left; reflexivity |]. right.
    destruct (e =? - ENOENT) eqn:Ee.
    + apply Z.eqb_eq in Ee. subst e. left.
    + exfalso. apply last_None in Hlast. unfold other_errors in Hlast.
      simpl in Hlast. rewrite Ee in Hlast. discriminate Hlast.
Qed.

Section OnePass.
Context {W : Type}.
Variable cfg : dm_config.
Variable ext : dm_externals W.
Variable tbl : dm_tables.
Variable parent : option udevice.
Variable pre_reloc_only : bool.
Hypothesis no_parents : OF_PLATDATA cfg && OF_PLATDATA_PARENT cfg = false.
Hypothesis never_again :
  forall par entry w,
    fst (fst (device_bind_by_name ext par pre_reloc_only entry w)) <> - EAGAIN.

Local Abbreviation pass_loop :=
  (bind_drivers_loop cfg ext parent pre_reloc_only).
Local Abbreviation pass := (bind_drivers_pass cfg ext tbl parent pre_reloc_only).

Lemma bind_drivers_loop_no_parents (entries : list driver_info) :
  forall (idx : nat) (result : Z) (mp : bool) (s : global_data W),
    snd (fst (pass_loop entries idx result mp s)) = mp
    /\ exists evs,
         gd_trace (snd (pass_loop entries idx result mp s)) = gd_trace s ++ evs
         /\ Forall (fun e => e <> - EAGAIN) (pass_errors evs).
Proof.
  induction entries as [| entry entries IH]; intros idx result mp s.
  - split; [reflexivity |]. exists []. simpl. rewrite app_nil_r. auto.
  - rewrite bind_drivers_loop_cons. cbv zeta.
    destruct (bind_drivers_body_parent cfg ext parent pre_reloc_only idx entry
                result mp s)
      as [Hb | [[Huse _] | (par & Hb & _ & _)]].
    + rewrite Hb. apply IH.
    + unfold uses_parent_slot in Huse. rewrite no_parents in Huse.
      discriminate Huse.
    + rewrite Hb, bind_entry_eq.
      pose proof (never_again par entry (gd_world s)) as Hret.
      destruct (device_bind_by_name ext par pre_reloc_only entry (gd_world s))
        as [[ret dev] w]. cbv zeta. simpl in Hret.
      destruct (ret =? 0) eqn:E0; cbn [fst snd];
        match goal with |- context [pass_loop entries (S idx) ?r ?m ?t] =>
          destruct (IH (S idx) r m t) as (Hmp & evs & Ht & Hall)
        end;
        (split; [exact Hmp |]);
        exists (Call_device_bind_by_name par pre_reloc_only idx ret :: evs);
        simpl in Ht; rewrite Ht, <- app_assoc;
        (split; [reflexivity |]);
        change (Call_device_bind_by_name par pre_reloc_only idx ret :: evs)
          with ([Call_device_bind_by_name par pre_reloc_only idx ret] ++ evs);
        rewrite pass_errors_app; apply Forall_app; (split; [| exact Hall]);
        simpl; rewrite E0; simpl.
      * constructor.
      * destruct (ret =? - EPERM); repeat constructor. exact Hret.
Qed.

Lemma bind_drivers_pass_not_again (s : global_data W) :
  fst (pass s) <> - EAGAIN.
Proof.
  rewrite bind_drivers_pass_eq. cbv zeta. cbn [fst].
  match goal with |- context [pass_loop ?es ?i ?r ?m ?t] =>
    destruct (bind_drivers_loop_no_parents es i r m t)
      as (Hmp & evs & Ht & Hall);
    destruct (bind_drivers_loop_trace cfg ext parent pre_reloc_only
                es i r m t) as (evs' & Ht' & _ & Hres & _)
  end.
  rewrite Ht in Ht'. apply app_inv_head in Ht'. subst evs'.
  rewrite Hmp, Hres.
  destruct (fold_record_error_cases (pass_errors evs)
              (pass_errors_nonzero evs)) as [Hz | Hin].
  - rewrite Hz. simpl. discriminate.
  - rewrite Forall_forall in Hall. specialize (Hall _ Hin).
    destruct (negb (fold_left record_error (pass_errors evs) 0 =? 0));
      [exact Hall | discriminate].
Qed.
End OnePass.

(** X14.  Without [OF_PLATDATA_PARENT] (or without [OF_PLATDATA]), and
    with a binder that never returns [-EAGAIN], [lists_bind_drivers] makes
    exactly one pass: it returns what that pass returns and leaves the
    state that pass leaves. *)
Theorem lists_bind_drivers_one_pass {W : Type} (cfg : dm_config)
    (ext : dm_externals W) (tbl : dm_tables) (parent : option udevice)
    (pre_reloc_only : bool) (s : global_data W) :
  OF_PLATDATA cfg && OF_PLATDATA_PARENT cfg = false ->
  (forall par entry w,
      fst (fst (device_bind_by_name ext par pre_reloc_only entry w))
      <> - EAGAIN) ->
  lists_bind_drivers cfg ext tbl parent pre_reloc_only s
  = bind_drivers_pass cfg ext tbl parent pre_reloc_only s.
Proof.
  intros Hnp Hna.
  pose proof (bind_drivers_pass_not_again cfg ext tbl parent pre_reloc_only
                Hnp Hna s) as Hne.
  unfold lists_bind_drivers. simpl. unfold mbind at 1.
  destruct (bind_drivers_pass cfg ext tbl parent pre_reloc_only s)
    as [ret s1]. simpl in Hne.
  apply Z.eqb_neq in Hne. rewrite Hne. reflexivity.
Qed.

Lemma lists_bind_drivers_one_pass_witness :
  lists_bind_drivers (Board.cfg true false) Board.ext
    (Board.info_tables Board.infos_absent) (Some Board.root_device) false
    (Board.gd0 (Some Board.root_device) [None; None; None])
  = bind_drivers_pass (Board.cfg true false) Board.ext
      (Board.info_tables Board.infos_absent) (Some Board.root_device) false
      (Board.gd0 (Some Board.root_device) [None; None; None]).
Proof.
  apply lists_bind_drivers_one_pass; [reflexivity |].
  intros par entry w. unfold Board.ext, Board.bind_by_name. simpl.
  destruct (String.eqb (info_name entry) "absent"); [discriminate |].
  destruct (String.eqb (info_name entry) "nomem"); [discriminate |].
  destruct (String.eqb (info_name entry) "inval"); [discriminate |].
  destruct (String.eqb (info_name entry) "late"); simpl; discriminate.
Defined.

(** ** Descriptor trees of bounded depth *)

Lemma lists_bind_drivers_loop_S {W : Type} (cfg : dm_config)
    (ext : dm_externals W) (tbl : dm_tables) (parent : option udevice)
    (pre_reloc_only : bool) (n : nat) (result : Z) (s : global_data W) :
  lists_bind_drivers_loop cfg ext tbl (S n) parent pre_reloc_only result s
  = let out := bind_drivers_pass cfg ext tbl parent pre_reloc_only s in
    let result' :=
      if (result =? 0) || (result =? - EAGAIN) then fst out else result in
    if negb (fst out =? - EAGAIN) then (result', snd out)
    else lists_bind_drivers_loop cfg ext tbl n parent pre_reloc_only
                                 result' (snd out).
Proof.
  simpl. unfold mbind.
  destruct (bind_drivers_pass cfg ext tbl parent pre_reloc_only s)
    as [ret s1]. simpl.
  destruct (negb (ret =? - EAGAIN)); reflexivity.
Qed.

Section Depth.
Context {W : Type}.
Variable cfg : dm_config.
Variable ext : dm_externals W.
Variable tbl : dm_tables.
Variable parent : option udevice.
Variable pre_reloc_only : bool.
Variable level : nat -> nat.
Hypothesis of_platdata : OF_PLATDATA cfg = true.
Hypothesis binds :
  forall par entry w,
    entry ∈ ll_driver_info tbl ->
    exists d w',
      device_bind_by_name ext par pre_reloc_only entry w = (0, Some d, w').
Hypothesis parents_below :
  forall i entry,
    ll_driver_info tbl !! i = Some entry ->
    uses_parent_slot cfg entry = true ->
    exists p, parent_idx entry = Z.of_nat p
              /\ (p < length (ll_driver_info tbl))%nat
              /\ (level p < level i)%nat.

Local Abbreviation infos := (ll_driver_info tbl).
Local Abbreviation pass_loop :=
  (bind_drivers_loop cfg ext parent pre_reloc_only).
Local Abbreviation pass := (bind_drivers_pass cfg ext tbl parent pre_reloc_only).

Lemma bind_drivers_body_platdata (idx : nat) (entry : driver_info)
    (result : Z) (mp : bool) (s : global_data W) :
  let body := bind_drivers_body cfg ext parent pre_reloc_only idx entry
                                result mp s in
  (slot_filled (gd_dm_driver_rt s) idx /\ body = ((result, mp), s))
  \/ (~ slot_filled (gd_dm_driver_rt s) idx
      /\ uses_parent_slot cfg entry = true
      /\ driver_rt_dev (gd_dm_driver_rt s) (parent_idx entry) = None
      /\ body = ((result, true), s))
  \/ (~ slot_filled (gd_dm_driver_rt s) idx
      /\ exists par,
           body = bind_entry cfg ext par pre_reloc_only idx entry result mp s).
Proof.
  intros body. unfold body, bind_drivers_body, uses_parent_slot, mbind, gets,
    mret, slot_filled.
  rewrite of_platdata. simpl.
  destruct (driver_rt_dev (gd_dm_driver_rt s) (Z.of_nat idx)) as [d |] eqn:Hd.
  - left. split; [| reflexivity]. exists d.
    apply driver_rt_dev_Some in Hd as [_ Hd]. now rewrite Nat2Z.id in Hd.
  - assert (Hfree : ~ (exists d, gd_dm_driver_rt s !! idx = Some (Some d))).
    { intros [d Hl]. rewrite driver_rt_dev_nat, Hl in Hd. discriminate Hd. }
    destruct (OF_PLATDATA_PARENT cfg); simpl.
    + destruct (negb (parent_idx entry =? -1)).
      * destruct (driver_rt_dev (gd_dm_driver_rt s) (parent_idx entry))
          as [pdev |] eqn:Hp.
        -- right. right. split; [exact Hfree |]. eauto.
        -- right. left. auto.
      * right. right. split; [exact Hfree |]. eauto.
    + right. right. split; [exact Hfree |]. eauto.
Qed.

(** The loop of a pass, when every descriptor below level [k] has its
    slot filled: it fills the slots of the descriptors below level
    [k + 1], records no error, and asks for another pass only when some
    descriptor is above level [k]. *)
Lemma bind_drivers_loop_level (k : nat) (entries : list driver_info) :
  forall (idx : nat) (mp : bool) (s : global_data W),
    (forall j e, entries !! j = Some e -> infos !! (idx + j)%nat = Some e) ->
    (idx + length entries = length infos)%nat ->
    length (gd_dm_driver_rt s) = length infos ->
    (forall i, (i < length infos)%nat -> (level i < k)%nat ->
               slot_filled (gd_dm_driver_rt s) i) ->
    (forall j, (j < idx)%nat -> (level j < S k)%nat ->
               slot_filled (gd_dm_driver_rt s) j) ->
    (mp = false -> forall j, (j < idx)%nat ->
                             slot_filled (gd_dm_driver_rt s) j) ->
    (mp = true -> exists i, (i < length infos)%nat /\ (k < level i)%nat) ->
    let out := pass_loop entries idx 0 mp s in
    fst (fst out) = 0
    /\ length (gd_dm_driver_rt (snd out)) = length infos
    /\ (forall i, (i < length infos)%nat -> (level i < S k)%nat ->
                  slot_filled (gd_dm_driver_rt (snd out)) i)
    /\ (snd (fst out) = false ->
        forall j, (j < length infos)%nat ->
                  slot_filled (gd_dm_driver_rt (snd out)) j)
    /\ (snd (fst out) = true ->
        exists i, (i < length infos)%nat /\ (k < level i)%nat).
Proof.
  induction entries as [| entry entries IH];
    intros idx mp s Htbl Hend Hlen Hinv Hdone Hall Hmp.
  - simpl in *. rewrite Nat.add_0_r in Hend. subst idx.
    repeat split; auto.
  - assert (Htbl' : forall j e, entries !! j = Some e ->
                      infos !! (S idx + j)%nat = Some e).
    { intros j e Hj. replace (S idx + j)%nat with (idx + S j)%nat by lia.
      now apply Htbl. }
    assert (Hentry : infos !! idx = Some entry).
    { rewrite <- (Nat.add_0_r idx). now apply Htbl. }
    assert (Hend' : (S idx + length entries = length infos)%nat)
      by (simpl in Hend; lia).
    assert (Hidx : (idx < length infos)%nat) by (simpl in Hend; lia).
    rewrite bind_drivers_loop_cons. cbv zeta.
    destruct (bind_drivers_body_platdata idx entry 0 mp s)
      as [[Hfilled Hb] | [(Hfree & Huse & Hp & Hb) | (Hfree & par & Hb)]];
      rewrite Hb; cbn [fst snd].
    + apply IH; auto.
      * intros j Hj Hlv. destruct (Nat.eq_dec j idx) as [-> | Hne];
          [exact Hfilled | apply Hdone; [lia | exact Hlv]].
      * intros Hm j Hj. destruct (Nat.eq_dec j idx) as [-> | Hne];
          [exact Hfilled | apply Hall; [exact Hm | lia]].
    + destruct (parents_below idx entry Hentry Huse) as (p & Hpi & Hpn & Hpl).
      assert (Hpk : ~ (level p < k)%nat).
      { intros Hlt. destruct (Hinv p Hpn Hlt) as [d Hd].
        rewrite Hpi in Hp.
        assert (Hs : driver_rt_dev (gd_dm_driver_rt s) (Z.of_nat p) = Some d).
        { apply driver_rt_dev_Some. split; [lia |]. now rewrite Nat2Z.id. }
        congruence. }
      apply IH; auto.
      * intros j Hj Hlv. destruct (Nat.eq_dec j idx) as [-> | Hne];
          [lia | apply Hdone; [lia | exact Hlv]].
      * discriminate.
      * intros _. exists idx. split; [exact Hidx | lia].
    + rewrite bind_entry_eq.
      destruct (binds par entry (gd_world s)) as (d & w' & Hbind).
      { apply list_elem_of_lookup. eauto. }
      rewrite Hbind. cbv zeta. change (0 =? 0) with true. cbv iota.
      rewrite of_platdata.
      assert (Hkeep : forall i,
                slot_filled (gd_dm_driver_rt s) i ->
                slot_filled (<[idx := Some d]> (gd_dm_driver_rt s)) i).
      { intros i [d' Hi]. exists d'.
        rewrite list_lookup_insert_ne; [exact Hi |].
        intros Heq. subst i. apply Hfree. exists d'. exact Hi. }
      assert (Hnow : slot_filled (<[idx := Some d]> (gd_dm_driver_rt s)) idx).
      { exists d. apply list_lookup_insert_eq. rewrite Hlen. exact Hidx. }
      cbn [fst snd]. apply IH; cbn [gd_dm_driver_rt]; auto.
      * rewrite length_insert. exact Hlen.
      * intros j Hj Hlv. destruct (Nat.eq_dec j idx) as [-> | Hne];
          [exact Hnow | apply Hkeep, Hdone; [lia | exact Hlv]].
      * intros Hm j Hj. destruct (Nat.eq_dec j idx) as [-> | Hne];
          [exact Hnow | apply Hkeep, Hall; [exact Hm | lia]].
Qed.

Lemma bind_drivers_pass_level (k : nat) (s : global_data W) :
  length (gd_dm_driver_rt s) = length infos ->
  (forall i, (i < length infos)%nat -> (level i < k)%nat ->
             slot_filled (gd_dm_driver_rt s) i) ->
  length (gd_dm_driver_rt (snd (pass s))) = length infos
  /\ (forall i, (i < length infos)%nat -> (level i < S k)%nat ->
                slot_filled (gd_dm_driver_rt (snd (pass s))) i)
  /\ ((fst (pass s) = 0
       /\ forall j, (j < length infos)%nat ->
                    slot_filled (gd_dm_driver_rt (snd (pass s))) j)
      \/ (fst (pass s) = - EAGAIN
          /\ exists i, (i < length infos)%nat /\ (k < level i)%nat)).
Proof.
  intros Hlen Hinv. rewrite bind_drivers_pass_eq. cbv zeta. cbn [fst snd].
  match goal with |- context [pass_loop infos 0%nat 0 false ?t] =>
    destruct (bind_drivers_loop_level k infos 0 false t)
      as (Hres & Hlen' & Hinv' & Hall & Hmp); auto;
      try (intros; lia); try discriminate
  end.
  rewrite Hres. simpl.
  repeat split; auto.
  destruct (snd (fst (pass_loop infos 0%nat 0 false _))) eqn:Emp.
  - right. split; [reflexivity | now apply Hmp].
  - left. split; [reflexivity | now apply Hall].
Qed.

Lemma lists_bind_drivers_loop_level (m : nat) :
  forall (k : nat) (result : Z) (s : global_data W),
    (result = 0 \/ result = - EAGAIN) ->
    length (gd_dm_driver_rt s) = length infos ->
    (forall i, (i < length infos)%nat -> (level i < k)%nat ->
               slot_filled (gd_dm_driver_rt s) i) ->
    (forall i, (i < length infos)%nat -> (level i < k + S m)%nat) ->
    let out := lists_bind_drivers_loop cfg ext tbl (S m) parent pre_reloc_only
                                       result s in
    fst out = 0
    /\ forall j, (j < length infos)%nat ->
                 slot_filled (gd_dm_driver_rt (snd out)) j.
Proof.
  assert (Hstep : forall (n : nat) (k : nat) (result : Z) (s : global_data W),
    (result = 0 \/ result = - EAGAIN) ->
    length (gd_dm_driver_rt s) = length infos ->
    (forall i, (i < length infos)%nat -> (level i < k)%nat ->
               slot_filled (gd_dm_driver_rt s) i) ->
    (fst (pass s) = 0
     /\ lists_bind_drivers_loop cfg ext tbl (S n) parent pre_reloc_only
                                 result s = (0, snd (pass s))
     /\ forall j, (j < length infos)%nat ->
                  slot_filled (gd_dm_driver_rt (snd (pass s))) j)
    \/ (lists_bind_drivers_loop cfg ext tbl (S n) parent pre_reloc_only
                                 result s
         = lists_bind_drivers_loop cfg ext tbl n parent pre_reloc_only
                                   (- EAGAIN) (snd (pass s))
         /\ length (gd_dm_driver_rt (snd (pass s))) = length infos
         /\ (forall i, (i < length infos)%nat -> (level i < S k)%nat ->
                       slot_filled (gd_dm_driver_rt (snd (pass s))) i)
         /\ exists i, (i < length infos)%nat /\ (k < level i)%nat)).
  { intros n k result s Hres Hlen Hinv.
    rewrite lists_bind_drivers_loop_S. cbv zeta.
    assert (Hres' : (if (result =? 0) || (result =? - EAGAIN)
                     then fst (pass s) else result) = fst (pass s))
      by (destruct Hres as [-> | ->]; reflexivity).
    rewrite Hres'.
    destruct (bind_drivers_pass_level k s Hlen Hinv)
      as (Hlen1 & Hinv1 & [[Hr Hall] | [Hr Hex]]); rewrite Hr; simpl.
    - left. auto.
    - right. auto. }
  induction m as [| m IH]; intros k result s Hres Hlen Hinv Hmax; cbv zeta.
  - destruct (Hstep 0%nat k result s Hres Hlen Hinv)
      as [(_ & -> & Hall) | (_ & _ & _ & i & Hi & Hk)].
    + split; [reflexivity | exact Hall].
    + specialize (Hmax i Hi). lia.
  - destruct (Hstep (S m) k result s Hres Hlen Hinv)
      as [(_ & -> & Hall) | (-> & Hlen1 & Hinv1 & _)].
    + split; [reflexivity | exact Hall].
    + apply (IH (S k)); auto.
      intros j Hj. specialize (Hmax j Hj). lia.
Qed.
End Depth.

(** X15.  Ten passes are enough for descriptors nested at most ten deep.
    With [OF_PLATDATA], a runtime table with one slot per descriptor, a
    binder that binds every descriptor of the table, and descriptors that
    can be given levels below 10 such that a descriptor that names a
    parent names a descriptor of the table on a lower level:
    [lists_bind_drivers] returns 0 and leaves every slot filled, in
    whatever order the descriptors stand in the table. *)
Theorem lists_bind_drivers_depth {W : Type} (cfg : dm_config)
    (ext : dm_externals W) (tbl : dm_tables) (parent : option udevice)
    (pre_reloc_only : bool) (level : nat -> nat) (s : global_data W) :
  OF_PLATDATA cfg = true ->
  (forall par entry w,
      entry ∈ ll_driver_info tbl ->
      exists d w',
        device_bind_by_name ext par pre_reloc_only entry w = (0, Some d, w')) ->
  (forall i entry,
      ll_driver_info tbl !! i = Some entry ->
      uses_parent_slot cfg entry = true ->
      exists p, parent_idx entry = Z.of_nat p
                /\ (p < length (ll_driver_info tbl))%nat
                /\ (level p < level i)%nat) ->
  (forall i, (i < length (ll_driver_info tbl))%nat -> (level i < 10)%nat) ->
  length (gd_dm_driver_rt s) = length (ll_driver_info tbl) ->
  let out := lists_bind_drivers cfg ext tbl parent pre_reloc_only s in
  fst out = 0
  /\ forall j, (j < length (ll_driver_info tbl))%nat ->
               slot_filled (gd_dm_driver_rt (snd out)) j.
Proof.
  intros Hof Hbinds Hparents Hmax Hlen. unfold lists_bind_drivers.
  apply (lists_bind_drivers_loop_level cfg ext tbl parent pre_reloc_only level
           Hof Hbinds Hparents 9 0 0 s); auto.
  intros i _ Hlt. lia.
Qed.

Lemma lists_bind_drivers_depth_witness :
  let out := lists_bind_drivers (Board.cfg true true) Board.ext
               (Board.info_tables Board.infos_out_of_order)
               (Some Board.root_device) false
               (Board.gd0 (Some Board.root_device) [None; None]) in
  fst out = 0
  /\ forall j, (j < 2)%nat -> slot_filled (gd_dm_driver_rt (snd out)) j.
Proof.
  apply (lists_bind_drivers_depth (Board.cfg true true) Board.ext
           (Board.info_tables Board.infos_out_of_order)
           (Some Board.root_device) false
           (fun i => match i with O => 1%nat | _ => 0%nat end)).
  - reflexivity.
  - intros par entry w He. apply list_elem_of_In in He. simpl in He.
    destruct He as [<- | [<- | []]]; eexists; eexists; reflexivity.
  - intros [| [| i]] entry Hl Hu; simpl in Hl; try discriminate;
      inversion Hl; subst entry.
    + exists 1%nat. simpl. repeat split; lia.
    + discriminate Hu.
  - intros [| [| i]] Hi; simpl in *; lia.
  - reflexivity.
Defined.

(** ** Scanning the subnodes of a node *)

Section ScanProps.
Context {W : Type}.
Variable cfg : dm_config.
Variable ext : dm_externals W.
Variable tbl : dm_tables.
Variable parent : option udevice.
Variable pre_reloc_only : bool.

Local Abbreviation scan := (scan_subnodes cfg ext tbl parent).

Lemma scan_subnodes_app (a b : list ofnode) : forall (ret : Z) (s : global_data W),
  scan (a ++ b) pre_reloc_only ret s
  = scan b pre_reloc_only (fst (scan a pre_reloc_only ret s))
         (snd (scan a pre_reloc_only ret s)).
Proof.
  induction a as [| n a IH]; intros ret s; simpl; [reflexivity |].
  destruct (negb (ofnode_is_enabled n)); [apply IH |].
  unfold mbind.
  destruct (lists_bind_fdt cfg ext tbl parent n None pre_reloc_only s)
    as [[err dev] s1].
  apply IH.
Qed.

(** An error that is remembered is kept, and changes nothing of what the
    rest of the scan does. *)
Lemma scan_subnodes_sticky (nodes : list ofnode) :
  forall (ret : Z) (s : global_data W),
    ret <> 0 ->
    scan nodes pre_reloc_only ret s
    = (ret, snd (scan nodes pre_reloc_only 0 s)).
Proof.
  induction nodes as [| n nodes IH]; intros ret s Hne; simpl;
    [reflexivity |].
  destruct (negb (ofnode_is_enabled n)); [now apply IH |].
  unfold mbind.
  destruct (lists_bind_fdt cfg ext tbl parent n None pre_reloc_only s)
    as [[err dev] s1].
  apply Z.eqb_neq in Hne. rewrite Hne, andb_false_r.
  apply Z.eqb_neq in Hne. rewrite (IH ret s1 Hne).
  change (0 =? 0) with true. rewrite andb_true_r.
  destruct (negb (err =? 0)) eqn:Eerr; [| reflexivity].
  apply negb_true_iff, Z.eqb_neq in Eerr.
  rewrite (IH err s1 Eerr). reflexivity.
Qed.

(** X16.  [dm_scan_fdt_node] does not stop at a node that fails to bind.
    When the enabled nodes before [node] bind without error and
    [lists_bind_fdt] fails on [node] with [err], the scan returns [err],
    and it has scanned the nodes after [node] exactly as a scan that
    starts after [node] with no error does. *)
Theorem scan_subnodes_first_error (before after : list ofnode) (node : ofnode)
    (s s1 s2 : global_data W) (err : Z) (dev : option udevice) :
  scan before pre_reloc_only 0 s = (0, s1) ->
  ofnode_is_enabled node = true ->
  lists_bind_fdt cfg ext tbl parent node None pre_reloc_only s1
  = ((err, dev), s2) ->
  err <> 0 ->
  scan (before ++ node :: after) pre_reloc_only 0 s
  = (err, snd (scan after pre_reloc_only 0 s2)).
Proof.
  intros Hbefore Hen Hbind Herr.
  rewrite scan_subnodes_app, Hbefore. simpl. rewrite Hen. simpl.
  unfold mbind. rewrite Hbind.
  apply Z.eqb_neq in Herr. rewrite Herr. simpl.
  apply scan_subnodes_sticky. now apply Z.eqb_neq.
Qed.

(** X17.  A disabled subnode is never looked at: scanning a list of nodes
    gives the same result and the same state as scanning the enabled ones
    among them. *)
Theorem scan_subnodes_enabled_only (nodes : list ofnode) (ret : Z)
    (s : global_data W) :
  scan nodes pre_reloc_only ret s
  = scan (List.filter ofnode_is_enabled nodes) pre_reloc_only ret s.
Proof.
  revert ret s. induction nodes as [| n nodes IH]; intros ret s; simpl;
    [reflexivity |].
  destruct (ofnode_is_enabled n) eqn:En; simpl.
  - rewrite En. simpl. unfold mbind.
    destruct (lists_bind_fdt cfg ext tbl parent n None pre_reloc_only s)
      as [[err dev] s1].
    apply IH.
  - apply IH.
Qed.

Lemma scan_subnodes_frame (nodes : list ofnode) :
  forall (ret : Z) (s : global_data W),
  exists evs,
    gd_trace (snd (scan nodes pre_reloc_only ret s)) = gd_trace s ++ evs
    /\ Forall (binds_enabled_node parent nodes) evs
    /\ gd_dm_root (snd (scan nodes pre_reloc_only ret s)) = gd_dm_root s
    /\ gd_dm_driver_rt (snd (scan nodes pre_reloc_only ret s))
       = gd_dm_driver_rt s.
Proof.
  induction nodes as [| n nodes IH]; intros ret s; simpl.
  - exists []. rewrite app_nil_r. auto.
  - assert (Hweak : forall e, binds_enabled_node parent nodes e ->
                              binds_enabled_node parent (n :: nodes) e).
    { intros e (pos & nm & md & nd & r & -> & Hin & Hen).
      exists pos, nm, md, nd, r. repeat split; auto. now right. }
    destruct (ofnode_is_enabled n) eqn:En; simpl.
    + unfold mbind.
      pose proof (loop_outcome cfg ext tbl parent n None pre_reloc_only) as Hl.
      assert (Hone : exists evs,
        gd_trace (snd (lists_bind_fdt cfg ext tbl parent n None
                                      pre_reloc_only s)) = gd_trace s ++ evs
        /\ Forall (binds_enabled_node parent (n :: nodes)) evs
        /\ gd_dm_root (snd (lists_bind_fdt cfg ext tbl parent n None
                                           pre_reloc_only s)) = gd_dm_root s
        /\ gd_dm_driver_rt (snd (lists_bind_fdt cfg ext tbl parent n None
                                                pre_reloc_only s))
           = gd_dm_driver_rt s).
      { unfold lists_bind_fdt.
        destruct (ofnode_get_property n) as [bytes | len].
        - destruct (Hl (compat_strings bytes) s)
            as (refused & tail & Ht & _ & _ & Hroot & Hrt & Hall & _).
          exists (refused ++ tail). repeat split; auto.
          eapply Forall_impl; [exact Hall |].
          intros e (p & d & nm & md & r & -> & _).
          exists p, nm, md, n, r. repeat split; auto. left.
        - exists [].
          destruct (len =? - FDT_ERR_NOTFOUND); simpl; rewrite app_nil_r;
            auto. }
      destruct (lists_bind_fdt cfg ext tbl parent n None pre_reloc_only s)
        as [[err dev] s1].
      destruct Hone as (e1 & H1 & F1 & R1 & T1). simpl in H1, R1, T1.
      match goal with |- context [scan nodes pre_reloc_only ?r s1] =>
        destruct (IH r s1) as (e2 & H2 & F2 & R2 & T2)
      end.
      exists (e1 ++ e2). rewrite H2, H1, R2, R1, T2, T1, <- app_assoc.
      repeat split; auto.
      apply Forall_app. split; [exact F1 |].
      eapply Forall_impl; [exact F2 | exact Hweak].
    + destruct (IH ret s) as (evs & Ht & Hall & Hr & Hrt).
      exists evs. repeat split; auto.
      eapply Forall_impl; [exact Hall | exact Hweak].
Qed.

(** X18.  [dm_scan_fdt_node] walks one level only: every call of the
    binder it makes is under the parent it was given and for an enabled
    direct subnode of the node it was given; an invalid node gives no
    call.  It leaves the root handle and the runtime table alone. *)
Theorem dm_scan_fdt_node_one_level (parent_node : option ofnode)
    (s : global_data W) :
  let out := dm_scan_fdt_node cfg ext tbl parent parent_node pre_reloc_only s in
  exists evs,
    gd_trace (snd out) = gd_trace s ++ evs
    /\ Forall (binds_enabled_node parent
                 (match parent_node with
                  | Some pn => ofnode_subnodes pn
                  | None => []
                  end)) evs
    /\ gd_dm_root (snd out) = gd_dm_root s
    /\ gd_dm_driver_rt (snd out) = gd_dm_driver_rt s.
Proof.
  unfold dm_scan_fdt_node. destruct parent_node as [pn |].
  - apply scan_subnodes_frame.
  - exists []. simpl. rewrite app_nil_r. auto.
Qed.
End ScanProps.

(** The first node fails with [-EINVAL]; the second is bound all the
    same. *)
Lemma scan_subnodes_first_error_witness :
  let s := Board.gd0 (Some Board.root_device) [] in
  let out := scan_subnodes (Board.cfg false false) Board.ext
               Board.scan_tables (Some Board.root_device)
               [Board.bad_node; Board.fb_node] false 0 s in
  fst out = - EINVAL
  /\ gd_world (snd out) = ["fb"%string].
Proof.
  intros s out.
  pose proof (scan_subnodes_first_error (Board.cfg false false) Board.ext
                Board.scan_tables (Some Board.root_device) false []
                [Board.fb_node] Board.bad_node s s _ (- EINVAL) None
                eq_refl eq_refl eq_refl) as H.
  unfold out. simpl app in H. rewrite H by discriminate.
  split; reflexivity.
Defined.

Section ExtendedScanMore.
Context {W : Type}.
Variable cfg : dm_config.
Variable ext : dm_externals W.
Variable tbl : dm_tables.
Variable pre_reloc_only : bool.

Lemma binds_enabled_node_incl (parent : option udevice)
    (nodes nodes' : list ofnode) (e : event) :
  (forall n, n ∈ nodes -> n ∈ nodes') ->
  binds_enabled_node parent nodes e -> binds_enabled_node parent nodes' e.
Proof.
  intros Hincl (pos & nm & md & nd & r & -> & Hin & Hen).
  exists pos, nm, md, nd, r. auto.
Qed.

Lemma dm_scan_fdt_node_frame (parent : option udevice)
    (parent_node : option ofnode) (s : global_data W) :
  exists evs,
    gd_trace (snd (dm_scan_fdt_node cfg ext tbl parent parent_node
                                    pre_reloc_only s)) = gd_trace s ++ evs
    /\ Forall (binds_enabled_node parent
                 (match parent_node with
                  | Some pn => ofnode_subnodes pn
                  | None => []
                  end)) evs
    /\ gd_dm_root (snd (dm_scan_fdt_node cfg ext tbl parent parent_node
                                         pre_reloc_only s)) = gd_dm_root s
    /\ gd_dm_driver_rt (snd (dm_scan_fdt_node cfg ext tbl parent parent_node
                                              pre_reloc_only s))
       = gd_dm_driver_rt s.
Proof.
  unfold dm_scan_fdt_node. destruct parent_node as [pn |].
  - apply scan_subnodes_frame.
  - exists []. simpl. rewrite app_nil_r. auto.
Qed.

Lemma extended_scan_loop_frame (paths : list string) :
  forall (ret : Z) (s : global_data W),
  exists evs,
    gd_trace (snd (extended_scan_loop cfg ext tbl paths pre_reloc_only ret s))
    = gd_trace s ++ evs
    /\ Forall (binds_enabled_node (gd_dm_root s)
                 (flat_map (fun pn => match pn with
                                      | Some n => ofnode_subnodes n
                                      | None => []
                                      end)
                           (map (ofnode_path tbl) paths))) evs
    /\ gd_dm_root (snd (extended_scan_loop cfg ext tbl paths pre_reloc_only
                                           ret s)) = gd_dm_root s
    /\ gd_dm_driver_rt (snd (extended_scan_loop cfg ext tbl paths
                                                pre_reloc_only ret s))
       = gd_dm_driver_rt s.
Proof.
  induction paths as [| path paths IH]; intros ret s; simpl.
  - exists []. rewrite app_nil_r. auto.
  - unfold mbind at 1. unfold dm_scan_fdt_ofnode_path, mbind, gets.
    destruct (dm_scan_fdt_node_frame (gd_dm_root s) (ofnode_path tbl path) s)
      as (e1 & H1 & F1 & R1 & T1).
    destruct (dm_scan_fdt_node cfg ext tbl (gd_dm_root s)
                (ofnode_path tbl path) pre_reloc_only s) as [r s1].
    simpl in H1, R1, T1.
    destruct (negb (r =? 0)).
    + exists e1. unfold mret. simpl. repeat split; auto.
      eapply Forall_impl; [exact F1 |].
      intros e. apply binds_enabled_node_incl.
      intros n Hn. apply elem_of_app. now left.
    + destruct (IH r s1) as (e2 & H2 & F2 & R2 & T2).
      exists (e1 ++ e2). rewrite H2, H1, R2, R1, T2, T1, <- app_assoc.
      repeat split; auto.
      apply Forall_app. split.
      * eapply Forall_impl; [exact F1 |].
        intros e. apply binds_enabled_node_incl.
        intros n Hn. apply elem_of_app. now left.
      * rewrite R1 in F2. eapply Forall_impl; [exact F2 |].
        intros e. apply binds_enabled_node_incl.
        intros n Hn. apply elem_of_app. now right.
Qed.

(** The calls of [dm_extended_scan] and what it leaves alone. *)
Lemma dm_extended_scan_frame (s : global_data W) :
  let out := dm_extended_scan cfg ext tbl pre_reloc_only s in
  exists evs,
    gd_trace (snd out) = gd_trace s ++ evs
    /\ Forall (binds_enabled_node (gd_dm_root s) (extended_scan_nodes tbl)) evs
    /\ gd_dm_root (snd out) = gd_dm_root s
    /\ gd_dm_driver_rt (snd out) = gd_dm_driver_rt s.
Proof.
  unfold dm_extended_scan, extended_scan_nodes. cbv zeta.
  unfold mbind at 1. unfold dm_scan_fdt, mbind, gets.
  destruct (dm_scan_fdt_node_frame (gd_dm_root s) (ofnode_root tbl) s)
    as (e1 & H1 & F1 & R1 & T1).
  destruct (dm_scan_fdt_node cfg ext tbl (gd_dm_root s) (ofnode_root tbl)
                             pre_reloc_only s) as [r s1].
  simpl in H1, R1, T1. simpl flat_map.
  destruct (negb (r =? 0)).
  - exists e1. unfold mret. simpl. repeat split; auto.
    eapply Forall_impl; [exact F1 |].
    intros e. apply binds_enabled_node_incl.
    intros n Hn. apply elem_of_app. now left.
  - destruct (extended_scan_loop_frame extended_nodes r s1)
      as (e2 & H2 & F2 & R2 & T2).
    exists (e1 ++ e2). rewrite H2, H1, R2, R1, T2, T1, <- app_assoc.
    repeat split; auto.
    apply Forall_app. split.
    + eapply Forall_impl; [exact F1 |].
      intros e. apply binds_enabled_node_incl.
      intros n Hn. apply elem_of_app. now left.
    + rewrite R1 in F2. eapply Forall_impl; [exact F2 |].
      intros e. apply binds_enabled_node_incl.
      intros n Hn. apply elem_of_app. now right.
Qed.

(** X19.  Whatever [dm_extended_scan] binds, it binds under the root
    device: every call of the binder is under the device of the root
    handle, for an enabled direct subnode of the root node or of the node
    at [/chosen], [/clocks] or [/firmware].  The root handle and the
    runtime table are left as they were. *)
Theorem dm_extended_scan_under_root (s : global_data W) :
  let out := dm_extended_scan cfg ext tbl pre_reloc_only s in
  exists evs,
    gd_trace (snd out) = gd_trace s ++ evs
    /\ Forall (binds_enabled_node (gd_dm_root s) (extended_scan_nodes tbl)) evs
    /\ gd_dm_root (snd out) = gd_dm_root s
    /\ gd_dm_driver_rt (snd out) = gd_dm_driver_rt s.
Proof. exact (dm_extended_scan_frame s). Qed.
End ExtendedScanMore.

(** ** More on the probe walk *)





Section ProbeMore.
Context {W : Type}.
Variable cfg : dm_config.
Variable ext : dm_externals W.
Variable pre_reloc_only : bool.

Local Abbreviation walk := (dm_probe_devices cfg ext).
Local Abbreviation loop fuel :=
  (probe_children ext (fun c => dm_probe_devices cfg ext fuel c pre_reloc_only)).

(** X20.  The probe walk probes only what is to be probed: every call of
    [device_probe] it makes is for a device that has
    [DM_FLAG_PROBE_AFTER_BIND] and that the pre-relocation test lets
    through, whichever devices the world puts into the lists and however
    far the walk gets.  It calls nothing else, and leaves the root handle
    and the runtime table alone. *)
Theorem dm_probe_devices_only_flagged (fuel : nat) (dev : udevice) :
  forall s : global_data W,
  exists evs,
    gd_trace (snd (walk fuel dev pre_reloc_only s)) = gd_trace s ++ evs
    /\ Forall (fun e => probe_event_ok cfg pre_reloc_only e = true) evs
    /\ gd_dm_root (snd (walk fuel dev pre_reloc_only s)) = gd_dm_root s
    /\ gd_dm_driver_rt (snd (walk fuel dev pre_reloc_only s))
       = gd_dm_driver_rt s.
Proof.
  intros s.
  destruct (dm_probe_devices_frame cfg ext pre_reloc_only fuel dev s)
    as (evs & Ht & Hall & Hr & Hrt & _).
  exists evs. auto.
Qed.

End ProbeMore.


(** ** Bringing the root up *)

Section InitProps.
Context {W : Type}.
Variable cfg : dm_config.
Variable ext : dm_externals W.
Variable tbl : dm_tables.
Variable boot : dm_boot W.

Lemma dm_init_rejected (of_live : bool) (s : global_data W) :
  gd_dm_root s <> None ->
  dm_init ext tbl boot of_live s = (Some (- EINVAL), s).
Proof.
  intros Hroot. unfold dm_init, mbind, gets.
  destruct (gd_dm_root s); [reflexivity | contradiction].
Qed.

Lemma dm_setup_inst_root (s : global_data W) :
  gd_dm_root (snd (dm_setup_inst boot s)) = Some (DM_DEVICE_GET_root boot)
  /\ gd_trace (snd (dm_setup_inst boot s)) = gd_trace s
  /\ gd_dm_driver_rt (snd (dm_setup_inst boot s)) = gd_dm_driver_rt s
  /\ (fst (dm_setup_inst boot s) = 0
      \/ fst (dm_setup_inst boot s) = - ENOMEM).
Proof.
  unfold dm_setup_inst, mbind, mret, set_dm_root, on_world, modify_world.
  simpl.
  destruct (OF_PLATDATA_RT boot); simpl; [| auto].
  destruct (calloc boot (udevice_count boot) (sizeof_udevice_rt boot)
                   (gd_world s)) as [urt w1]. simpl.
  destruct urt; simpl; [| auto].
  destruct (calloc boot 1 (priv_data_size boot) (gd_set_dm_udevice_rt boot w1))
    as [base w2]. simpl.
  destruct base; simpl; auto.
Qed.

(** [dm_init] on a NULL root handle, in each of the two modes. *)
Lemma dm_init_inst_run (of_live : bool) (s : global_data W) :
  gd_dm_root s = None ->
  OF_PLATDATA_INST boot = true ->
  let s0 := {| gd_dm_root := gd_dm_root s;
               gd_dm_driver_rt := gd_dm_driver_rt s;
               gd_world := init_uclass_root boot true (gd_world s);
               gd_trace := gd_trace s |} in
  let r := dm_setup_inst boot s0 in
  dm_init ext tbl boot of_live s
  = (Some (fst r),
     if fst r =? 0
     then {| gd_dm_root := gd_dm_root (snd r);
             gd_dm_driver_rt := gd_dm_driver_rt (snd r);
             gd_world := init_dmtag_list boot (gd_world (snd r));
             gd_trace := gd_trace (snd r) |}
     else snd r).
Proof.
  intros Hroot Hinst. cbv zeta.
  unfold dm_init, mbind, gets, modify_world, mret.
  rewrite Hinst. simpl. rewrite Hroot. simpl. rewrite Hroot.
  match goal with |- context [dm_setup_inst boot ?t] =>
    destruct (dm_setup_inst boot t) as [ret s1]
  end.
  simpl. destruct (ret =? 0) eqn:E; [| reflexivity].
  apply Z.eqb_eq in E. subst ret. reflexivity.
Qed.

Lemma dm_init_plain_run (of_live : bool) (s : global_data W) :
  gd_dm_root s = None ->
  OF_PLATDATA_INST boot = false ->
  dm_init ext tbl boot of_live s
  = let '(ret, dev, w1) :=
        device_bind_by_name ext None false root_info
                            (init_uclass_root boot false (gd_world s)) in
    if negb (ret =? 0) then
      (Some ret, {| gd_dm_root := dev; gd_dm_driver_rt := gd_dm_driver_rt s;
                    gd_world := w1; gd_trace := gd_trace s |})
    else
      match dev with
      | None =>
          (None, {| gd_dm_root := None; gd_dm_driver_rt := gd_dm_driver_rt s;
                    gd_world := w1; gd_trace := gd_trace s |})
      | Some d =>
          let d' := if OF_CONTROL boot
                    then dev_set_ofnode d (ofnode_root tbl) else d in
          let '(r, w2) := device_probe ext d' w1 in
          let tr := gd_trace s ++ [Call_device_probe d' r] in
          if negb (r =? 0) then
            (Some r, {| gd_dm_root := Some d';
                        gd_dm_driver_rt := gd_dm_driver_rt s;
                        gd_world := w2; gd_trace := tr |})
          else
            (Some 0, {| gd_dm_root := Some d';
                        gd_dm_driver_rt := gd_dm_driver_rt s;
                        gd_world := init_dmtag_list boot w2;
                        gd_trace := tr |})
      end.
Proof.
  intros Hroot Hinst.
  unfold dm_init, call_device_probe, mbind, gets, modify_world, mret, on_world,
    set_dm_root, emit.
  rewrite Hroot, Hinst. simpl.
  destruct (device_bind_by_name ext None false root_info
              (init_uclass_root boot false (gd_world s)))
    as [[ret dev] w1]. simpl.
  destruct (negb (ret =? 0)); [reflexivity |].
  destruct dev as [d |]; [| reflexivity]. simpl.
  destruct (device_probe ext
              (if OF_CONTROL boot then dev_set_ofnode d (ofnode_root tbl)
               else d) w1) as [r w2]. simpl.
  destruct (negb (r =? 0)); reflexivity.
Qed.

(** In [OF_PLATDATA_INST] mode [dm_init] does not depend on the
    collaborators of the binder and the probe engine, nor on the tables. *)
Lemma dm_init_inst_independent (ext' : dm_externals W) (tbl' : dm_tables)
    (of_live of_live' : bool) (s : global_data W) :
  OF_PLATDATA_INST boot = true ->
  dm_init ext' tbl' boot of_live' s = dm_init ext tbl boot of_live s.
Proof.
  intros Hinst. destruct (gd_dm_root s) as [r0 |] eqn:Hroot.
  - unfold dm_init, mbind, gets. rewrite Hroot. reflexivity.
  - unfold dm_init, mbind, gets, modify_world, mret.
    rewrite Hinst. simpl. rewrite Hroot. reflexivity.
Qed.

(** X22.  In [OF_PLATDATA_INST] mode, [dm_init] on a NULL root handle sets
    the handle to the statically declared root before it allocates
    anything: the handle is set whether [dm_init] returns 0 or fails, and
    the only failure is [-ENOMEM].  No binder and no probe is called: the
    trace is left as it was, the world is the one that the list heads and
    the allocations of [dm_setup_inst] leave, and the outcome is the same
    whatever the binder, the probe engine and the tables are. *)
Theorem dm_init_inst (of_live : bool) (s : global_data W) :
  gd_dm_root s = None ->
  OF_PLATDATA_INST boot = true ->
  let out := dm_init ext tbl boot of_live s in
  let setup :=
    dm_setup_inst boot
      {| gd_dm_root := gd_dm_root s; gd_dm_driver_rt := gd_dm_driver_rt s;
         gd_world := init_uclass_root boot true (gd_world s);
         gd_trace := gd_trace s |} in
  gd_dm_root (snd out) = Some (DM_DEVICE_GET_root boot)
  /\ (fst out = Some 0 \/ fst out = Some (- ENOMEM))
  /\ gd_trace (snd out) = gd_trace s
  /\ fst out = Some (fst setup)
  /\ gd_world (snd out)
     = (if fst setup =? 0 then init_dmtag_list boot (gd_world (snd setup))
        else gd_world (snd setup))
  /\ (forall (ext' : dm_externals W) (tbl' : dm_tables) (of_live' : bool),
        dm_init ext' tbl' boot of_live' s = out).
Proof.
  intros Hroot Hinst. cbv zeta.
  split; [| split; [| split; [| split; [| split]]]].
  6: { intros ext' tbl' of_live'. now apply dm_init_inst_independent. }
  all: rewrite (dm_init_inst_run of_live s Hroot Hinst); cbv zeta;
    match goal with |- context [dm_setup_inst boot ?t] =>
      destruct (dm_setup_inst_root t) as (Hr & Ht & _ & Hres);
      destruct (dm_setup_inst boot t) as [ret s1]
    end;
    simpl in Hr, Ht, Hres; cbn [fst snd];
    destruct Hres as [-> | ->]; simpl; auto.
Qed.

(** X23.  Outside [OF_PLATDATA_INST] mode, when [dm_init] returns 0 the
    root handle holds the device that [device_bind_by_name] gave for the
    root descriptor, called without a parent; with [OF_CONTROL] that
    device carries the root node of the device tree.  It is this device
    that [device_probe] was called on, in the world the binder left, and
    the probe returned 0; the probe is the last thing recorded, and the
    world is the one the probe left with the tag list set up. *)
Theorem dm_init_bound_and_probed (of_live : bool) (s : global_data W) :
  OF_PLATDATA_INST boot = false ->
  fst (dm_init ext tbl boot of_live s) = Some 0 ->
  exists bound w1 w2,
    let d := if OF_CONTROL boot
             then dev_set_ofnode bound (ofnode_root tbl) else bound in
    gd_dm_root s = None
    /\ device_bind_by_name ext None false root_info
                           (init_uclass_root boot false (gd_world s))
       = (0, Some bound, w1)
    /\ device_probe ext d w1 = (0, w2)
    /\ snd (dm_init ext tbl boot of_live s)
       = {| gd_dm_root := Some d;
            gd_dm_driver_rt := gd_dm_driver_rt s;
            gd_world := init_dmtag_list boot w2;
            gd_trace := gd_trace s ++ [Call_device_probe d 0] |}
    /\ (OF_CONTROL boot = true -> dev_ofnode d = ofnode_root tbl).
Proof.
  intros Hinst.
  destruct (gd_dm_root s) as [r0 |] eqn:Hroot.
  { rewrite dm_init_rejected by (rewrite Hroot; discriminate).
    discriminate. }
  rewrite (dm_init_plain_run of_live s Hroot Hinst).
  destruct (device_bind_by_name ext None false root_info
              (init_uclass_root boot false (gd_world s)))
    as [[ret dev] w1].
  destruct (negb (ret =? 0)) eqn:Hret.
  { simpl. intros [= H]. subst ret. discriminate Hret. }
  apply negb_false_iff, Z.eqb_eq in Hret. subst ret.
  destruct dev as [d |]; [| discriminate].
  cbv zeta.
  destruct (device_probe ext
              (if OF_CONTROL boot then dev_set_ofnode d (ofnode_root tbl)
               else d) w1) as [r w2] eqn:Hprobe.
  destruct (negb (r =? 0)) eqn:Hr; simpl.
  { intros [= H]. subst r. discriminate Hr. }
  intros _. apply negb_false_iff, Z.eqb_eq in Hr. subst r.
  exists d, w1, w2. repeat split; auto.
  intros Hc. rewrite Hc. destruct d. reflexivity.
Qed.

(** A [dm_init] that returns 0 leaves the root handle set. *)
Lemma dm_init_sets_root (of_live : bool) (s : global_data W) :
  fst (dm_init ext tbl boot of_live s) = Some 0 ->
  gd_dm_root (snd (dm_init ext tbl boot of_live s)) <> None.
Proof.
  intros Hok.
  destruct (gd_dm_root s) as [r0 |] eqn:Hroot.
  - rewrite dm_init_rejected in Hok by (rewrite Hroot; discriminate).
    discriminate Hok.
  - destruct (OF_PLATDATA_INST boot) eqn:Hinst.
    + rewrite (dm_init_inst_run of_live s Hroot Hinst). cbv zeta.
      match goal with |- context [dm_setup_inst boot ?t] =>
        destruct (dm_setup_inst_root t) as (Hr & _);
        destruct (dm_setup_inst boot t) as [ret s1]
      end.
      simpl in Hr. cbn [fst snd].
      destruct (ret =? 0); simpl; rewrite Hr; discriminate.
    + revert Hok. rewrite (dm_init_plain_run of_live s Hroot Hinst).
      destruct (device_bind_by_name ext None false root_info
                  (init_uclass_root boot false (gd_world s)))
        as [[ret dev] w1].
      destruct (negb (ret =? 0)) eqn:Hret.
      { simpl. intros [= H]. subst ret. discriminate Hret. }
      destruct dev as [d |]; [| discriminate].
      cbv zeta.
      destruct (device_probe ext _ w1) as [r w2].
      destruct (negb (r =? 0)); simpl; discriminate.
Qed.

(** X24.  [dm_init] does not run twice: after a [dm_init] that returned
    0 the root handle is set, and another [dm_init] returns [-EINVAL] and
    changes nothing, in either mode. *)
Theorem dm_init_once (of_live of_live' : bool) (s : global_data W) :
  fst (dm_init ext tbl boot of_live s) = Some 0 ->
  gd_dm_root (snd (dm_init ext tbl boot of_live s)) <> None
  /\ dm_init ext tbl boot of_live' (snd (dm_init ext tbl boot of_live s))
     = (Some (- EINVAL), snd (dm_init ext tbl boot of_live s)).
Proof.
  intros Hok.
  pose proof (dm_init_sets_root of_live s Hok) as Hset.
  split; [exact Hset |]. now apply dm_init_rejected.
Qed.
End InitProps.

Lemma dm_init_inst_witness :
  let out := dm_init Board.ext (Board.fdt_tables []) (Board.boot true false)
                     false (Board.gd0 None []) in
  gd_dm_root (snd out) = Some Board.root_device
  /\ (fst out = Some 0 \/ fst out = Some (- ENOMEM))
  /\ gd_trace (snd out) = []
  /\ fst out = Some 0
  /\ gd_world (snd out) = []
  /\ (forall (ext' : dm_externals (list string)) (tbl' : dm_tables)
             (of_live' : bool),
        dm_init ext' tbl' (Board.boot true false) of_live' (Board.gd0 None [])
        = out).
Proof.
  exact (dm_init_inst Board.ext (Board.fdt_tables []) (Board.boot true false)
           false (Board.gd0 None []) eq_refl eq_refl).
Defined.

Lemma dm_init_bound_and_probed_witness :
  exists bound w1 w2,
    let d := dev_set_ofnode bound (ofnode_root Board.scan_tables) in
    gd_dm_root (Board.gd0 None []) = None
    /\ Board.bind_by_name None false root_info [] = (0, Some bound, w1)
    /\ Board.probe d w1 = (0, w2)
    /\ snd (dm_init Board.ext Board.scan_tables (Board.boot false false)
                    false (Board.gd0 None []))
       = {| gd_dm_root := Some d; gd_dm_driver_rt := [];
            gd_world := w2;
            gd_trace := [] ++ [Call_device_probe d 0] |}
    /\ (true = true -> dev_ofnode d = ofnode_root Board.scan_tables).
Proof.
  exact (dm_init_bound_and_probed Board.ext Board.scan_tables
           (Board.boot false false) false (Board.gd0 None [])
           eq_refl eq_refl).
Defined.

Lemma dm_init_once_witness :
  let s1 := snd (dm_init Board.ext Board.scan_tables (Board.boot false false)
                         false (Board.gd0 None [])) in
  gd_dm_root s1 <> None
  /\ dm_init Board.ext Board.scan_tables (Board.boot false false) false s1
     = (Some (- EINVAL), s1).
Proof.
  exact (dm_init_once Board.ext Board.scan_tables (Board.boot false false)
           false false (Board.gd0 None []) eq_refl).
Defined.

(** ** Binding the static descriptors from the top *)

Section ScanPlatProps.
Context {W : Type}.
Variable cfg : dm_config.
Variable ext : dm_externals W.
Variable tbl : dm_tables.
Variable boot : dm_boot W.
Variable pre_reloc_only : bool.

Local Abbreviation n_ents := (length (ll_driver_info tbl)).

(** [dm_scan_plat], from [lists_bind_drivers]. *)
Lemma dm_scan_plat_run (s : global_data W) :
  let alloc := calloc boot (Z.of_nat n_ents) (sizeof_driver_rt boot)
                      (gd_world s) in
  let s0 :=
    if OF_PLATDATA_DRIVER_RT boot
    then {| gd_dm_root := gd_dm_root s;
            gd_dm_driver_rt := replicate n_ents None;
            gd_world := snd alloc; gd_trace := gd_trace s |}
    else s in
  let binds := lists_bind_drivers cfg ext tbl (gd_dm_root s) pre_reloc_only
                                  s0 in
  dm_scan_plat cfg ext tbl boot pre_reloc_only s
  = if OF_PLATDATA_DRIVER_RT boot && negb (fst alloc)
    then (- ENOMEM,
          {| gd_dm_root := gd_dm_root s; gd_dm_driver_rt := gd_dm_driver_rt s;
             gd_world := snd alloc; gd_trace := gd_trace s |})
    else (if fst binds =? - ENOENT then 0 else fst binds, snd binds).
Proof.
  cbv zeta. unfold dm_scan_plat, mbind, gets, mret, on_world,
    gd_set_dm_driver_rt.
  destruct (OF_PLATDATA_DRIVER_RT boot); simpl.
  - destruct (calloc boot (Z.of_nat n_ents) (sizeof_driver_rt boot)
                     (gd_world s)) as [dyn w1]. simpl.
    destruct dyn; simpl; [| reflexivity].
    match goal with |- context [lists_bind_drivers cfg ext tbl ?r ?p ?t] =>
      destruct (lists_bind_drivers cfg ext tbl r p t) as [ret s1]
    end.
    reflexivity.
  - destruct (lists_bind_drivers cfg ext tbl (gd_dm_root s) pre_reloc_only s)
      as [ret s1].
    reflexivity.
Qed.

(** X25.  [dm_scan_plat] never returns [-ENOENT]: a descriptor without a
    driver does not make the scan fail.  It leaves the root handle alone.
    With [OF_PLATDATA_DRIVER_RT] it first allocates a runtime table: when
    the allocation fails it returns [-ENOMEM] and binds nothing, and when
    it succeeds the table it leaves has one slot per descriptor. *)
Theorem dm_scan_plat_errors (s : global_data W) :
  let out := dm_scan_plat cfg ext tbl boot pre_reloc_only s in
  let alloc := calloc boot (Z.of_nat n_ents) (sizeof_driver_rt boot)
                      (gd_world s) in
  fst out <> - ENOENT
  /\ gd_dm_root (snd out) = gd_dm_root s
  /\ (OF_PLATDATA_DRIVER_RT boot = true ->
      if fst alloc
      then length (gd_dm_driver_rt (snd out)) = n_ents
      else fst out = - ENOMEM /\ gd_trace (snd out) = gd_trace s
           /\ gd_dm_driver_rt (snd out) = gd_dm_driver_rt s).
Proof.
  cbv zeta. rewrite dm_scan_plat_run. cbv zeta.
  assert (Hframe : forall parent t,
    gd_dm_root (snd (lists_bind_drivers cfg ext tbl parent pre_reloc_only t))
    = gd_dm_root t
    /\ length (gd_dm_driver_rt
                 (snd (lists_bind_drivers cfg ext tbl parent pre_reloc_only t)))
       = length (gd_dm_driver_rt t)).
  { intros parent t. unfold lists_bind_drivers.
    destruct (lists_bind_drivers_loop_passes cfg ext tbl parent pre_reloc_only
                9 0 t (or_introl eq_refl)) as (k & _ & Hst & _).
    rewrite Hst.
    destruct (after_passes_frame cfg ext tbl parent pre_reloc_only k t)
      as (Hr & Hl & _). auto. }
  destruct (OF_PLATDATA_DRIVER_RT boot); simpl.
  - destruct (calloc boot (Z.of_nat n_ents) (sizeof_driver_rt boot)
                     (gd_world s)) as [dyn w1]. simpl.
    destruct dyn; simpl.
    + match goal with |- context [lists_bind_drivers cfg ext tbl ?r ?p ?t] =>
        destruct (Hframe r t) as [Hr Hl];
        destruct (lists_bind_drivers cfg ext tbl r p t) as [ret s1]
      end.
      simpl in *. repeat split; auto.
      * destruct (ret =? - ENOENT) eqn:E; [discriminate |].
        now apply Z.eqb_neq.
      * intros _. rewrite Hl. apply length_replicate.
    + repeat split; auto; try discriminate.
  - destruct (Hframe (gd_dm_root s) s) as [Hr Hl].
    destruct (lists_bind_drivers cfg ext tbl (gd_dm_root s) pre_reloc_only s)
      as [ret s1].
    simpl in *. repeat split; auto; try discriminate.
    destruct (ret =? - ENOENT) eqn:E; [discriminate |].
    now apply Z.eqb_neq.
Qed.

(** X26.  With [OF_PLATDATA] and [OF_PLATDATA_DRIVER_RT], an allocation
    that succeeds and a binder that binds every descriptor of the table,
    [dm_scan_plat] binds every descriptor of a table whose parent links
    go down at most ten levels: it returns 0 and leaves every slot of the
    new runtime table filled, whatever the table held before. *)
Theorem dm_scan_plat_depth (level : nat -> nat) (s : global_data W) :
  OF_PLATDATA cfg = true ->
  OF_PLATDATA_DRIVER_RT boot = true ->
  fst (calloc boot (Z.of_nat n_ents) (sizeof_driver_rt boot) (gd_world s))
  = true ->
  (forall par entry w,
      entry ∈ ll_driver_info tbl ->
      exists d w',
        device_bind_by_name ext par pre_reloc_only entry w = (0, Some d, w')) ->
  (forall i entry,
      ll_driver_info tbl !! i = Some entry ->
      uses_parent_slot cfg entry = true ->
      exists p, parent_idx entry = Z.of_nat p
                /\ (p < n_ents)%nat /\ (level p < level i)%nat) ->
  (forall i, (i < n_ents)%nat -> (level i < 10)%nat) ->
  let out := dm_scan_plat cfg ext tbl boot pre_reloc_only s in
  fst out = 0
  /\ forall j, (j < n_ents)%nat -> slot_filled (gd_dm_driver_rt (snd out)) j.
Proof.
  intros Hof Hrt Halloc Hbinds Hparents Hmax. cbv zeta.
  rewrite dm_scan_plat_run. cbv zeta. rewrite Hrt, Halloc. simpl.
  match goal with |- context [lists_bind_drivers cfg ext tbl ?r ?p ?t] =>
    destruct (lists_bind_drivers_loop_level cfg ext tbl r p level
                Hof Hbinds Hparents 9 0 0 t) as [Hres Hall]
  end.
  - left. reflexivity.
  - simpl. apply length_replicate.
  - intros i _ Hlt. lia.
  - intros i Hi. specialize (Hmax i Hi). lia.
  - unfold lists_bind_drivers. cbv zeta in Hres, Hall.
    rewrite Hres. simpl. split; [reflexivity | exact Hall].
Qed.
End ScanPlatProps.

Lemma dm_scan_plat_depth_witness :
  let out := dm_scan_plat (Board.cfg true true) Board.ext
               (Board.info_tables Board.infos_out_of_order)
               (Board.boot false true) false
               (Board.gd0 (Some Board.root_device) []) in
  fst out = 0
  /\ forall j, (j < 2)%nat -> slot_filled (gd_dm_driver_rt (snd out)) j.
Proof.
  apply (dm_scan_plat_depth (Board.cfg true true) Board.ext
           (Board.info_tables Board.infos_out_of_order)
           (Board.boot false true) false
           (fun i => match i with O => 1%nat | _ => 0%nat end)).
  - reflexivity.
  - reflexivity.
  - reflexivity.
  - intros par entry w He. apply list_elem_of_In in He. simpl in He.
    destruct He as [<- | [<- | []]]; eexists; eexists; reflexivity.
  - intros [| [| i]] entry Hl Hu; simpl in Hl; try discriminate;
      inversion Hl; subst entry.
    + exists 1%nat. simpl. repeat split; lia.
    + discriminate Hu.
  - intros [| [| i]] Hi; simpl in *; lia.
Defined.

Example dm_scan_plat_absent_driver :
  let out := dm_scan_plat (Board.cfg false false) Board.ext
               (Board.info_tables [Board.info "absent"; Board.info "uart"])
               (Board.boot false false) false
               (Board.gd0 (Some Board.root_device) []) in
  fst out = 0 /\ gd_world (snd out) = ["uart"%string].
Proof. split; reflexivity. Qed.

(** ** The whole scan *)

Section ScanProps.
Context {W : Type}.
Variable cfg : dm_config.
Variable ext : dm_externals W.
Variable tbl : dm_tables.
Variable boot : dm_boot W.
Variable pre_reloc_only : bool.

(** Passes add entries and calls of the binder of the descriptors. *)
Lemma after_passes_events (parent : option udevice) (k : nat) :
  forall s : global_data W,
  exists evs,
    gd_trace (after_passes cfg ext tbl parent pre_reloc_only k s)
    = gd_trace s ++ evs
    /\ Forall (fun e => is_plat_event e = true) evs.
Proof.
  induction k as [| k IH]; intros s; simpl.
  - exists []. rewrite app_nil_r. auto.
  - destruct (bind_drivers_pass_trace cfg ext tbl parent pre_reloc_only s)
      as (e1 & H1 & F1 & _).
    destruct (IH (snd (bind_drivers_pass cfg ext tbl parent pre_reloc_only s)))
      as (e2 & H2 & F2).
    exists ((Enter_bind_drivers_pass :: e1) ++ e2).
    rewrite H2, H1, <- app_assoc. split; [reflexivity |].
    apply Forall_app. split; [| exact F2].
    constructor; [reflexivity |].
    eapply Forall_impl; [exact F1 |].
    intros e He. unfold is_plat_event. rewrite He. apply orb_true_r.
Qed.

Lemma lists_bind_drivers_events (parent : option udevice)
    (s : global_data W) :
  exists evs,
    gd_trace (snd (lists_bind_drivers cfg ext tbl parent pre_reloc_only s))
    = gd_trace s ++ evs
    /\ Forall (fun e => is_plat_event e = true) evs
    /\ gd_dm_root (snd (lists_bind_drivers cfg ext tbl parent pre_reloc_only s))
       = gd_dm_root s.
Proof.
  unfold lists_bind_drivers.
  destruct (lists_bind_drivers_loop_passes cfg ext tbl parent pre_reloc_only
              9 0 s (or_introl eq_refl)) as (k & _ & Hst & _).
  rewrite Hst.
  destruct (after_passes_events parent k s) as (evs & Ht & Hall).
  destruct (after_passes_frame cfg ext tbl parent pre_reloc_only k s)
    as (Hr & _).
  exists evs. auto.
Qed.

Lemma dm_scan_plat_events (s : global_data W) :
  exists evs,
    gd_trace (snd (dm_scan_plat cfg ext tbl boot pre_reloc_only s))
    = gd_trace s ++ evs
    /\ Forall (fun e => is_plat_event e = true) evs
    /\ gd_dm_root (snd (dm_scan_plat cfg ext tbl boot pre_reloc_only s))
       = gd_dm_root s.
Proof.
  rewrite dm_scan_plat_run. cbv zeta.
  destruct (OF_PLATDATA_DRIVER_RT boot && negb _).
  - exists []. simpl. rewrite app_nil_r. auto.
  - cbn [snd].
    match goal with |- context [lists_bind_drivers cfg ext tbl ?r ?p ?t] =>
      destruct (lists_bind_drivers_events r t) as (evs & Ht & Hall & Hr)
    end.
    exists evs. rewrite Ht, Hr.
    destruct (OF_PLATDATA_DRIVER_RT boot); auto.
Qed.

(** [dm_scan], stage by stage. *)
Lemma dm_scan_run (fuel : nat) (s : global_data W) :
  let plat := dm_scan_plat cfg ext tbl boot pre_reloc_only s in
  let fdt := if OF_REAL boot
             then dm_extended_scan cfg ext tbl pre_reloc_only (snd plat)
             else (0, snd plat) in
  let other := dm_scan_other boot pre_reloc_only (gd_world (snd fdt)) in
  let s3 := {| gd_dm_root := gd_dm_root (snd fdt);
               gd_dm_driver_rt := gd_dm_driver_rt (snd fdt);
               gd_world := snd other;
               gd_trace := gd_trace (snd fdt) |} in
  dm_scan cfg ext tbl boot fuel pre_reloc_only s
  = if negb (fst plat =? 0) then (Some (fst plat), snd plat)
    else if negb (fst fdt =? 0) then (Some (fst fdt), snd fdt)
    else if negb (fst other =? 0) then (Some (fst other), s3)
    else match gd_dm_root (snd fdt) with
         | None => (None, s3)
         | Some d =>
             dm_probe_devices cfg ext fuel (device_now boot (snd other) d)
                              pre_reloc_only s3
         end.
Proof.
  cbv zeta. unfold dm_scan. unfold mbind at 1.
  destruct (dm_scan_plat cfg ext tbl boot pre_reloc_only s) as [r1 s1].
  cbn [fst snd].
  destruct (negb (r1 =? 0)); [reflexivity |].
  unfold mbind at 1.
  assert (Hfdt : (if OF_REAL boot
                  then dm_extended_scan cfg ext tbl pre_reloc_only
                  else mret 0) s1
                 = if OF_REAL boot
                   then dm_extended_scan cfg ext tbl pre_reloc_only s1
                   else (0, s1)).
  { destruct (OF_REAL boot); reflexivity. }
  rewrite Hfdt.
  destruct (if OF_REAL boot
            then dm_extended_scan cfg ext tbl pre_reloc_only s1
            else (0, s1)) as [r2 s2].
  cbn [fst snd].
  destruct (negb (r2 =? 0)); [reflexivity |].
  unfold mbind, on_world, gets, mret.
  destruct (dm_scan_other boot pre_reloc_only (gd_world s2)) as [r3 w3].
  cbn [fst snd].
  destruct (negb (r3 =? 0)); [reflexivity |].
  cbn [gd_dm_root gd_world].
  destruct (gd_dm_root s2) as [d |]; reflexivity.
Qed.

(** The three phases of [dm_scan] in its trace. *)
Lemma dm_scan_trace (fuel : nat) (s : global_data W) :
  let out := dm_scan cfg ext tbl boot fuel pre_reloc_only s in
  exists plat fdt probes,
    gd_trace (snd out) = gd_trace s ++ plat ++ fdt ++ probes
    /\ Forall (fun e => is_plat_event e = true) plat
    /\ Forall (binds_enabled_node (gd_dm_root s) (extended_scan_nodes tbl)) fdt
    /\ Forall (fun e => probe_event_ok cfg pre_reloc_only e = true) probes
    /\ gd_dm_root (snd out) = gd_dm_root s
    /\ (OF_REAL boot = false -> fdt = [])
    /\ (fst (dm_scan_plat cfg ext tbl boot pre_reloc_only s) <> 0 ->
        fdt = [] /\ probes = [])
    /\ (probes <> [] -> gd_dm_root s <> None)
    /\ (fst out = None ->
        gd_dm_root s = None
        \/ exists d w t,
             gd_dm_root s = Some d
             /\ fst (dm_probe_devices cfg ext fuel (device_now boot w d)
                                      pre_reloc_only t) = None).
Proof.
  cbv zeta. rewrite dm_scan_run. cbv zeta.
  destruct (dm_scan_plat_events s) as (e1 & H1 & F1 & R1).
  destruct (dm_scan_plat cfg ext tbl boot pre_reloc_only s) as [r1 s1].
  cbn [fst snd] in *.
  destruct (negb (r1 =? 0)) eqn:E1.
  { exists e1, [], []. cbn [fst snd]. rewrite !app_nil_r.
    repeat split; auto; try congruence. }
  apply negb_false_iff, Z.eqb_eq in E1. subst r1.
  assert (Hfdt : exists e2,
    gd_trace (snd (if OF_REAL boot
                   then dm_extended_scan cfg ext tbl pre_reloc_only s1
                   else (0, s1))) = gd_trace s1 ++ e2
    /\ Forall (binds_enabled_node (gd_dm_root s1) (extended_scan_nodes tbl)) e2
    /\ gd_dm_root (snd (if OF_REAL boot
                        then dm_extended_scan cfg ext tbl pre_reloc_only s1
                        else (0, s1))) = gd_dm_root s1
    /\ (OF_REAL boot = false -> e2 = [])).
  { destruct (OF_REAL boot).
    - destruct (dm_extended_scan_frame cfg ext tbl pre_reloc_only s1)
        as (e2 & H2 & F2 & R2 & _).
      exists e2. repeat split; auto. discriminate.
    - exists []. simpl. rewrite app_nil_r. auto. }
  destruct Hfdt as (e2 & H2 & F2 & R2 & Hreal).
  destruct (if OF_REAL boot
            then dm_extended_scan cfg ext tbl pre_reloc_only s1
            else (0, s1)) as [r2 s2].
  cbn [fst snd] in *. rewrite R1 in F2.
  destruct (negb (r2 =? 0)).
  { exists e1, e2, []. cbn [fst snd]. rewrite H2, H1, R2, R1, !app_nil_r.
    rewrite <- app_assoc.
    repeat split; auto; try congruence.
    all: try (intros H; now contradiction H). }
  destruct (dm_scan_other boot pre_reloc_only (gd_world s2)) as [r3 w3].
  cbn [fst snd].
  destruct (negb (r3 =? 0)).
  { exists e1, e2, []. cbn [fst snd gd_trace gd_dm_root].
    rewrite H2, H1, R2, R1, !app_nil_r, <- app_assoc.
    repeat split; auto; try congruence.
    all: try (intros H; now contradiction H). }
  destruct (gd_dm_root s2) as [d |] eqn:Hd.
  - match goal with |- context [dm_probe_devices cfg ext fuel ?dv ?p ?t] =>
      destruct (dm_probe_devices_frame cfg ext p fuel dv t)
        as (e3 & H3 & F3 & R3 & _ & _)
    end.
    exists e1, e2, e3. rewrite H3, R3.
    cbn [gd_trace gd_dm_root]. rewrite H2, H1, <- R1, <- R2.
    rewrite <- !app_assoc.
    split; [reflexivity |]. split; [exact F1 |].
    split; [rewrite R2, R1; exact F2 |].
    split; [exact F3 |]. split; [reflexivity |]. split; [exact Hreal |].
    split; [intros H; now contradiction H |]. split; [discriminate |].
    intros Hnone. right. eexists d, _, _. split; [reflexivity | exact Hnone].
  - exists e1, e2, []. cbn [fst snd gd_trace gd_dm_root].
    rewrite H2, H1, <- R1, <- R2, !app_nil_r, <- app_assoc.
    repeat split; auto; try congruence.
    all: try (intros H; now contradiction H).
Qed.

(** X27.  [dm_scan] binds before it probes: what it adds to the trace is
    first the passes over the static descriptors, then calls of the
    device-tree binder, each under the root device for an enabled node
    that [dm_extended_scan] offers, then the probe walk, which probes
    only devices that are to be probed.  Without [OF_REAL] no node is
    bound; when the descriptor stage fails, no node is bound and nothing
    is probed.  The root handle is left alone.  The walk is started only
    on a root handle that is set, and [dm_scan] gives no value only when
    the handle is NULL where the walk is to start, or when the walk does
    not end within the fuel. *)
Theorem dm_scan_phases (fuel : nat) (s : global_data W) :
  let out := dm_scan cfg ext tbl boot fuel pre_reloc_only s in
  exists plat fdt probes,
    gd_trace (snd out) = gd_trace s ++ plat ++ fdt ++ probes
    /\ Forall (fun e => is_plat_event e = true) plat
    /\ Forall (binds_enabled_node (gd_dm_root s) (extended_scan_nodes tbl)) fdt
    /\ Forall (fun e => probe_event_ok cfg pre_reloc_only e = true) probes
    /\ gd_dm_root (snd out) = gd_dm_root s
    /\ (OF_REAL boot = false -> fdt = [])
    /\ (fst (dm_scan_plat cfg ext tbl boot pre_reloc_only s) <> 0 ->
        fdt = [] /\ probes = [])
    /\ (probes <> [] -> gd_dm_root s <> None)
    /\ (fst out = None ->
        gd_dm_root s = None
        \/ exists d w t,
             gd_dm_root s = Some d
             /\ fst (dm_probe_devices cfg ext fuel (device_now boot w d)
                                      pre_reloc_only t) = None).
Proof. exact (dm_scan_trace fuel s). Qed.
End ScanProps.

(** ** Bringing the driver model up *)

Section InitAndScanRun.
Context {W : Type}.
Variable cfg : dm_config.
Variable ext : dm_externals W.
Variable tbl : dm_tables.
Variable boot : dm_boot W.

(** [dm_init_and_scan], stage by stage. *)
Lemma dm_init_and_scan_run (fuel : nat) (pre_reloc_only : bool)
    (s : global_data W) :
  let notify (t : global_data W) : option Z * global_data W :=
    if DM_EVENT boot then
      let ev := event_notify_null boot
                  (if GD_FLG_RELOC boot then EVT_DM_POST_INIT_R boot
                   else EVT_DM_POST_INIT_F boot) (gd_world t) in
      (Some (fst ev),
       {| gd_dm_root := gd_dm_root t; gd_dm_driver_rt := gd_dm_driver_rt t;
          gd_world := snd ev; gd_trace := gd_trace t |})
    else (Some 0, t) in
  let init := dm_init ext tbl boot false s in
  dm_init_and_scan cfg ext tbl boot fuel pre_reloc_only s
  = match fst init with
    | None => (None, snd init)
    | Some ret =>
        if negb (ret =? 0) then (Some ret, snd init)
        else if negb (OF_PLATDATA_INST boot) then
          let scan := dm_scan cfg ext tbl boot fuel pre_reloc_only
                              (snd init) in
          match fst scan with
          | None => (None, snd scan)
          | Some r =>
              if negb (r =? 0) then (Some r, snd scan) else notify (snd scan)
          end
        else notify (snd init)
    end.
Proof.
  cbv zeta. unfold dm_init_and_scan. cbv zeta. unfold mbind at 1.
  assert (Hnotify : forall t : global_data W,
    (if DM_EVENT boot
     then
       do ret <- on_world (event_notify_null boot
                             (if GD_FLG_RELOC boot then EVT_DM_POST_INIT_R boot
                              else EVT_DM_POST_INIT_F boot)) ;;
       if negb (ret =? 0) then mret (Some ret) else mret (Some 0)
     else mret (Some 0)) t
    = if DM_EVENT boot then
        (Some (fst (event_notify_null boot
                      (if GD_FLG_RELOC boot then EVT_DM_POST_INIT_R boot
                       else EVT_DM_POST_INIT_F boot) (gd_world t))),
         {| gd_dm_root := gd_dm_root t; gd_dm_driver_rt := gd_dm_driver_rt t;
            gd_world := snd (event_notify_null boot
                               (if GD_FLG_RELOC boot
                                then EVT_DM_POST_INIT_R boot
                                else EVT_DM_POST_INIT_F boot) (gd_world t));
            gd_trace := gd_trace t |})
      else (Some 0, t)).
  { intros t. destruct (DM_EVENT boot); [| reflexivity].
    unfold mbind, on_world, mret.
    destruct (event_notify_null boot _ (gd_world t)) as [r w]. cbn [fst snd].
    destruct (r =? 0) eqn:E; [| reflexivity].
    apply Z.eqb_eq in E. subst r. reflexivity. }
  destruct (dm_init ext tbl boot false s) as [[ret |] s1]; cbn [fst snd];
    [| reflexivity].
  destruct (negb (ret =? 0)); [reflexivity |].
  destruct (negb (OF_PLATDATA_INST boot)); [| apply Hnotify].
  unfold mbind at 1.
  destruct (dm_scan cfg ext tbl boot fuel pre_reloc_only s1) as [[r |] s2];
    cbn [fst snd]; [| reflexivity].
  destruct (negb (r =? 0)); [reflexivity |]. apply Hnotify.
Qed.

End InitAndScanRun.

Section InitAndScanProps.
Context {W : Type}.
Variable cfg : dm_config.
Variable ext : dm_externals W.
Variable tbl : dm_tables.
Variable boot : dm_boot W.

(** X28.  [dm_init_and_scan] does not run twice: when it returns 0 the
    root handle was NULL before and is set after, and another
    [dm_init_and_scan] returns [-EINVAL] and changes nothing: it binds
    nothing, probes nothing and sends no event. *)
Theorem dm_init_and_scan_once (fuel fuel' : nat)
    (pre_reloc_only pre_reloc_only' : bool) (s : global_data W) :
  fst (dm_init_and_scan cfg ext tbl boot fuel pre_reloc_only s) = Some 0 ->
  let s' := snd (dm_init_and_scan cfg ext tbl boot fuel pre_reloc_only s) in
  gd_dm_root s = None
  /\ gd_dm_root s' <> None
  /\ dm_init_and_scan cfg ext tbl boot fuel' pre_reloc_only' s'
     = (Some (- EINVAL), s').
Proof.
  intros Hok. cbv zeta.
  assert (Hinit : fst (dm_init ext tbl boot false s) = Some 0
                  /\ gd_dm_root
                       (snd (dm_init_and_scan cfg ext tbl boot fuel
                                              pre_reloc_only s))
                     = gd_dm_root (snd (dm_init ext tbl boot false s))).
  { revert Hok. rewrite dm_init_and_scan_run. cbv zeta.
    destruct (dm_init ext tbl boot false s) as [[ret |] s1]; cbn [fst snd];
      [| discriminate].
    destruct (negb (ret =? 0)) eqn:E.
    { cbn [fst]. intros [= ->]. discriminate E. }
    apply negb_false_iff, Z.eqb_eq in E. subst ret.
    destruct (negb (OF_PLATDATA_INST boot)).
    - destruct (dm_scan_trace cfg ext tbl boot pre_reloc_only fuel s1)
        as (e1 & e2 & e3 & _ & _ & _ & _ & R & _).
      cbv zeta in R.
      destruct (dm_scan cfg ext tbl boot fuel pre_reloc_only s1)
        as [[r |] s2]; cbn [fst snd] in *; [| discriminate].
      destruct (negb (r =? 0)); cbn [fst snd]; [intros _; auto |].
      destruct (DM_EVENT boot); cbn [fst snd gd_dm_root]; auto.
    - destruct (DM_EVENT boot); cbn [fst snd gd_dm_root]; auto. }
  destruct Hinit as [Hinit Hroot].
  pose proof (dm_init_sets_root ext tbl boot false s Hinit) as Hset.
  rewrite <- Hroot in Hset.
  split; [| split; [exact Hset |]].
  - destruct (gd_dm_root s) as [r0 |] eqn:Hs; [| reflexivity].
    rewrite dm_init_rejected in Hinit by (rewrite Hs; discriminate).
    discriminate Hinit.
  - rewrite dm_init_and_scan_run. cbv zeta.
    rewrite (dm_init_rejected ext tbl boot false _ Hset). reflexivity.
Qed.

(** X29.  In [OF_PLATDATA_INST] mode [dm_init_and_scan] scans nothing:
    no binder and no probe is called.  Its outcome is the same whatever
    the binder, the probe engine, the tables and the fuel of the walk
    are; the trace and the runtime table of the descriptors are left
    alone.  It always returns a value, and without [DM_EVENT] that value
    is 0, [-ENOMEM] or, when the root handle was set already,
    [-EINVAL]. *)
Theorem dm_init_and_scan_inst (fuel : nat) (pre_reloc_only : bool)
    (s : global_data W) :
  OF_PLATDATA_INST boot = true ->
  let out := dm_init_and_scan cfg ext tbl boot fuel pre_reloc_only s in
  gd_trace (snd out) = gd_trace s
  /\ gd_dm_driver_rt (snd out) = gd_dm_driver_rt s
  /\ fst out <> None
  /\ (DM_EVENT boot = false ->
      fst out = Some 0 \/ fst out = Some (- ENOMEM)
      \/ (fst out = Some (- EINVAL) /\ gd_dm_root s <> None))
  /\ (forall (cfg' : dm_config) (ext' : dm_externals W) (tbl' : dm_tables)
             (fuel' : nat) (pre_reloc_only' : bool),
        dm_init_and_scan cfg' ext' tbl' boot fuel' pre_reloc_only' s = out).
Proof.
  intros Hinst. cbv zeta.
  split; [| split; [| split; [| split]]].
  5: { intros cfg' ext' tbl' fuel' pre'.
       rewrite (dm_init_and_scan_run cfg' ext' tbl' boot fuel' pre' s),
         (dm_init_and_scan_run cfg ext tbl boot fuel pre_reloc_only s).
       cbv zeta. rewrite Hinst. cbn [negb].
       rewrite (dm_init_inst_independent ext tbl boot ext' tbl' false false s
                  Hinst).
       destruct (dm_init ext tbl boot false s) as [[ret |] s1];
         reflexivity. }
  all: rewrite dm_init_and_scan_run; cbv zeta; rewrite Hinst; cbn [negb];
    destruct (gd_dm_root s) as [r0 |] eqn:Hs;
    [ rewrite dm_init_rejected by (rewrite Hs; discriminate);
      cbn; auto; try discriminate
    | rewrite (dm_init_inst_run ext tbl boot false s Hs Hinst); cbv zeta;
      match goal with |- context [dm_setup_inst boot ?t] =>
        destruct (dm_setup_inst_root boot t) as (_ & Ht & Hrt & Hres);
        destruct (dm_setup_inst boot t) as [ret s1]
      end;
      cbn [fst snd gd_trace gd_dm_driver_rt] in *;
      destruct Hres as [-> | ->]; cbn;
      [ destruct (DM_EVENT boot); cbn; auto; try discriminate
      | auto; try discriminate ] ].
Qed.
End InitAndScanProps.

Lemma dm_init_and_scan_once_witness :
  let s' := snd (dm_init_and_scan (Board.cfg false false) Board.ext_ok
                   Board.scan_tables_ok (Board.boot false false) 4 false
                   (Board.gd0 None [])) in
  gd_dm_root (Board.gd0 None []) = None
  /\ gd_dm_root s' <> None
  /\ dm_init_and_scan (Board.cfg false false) Board.ext_ok
       Board.scan_tables_ok (Board.boot false false) 0 true s'
     = (Some (- EINVAL), s').
Proof.
  exact (dm_init_and_scan_once (Board.cfg false false) Board.ext_ok
           Board.scan_tables_ok (Board.boot false false) 4 0 false true
           (Board.gd0 None []) eq_refl).
Defined.

Lemma dm_init_and_scan_inst_witness :
  let out := dm_init_and_scan (Board.cfg true true) Board.ext
               (Board.info_tables Board.infos_uart) (Board.boot true false)
               4 false (Board.gd0 None []) in
  gd_trace (snd out) = []
  /\ gd_dm_driver_rt (snd out) = []
  /\ fst out <> None
  /\ (false = false ->
      fst out = Some 0 \/ fst out = Some (- ENOMEM)
      \/ (fst out = Some (- EINVAL) /\ @None udevice <> None))
  /\ (forall (cfg' : dm_config) (ext' : dm_externals (list string))
             (tbl' : dm_tables) (fuel' : nat) (pre_reloc_only' : bool),
        dm_init_and_scan cfg' ext' tbl' (Board.boot true false) fuel'
                         pre_reloc_only' (Board.gd0 None [])
        = out).
Proof.
  exact (dm_init_and_scan_inst (Board.cfg true true) Board.ext
           (Board.info_tables Board.infos_uart) (Board.boot true false)
           4 false (Board.gd0 None []) eq_refl).
Defined.

Example dm_init_and_scan_board :
  let out := dm_init_and_scan (Board.cfg false false) Board.ext_ok
               Board.scan_tables_ok (Board.boot false false) 4 false
               (Board.gd0 None []) in
  fst out = Some 0
  /\ gd_world (snd out) = ["root_driver"; "root_driver"; "fb"]%string.
Proof. split; reflexivity. Qed.

(** ** Teardown and bring-up *)

Section TeardownProps.
Context {W : Type}.
Variable cfg : dm_config.
Variable ext : dm_externals W.
Variable tbl : dm_tables.
Variable boot : dm_boot W.

Lemma dm_uninit_root (s : global_data W) :
  gd_dm_root (snd (dm_uninit cfg ext s)) = None.
Proof.
  unfold dm_uninit, dm_root, call_device_remove, call_device_unbind.
  munfold. simpl.
  destruct (device_remove ext (gd_dm_root s) (DM_REMOVE_NON_VITAL cfg)
                          (gd_world s)) as [r1 w1]. simpl.
  destruct (device_remove ext (gd_dm_root s) (DM_REMOVE_NORMAL cfg) w1)
    as [r2 w2]. simpl.
  destruct (device_unbind ext (gd_dm_root s) w2) as [r3 w3]. reflexivity.
Qed.

Lemma dm_remove_devices_flags_run (flags : Z) (s : global_data W) :
  dm_remove_devices_flags ext flags s
  = (0, {| gd_dm_root := gd_dm_root s;
           gd_dm_driver_rt := gd_dm_driver_rt s;
           gd_world := snd (device_remove ext (gd_dm_root s) flags
                                          (gd_world s));
           gd_trace := gd_trace s ++
             [Call_device_remove (gd_dm_root s) flags
                (fst (device_remove ext (gd_dm_root s) flags
                                    (gd_world s)))] |}).
Proof.
  unfold dm_remove_devices_flags, dm_root, call_device_remove.
  munfold. simpl.
  destruct (device_remove ext (gd_dm_root s) flags (gd_world s)) as [r w].
  reflexivity.
Qed.

(** X30.  Removing the devices does not take the driver model down, only
    [dm_uninit] does.  On a root handle that is set,
    [dm_remove_devices_flags] calls [device_remove] once on the root,
    returns 0 whatever that call returns and keeps the handle, so that a
    [dm_init] after it is rejected with [-EINVAL]; after [dm_uninit] a
    [dm_init] is not rejected: in [OF_PLATDATA_INST] mode it sets the
    handle to the static root again and fails only with [-ENOMEM]. *)
Theorem dm_init_after_teardown (of_live : bool) (flags : Z)
    (s : global_data W) :
  OF_PLATDATA_INST boot = true ->
  gd_dm_root s <> None ->
  let removed := dm_remove_devices_flags ext flags s in
  let down := dm_uninit cfg ext s in
  fst removed = 0
  /\ (exists r, gd_trace (snd removed)
                = gd_trace s ++ [Call_device_remove (gd_dm_root s) flags r])
  /\ snd removed
     = {| gd_dm_root := gd_dm_root s;
          gd_dm_driver_rt := gd_dm_driver_rt s;
          gd_world := snd (device_remove ext (gd_dm_root s) flags
                                         (gd_world s));
          gd_trace := gd_trace s ++
            [Call_device_remove (gd_dm_root s) flags
               (fst (device_remove ext (gd_dm_root s) flags
                                   (gd_world s)))] |}
  /\ dm_init ext tbl boot of_live (snd removed)
     = (Some (- EINVAL), snd removed)
  /\ gd_dm_root (snd (dm_init ext tbl boot of_live (snd down)))
     = Some (DM_DEVICE_GET_root boot)
  /\ (fst (dm_init ext tbl boot of_live (snd down)) = Some 0
      \/ fst (dm_init ext tbl boot of_live (snd down)) = Some (- ENOMEM)).
Proof.
  intros Hinst Hroot. cbv zeta.
  rewrite dm_remove_devices_flags_run. cbn [fst snd gd_trace].
  split; [reflexivity |]. split; [eexists; reflexivity |].
  split; [reflexivity |].
  split; [apply dm_init_rejected; exact Hroot |].
  rewrite (dm_init_inst_run ext tbl boot of_live _ (dm_uninit_root s) Hinst).
  cbv zeta.
  match goal with |- context [dm_setup_inst boot ?t] =>
    destruct (dm_setup_inst_root boot t) as (Hr & _ & _ & Hres);
    destruct (dm_setup_inst boot t) as [ret s1]
  end.
  cbn [fst snd] in *.
  destruct Hres as [-> | ->]; cbn; auto.
Qed.
End TeardownProps.

Lemma dm_init_after_teardown_witness :
  let s := Board.gd0 (Some Board.root_device) [] in
  let removed := dm_remove_devices_flags Board.ext 1 s in
  let down := dm_uninit (Board.cfg true true) Board.ext s in
  fst removed = 0
  /\ (exists r, gd_trace (snd removed)
                = [] ++ [Call_device_remove (Some Board.root_device) 1 r])
  /\ snd removed
     = {| gd_dm_root := Some Board.root_device;
          gd_dm_driver_rt := [];
          gd_world := [];
          gd_trace := [] ++ [Call_device_remove (Some Board.root_device) 1
                                                0] |}
  /\ dm_init Board.ext (Board.fdt_tables []) (Board.boot true false) false
             (snd removed)
     = (Some (- EINVAL), snd removed)
  /\ gd_dm_root (snd (dm_init Board.ext (Board.fdt_tables [])
                        (Board.boot true false) false (snd down)))
     = Some Board.root_device
  /\ (fst (dm_init Board.ext (Board.fdt_tables []) (Board.boot true false)
                   false (snd down)) = Some 0
      \/ fst (dm_init Board.ext (Board.fdt_tables []) (Board.boot true false)
                      false (snd down)) = Some (- ENOMEM)).
Proof.
  apply (dm_init_after_teardown (Board.cfg true true) Board.ext
           (Board.fdt_tables []) (Board.boot true false) false 1
           (Board.gd0 (Some Board.root_device) [])).
  - reflexivity.
  - discriminate.
Defined.
